(** * Verification of the BE-policy-service ELT pipeline

    Shallow embedding of the STG -> CORE reconciler of the finance pipeline
    ([app/elt/finproduct/04_stg_to_core.py]), the landing extractors
    ([02_stg_base.py], [policy/02_stg_landing.py]), the policy core loader and
    association sync ([policy/04_stg_to_core.py]) and the status projector
    ([policy/05_update_policy_status.py]).

    Database tables are lists of records in scan order; one SQL statement is a
    function from the table(s) it reads to the table it writes.  Timestamps,
    dates and surrogate ids are [Z]; JSON text is [string]. *)

From Stdlib Require Import String Ascii List ZArith Bool Lia.
From Stdlib Require Import Sorting.Permutation.
#[local] Set Warnings "-register-all".
Import ListNotations.
Open Scope string_scope.
Open Scope Z_scope.

(* ================================================================== *)
(** ** Generic helpers *)

(** SQL [x = s] on nullable text: [NULL = s] is not true. *)
Definition sql_eq_text (x : option string) (s : string) : bool :=
  match x with Some v => String.eqb v s | None => false end.

(** Python dictionaries read with [.get]: first binding of the key. *)
Fixpoint assoc_get {V : Type} (d : list (string * V)) (k : string) : option V :=
  match d with
  | [] => None
  | (k', v) :: t => if String.eqb k' k then Some v else assoc_get t k
  end.

(** Python exceptions that the modelled functions can raise. *)
Inductive py_exc :=
| UnboundLocalError
| AttributeError
| TypeError
| ValueError
| ProgrammingError.  (* sqlalchemy.exc.ProgrammingError raised for the driver *)

Inductive py_result (A : Type) : Type :=
| Ok (a : A)
| Raise (e : py_exc).
Arguments Ok {A} a.
Arguments Raise {A} e.

(* ================================================================== *)
(** ** Status projector ([05_update_policy_status.py]) *)

Module Status.

(** The columns of [core.policy] the projector reads and writes. *)
Record policy_row := mk_policy_row {
  pr_id : string;
  pr_apply_type : option string;
  pr_apply_start : option Z;   (* date, as a day number *)
  pr_apply_end : option Z;
  pr_status : option string
}.

(** The [CASE] expression of [update_policy_status], branch by branch. *)
Definition status_case (apply_type : option string) (apply_start apply_end : option Z)
    (today : Z) : string :=
  if sql_eq_text apply_type "ALWAYS_OPEN" then "OPEN"
  else if sql_eq_text apply_type "CLOSED" then "CLOSED"
  else if sql_eq_text apply_type "PERIODIC" then
    match apply_start, apply_end with
    | Some s, Some e =>
        if (s <=? today) && (today <=? e) then "OPEN"      (* BETWEEN *)
        else if today <? s then "UPCOMING"
        else if e <? today then "CLOSED"
        else "UNKNOWN"
    | _, _ => "UNKNOWN"
    end
  else "UNKNOWN".

(** [UPDATE core.policy SET status = CASE ... END] (no [WHERE]). *)
Definition update_policy_status (today : Z) (rows : list policy_row) : list policy_row :=
  map (fun r => mk_policy_row (pr_id r) (pr_apply_type r) (pr_apply_start r)
                  (pr_apply_end r)
                  (Some (status_case (pr_apply_type r) (pr_apply_start r) (pr_apply_end r) today)))
      rows.

(** The claim as worded: a list of independent implications. *)
Definition claimed_status (apply_type : option string) (s e : option Z) (today : Z)
    (st : string) : Prop :=
  (apply_type = Some "ALWAYS_OPEN" -> st = "OPEN") /\
  (apply_type = Some "CLOSED" -> st = "CLOSED") /\
  (forall a b, apply_type = Some "PERIODIC" -> s = Some a -> e = Some b ->
     (a <= today <= b -> st = "OPEN") /\
     (today < a -> st = "UPCOMING") /\
     (today > b -> st = "CLOSED")) /\
  ((apply_type = Some "PERIODIC" /\ (s = None \/ e = None)) \/
   (apply_type <> Some "ALWAYS_OPEN" /\ apply_type <> Some "CLOSED" /\
    apply_type <> Some "PERIODIC") -> st = "UNKNOWN").

(** The same table with the branches taken in order: the [UPCOMING] and
    [CLOSED] branches only apply outside the range. *)
Definition ordered_status (apply_type : option string) (s e : option Z) (today : Z)
    (st : string) : Prop :=
  (apply_type = Some "ALWAYS_OPEN" -> st = "OPEN") /\
  (apply_type = Some "CLOSED" -> st = "CLOSED") /\
  (forall a b, apply_type = Some "PERIODIC" -> s = Some a -> e = Some b ->
     (a <= today <= b -> st = "OPEN") /\
     (today < a -> st = "UPCOMING") /\
     (a <= today -> today > b -> st = "CLOSED")) /\
  ((apply_type = Some "PERIODIC" /\ (s = None \/ e = None)) \/
   (apply_type <> Some "ALWAYS_OPEN" /\ apply_type <> Some "CLOSED" /\
    apply_type <> Some "PERIODIC") -> st = "UNKNOWN").

End Status.

(* ================================================================== *)
(** ** Timestamp parsing ([policy/04_stg_to_core.py]) *)

Module Parse.

Section Strptime.
(** [datetime.strptime(s, "%Y-%m-%d %H:%M:%S")]: [None] stands for the
    [ValueError] it raises on a string of another shape. *)
Variable strptime : string -> option Z.

(** [parse_modified_datetime]: [last_external_modified] is only bound inside
    [if dt_str:], so a falsy argument reaches [return] with it unbound. *)
Definition parse_modified_datetime (dt_str : option string) : py_result (option Z) :=
  match dt_str with
  | Some s =>
      if String.eqb s "" then Raise UnboundLocalError
      else match strptime s with
           | Some d => Ok (Some d)
           | None => Ok None
           end
  | None => Raise UnboundLocalError
  end.

(** [parse_date], the sibling parser, returns [None] on a falsy argument. *)
Variable strptime_date : string -> option Z.
Definition parse_date (dt_str : option string) : py_result (option Z) :=
  match dt_str with
  | Some s =>
      if String.eqb s "" then Ok None
      else match strptime_date s with
           | Some d => Ok (Some d)
           | None => Ok None
           end
  | None => Ok None
  end.

End Strptime.

End Parse.

(* ================================================================== *)
(** ** Landing normalizers ([finproduct/02_stg_base.py], [policy/02_stg_landing.py]) *)

Module Landing.

(** A decoded JSON value as Python holds it after [json]/[orjson] loading. *)
Inductive jval :=
| JNull
| JBool (b : bool)
| JStr (s : string)
| JList (l : list jval)
| JObj (fields : list (string * jval)).

Definition is_nil {A} (l : list A) : bool := match l with [] => true | _ => false end.

(** Python truthiness. *)
Definition truthy (v : jval) : bool :=
  match v with
  | JNull => false
  | JBool b => b
  | JStr s => negb (String.eqb s "")
  | JList l => negb (is_nil l)
  | JObj fs => negb (is_nil fs)
  end.

(** [d.get(k) or default]. *)
Definition get_or (d : list (string * jval)) (k : string) (default : jval) : jval :=
  match assoc_get d k with
  | Some v => if truthy v then v else default
  | None => default
  end.

(** One row of [stg.finproduct_base_landing] before [product_type]/[ext_source]
    are added by [process_one_type]. *)
Record base_record := mk_base_record {
  br_fin_prdt_cd : jval;
  br_payload : list (string * jval);
  br_content_hash : string
}.

(** One row of [stg.youthpolicy_landing]. *)
Record policy_landing_row := mk_policy_landing_row {
  pl_policy_id : string;
  pl_record_hash : string;
  pl_raw_json : list (string * jval);
  pl_raw_ingest_id : string;
  pl_page_no : Z
}.

Section Extract.
(** [sha256_hex(norm_json(item))] and [record_hash(item)]: digests of a
    canonical serialisation, external to the model. *)
Variable sha_norm : list (string * jval) -> string.
Variable record_hash : list (string * jval) -> string.
(** [str(v)] of a list or dict value (its [repr]). *)
Variable py_repr : jval -> string.

(** The loop body of [extract_base_records] over [base_list]. *)
Definition extract_from_list (xs : list jval) : list base_record :=
  flat_map (fun x =>
    match x with
    | JObj item =>
        match assoc_get item "fin_prdt_cd" with
        | Some v => if truthy v then [mk_base_record v item (sha_norm item)] else []
        | None => []                       (* item.get(...) is None: falsy *)
        end
    | _ => []                              (* not isinstance(item, dict) *)
    end) xs.

(** [extract_base_records(page_payload)]. *)
Definition extract_base_records (page : list (string * jval)) : py_result (list base_record) :=
  match get_or page "result" (JObj []) with
  | JObj result =>
      match get_or result "baseList" (JList []) with
      | JList xs => Ok (extract_from_list xs)
      | JObj _ => Ok []        (* iterating a dict yields str keys: no dict item *)
      | JStr _ => Ok []        (* iterating a str yields str: no dict item *)
      | JBool _ => Raise TypeError
      | JNull => Ok []
      end
  | _ => Raise AttributeError
  end.

(** [extract_items_from_payload(payload)]. *)
Definition extract_items_from_payload (payload : list (string * jval))
    : py_result (list (list (string * jval))) :=
  let result := match assoc_get payload "result" with
                | Some v => v
                | None => JObj payload
                end in
  match result with
  | JObj r =>
      let arr := match assoc_get r "youthPolicyList" with
                 | Some v => if truthy v then v else get_or r "items" (JList [])
                 | None => get_or r "items" (JList [])
                 end in
      match arr with
      | JList l => Ok (flat_map (fun x => match x with JObj it => [it] | _ => [] end) l)
      | _ => Ok []
      end
  | _ => Raise AttributeError
  end.

(** [str(v)] for the value returned by [item.get(k)]. *)
Definition py_str (v : option jval) : string :=
  match v with
  | None => "None"
  | Some JNull => "None"
  | Some (JBool true) => "True"
  | Some (JBool false) => "False"
  | Some (JStr s) => s
  | Some other => py_repr other
  end.

(** [pick_policy_id(item)]: [return str(item.get("plcyNo"))]. *)
Definition pick_policy_id (item : list (string * jval)) : string :=
  py_str (assoc_get item "plcyNo").

(** [insert ... on conflict do nothing] on primary key [(policy_id, record_hash)]. *)
Definition insert_landing (tbl : list policy_landing_row) (r : policy_landing_row)
    : list policy_landing_row :=
  if existsb (fun x => String.eqb (pl_policy_id x) (pl_policy_id r) &&
                       String.eqb (pl_record_hash x) (pl_record_hash r)) tbl
  then tbl else (tbl ++ [r])%list.

(** The rows [upsert_landing] prepares for one RAW page. *)
Definition prepare_page (ingest_id : string) (page_no : Z) (payload : list (string * jval))
    : py_result (list policy_landing_row) :=
  match extract_items_from_payload payload with
  | Ok items =>
      Ok (map (fun it => mk_policy_landing_row (pick_policy_id it) (record_hash it) it
                           ingest_id page_no) items)
  | Raise e => Raise e
  end.

(** [upsert_landing(conn, pages)]: a page is [(ingest_id, page_no, payload)]. *)
Fixpoint upsert_landing (tbl : list policy_landing_row)
    (pages : list (string * Z * list (string * jval))) : py_result (list policy_landing_row) :=
  match pages with
  | [] => Ok tbl
  | (ingest_id, page_no, payload) :: rest =>
      match prepare_page ingest_id page_no payload with
      | Ok rows => upsert_landing (fold_left insert_landing rows tbl) rest
      | Raise e => Raise e
      end
  end.

End Extract.

End Landing.

(* ================================================================== *)
(** ** Association resync ([policy/04_stg_to_core.py]) *)

Module Assoc.

(** The fields of a [NormalizedPolicy] one association sync reads: the policy
    id and one tag list ([keywords], [regions], [majors], ...). *)
Record policy_item := mk_item {
  it_id : string;
  it_tags : list string
}.

(** A row [(policy_id, ref_id)] of an edge table such as [core.policy_keyword]. *)
Definition edge := (string * Z)%type.

Definition edge_eqb (a b : edge) : bool :=
  String.eqb (fst a) (fst b) && Z.eqb (snd a) (snd b).

(** The pairs loaded into [tmp_policy_keyword]: for each item, for each tag
    [k], [kid = keyword_map.get(k)] and the pair is kept [if kid:]. *)
Definition target_pairs (tag_map : string -> option Z) (items : list policy_item)
    : list edge :=
  flat_map (fun it =>
    flat_map (fun k =>
      match tag_map k with
      | Some kid => if Z.eqb kid 0 then [] else [(it_id it, kid)]
      | None => []                           (* unknown.add(k) *)
      end) (it_tags it)) items.

(** The ids loaded into [tmp_policy]. *)
Definition touched_ids (items : list policy_item) : list string := map it_id items.

(** [INSERT ... SELECT t.* FROM tmp t LEFT JOIN pe ... WHERE pe.policy_id IS NULL]:
    every temp row with no equal pair in the table as it was before the
    statement. *)
Definition insert_rows (target : list edge) (tbl : list edge) : list edge :=
  filter (fun t => negb (existsb (edge_eqb t) tbl)) target.

(** [DELETE FROM pe USING tmp_policy p WHERE pe.policy_id = p.policy_id AND NOT EXISTS
    (SELECT 1 FROM tmp t WHERE t = pe)]: the predicate selecting deleted rows. *)
Definition deleted_by (ids : list string) (target : list edge) (pe : edge) : bool :=
  existsb (String.eqb (fst pe)) ids && negb (existsb (edge_eqb pe) target).

(** [sync_policy_keywords] / [sync_policy_region] (and the eligibility
    syncs, which share the code): the new table, the inserted rows and the
    deleted rows. *)
Definition sync_assoc (tag_map : string -> option Z) (items : list policy_item)
    (tbl : list edge) : list edge * list edge * list edge :=
  match items with
  | [] => (tbl, [], [])                      (* if not items: return *)
  | _ =>
      let target := target_pairs tag_map items in
      let ids := touched_ids items in
      let ins := insert_rows target tbl in
      let tbl1 := (tbl ++ ins)%list in
      let dels := filter (deleted_by ids target) tbl1 in
      (filter (fun pe => negb (deleted_by ids target pe)) tbl1, ins, dels)
  end.

(** The rows of one policy. *)
Definition rows_of (p : string) (tbl : list edge) : list edge :=
  filter (fun e => String.eqb (fst e) p) tbl.

(** A keyword master with [A -> 1], [B -> 2], [C -> 3]. *)
Definition abc_map (k : string) : option Z :=
  if String.eqb k "A" then Some 1 else if String.eqb k "B" then Some 2
  else if String.eqb k "C" then Some 3 else None.

End Assoc.

(* ================================================================== *)
(** ** Finance reconciler ([finproduct/04_stg_to_core.py]) *)

Module Finance.

(** A [JSONB] payload seen through [payload->>'k'] (the text of each key). *)
Definition jsonb := list (string * string).

Definition jtext (p : jsonb) (k : string) : option string := assoc_get p k.

Definition coalesce {A} (x : option A) (d : A) : A :=
  match x with Some v => v | None => d end.

(** [NULLIF(x, '')]. *)
Definition nullif_empty (x : option string) : option string :=
  match x with
  | Some s => if String.eqb s "" then None else x
  | None => None
  end.

(** PostgreSQL built-ins the SQL uses, as parameters of the development. *)
Record pg_builtins := mk_pg {
  to_date_yyyymm : string -> Z;    (* to_date(s, 'YYYYMM'), as a day number *)
  text_to_int : string -> Z;       (* s::int *)
  text_to_numeric : string -> Z;   (* s::numeric, as a scaled integer *)
  int_to_text : Z -> string;       (* format('%s', i) of an int *)
  to_char_rate : Z -> string;      (* TO_CHAR(x, 'FM999999999.00000') *)
  digest_hex : string -> string    (* encode(digest(x, 'sha256'), 'hex') *)
}.

(** A row of [stg.finproduct_base_landing]. *)
Record base_landing := mk_base_landing {
  bl_run_ts : Z;
  bl_product_type : string;
  bl_ext_source : string;
  bl_fin_prdt_cd : string;
  bl_payload : jsonb;
  bl_content_hash : string
}.
Definition bl_dcls_month (b : base_landing) : option string := jtext (bl_payload b) "dcls_month".

(** A row of [stg.finproduct_option_landing]. *)
Record option_landing := mk_option_landing {
  ol_run_ts : Z;
  ol_product_type : string;
  ol_ext_source : string;
  ol_fin_prdt_cd : string;
  ol_payload : jsonb;
  ol_content_hash : string
}.
Definition ol_dcls_month (o : option_landing) : option string := jtext (ol_payload o) "dcls_month".

(** A row of [core.product] (generated columns are functions of [p_payload]). *)
Record product := mk_product {
  p_id : Z;
  p_product_type : string;
  p_ext_source : string;
  p_ext_id : string;
  p_payload : jsonb;
  p_content_hash : string;
  p_is_current : bool;
  p_valid_from_ts : Z;
  p_valid_to_ts : option Z;
  p_options_set_hash : option string;
  p_options_count : option Z;
  p_created_at : Z;
  p_updated_at : Z
}.
Definition p_dcls_month (p : product) : option string := jtext (p_payload p) "dcls_month".
Definition p_spcl_cnd (p : product) : option string := jtext (p_payload p) "spcl_cnd".

(** A row of [core.product_option]. *)
Record product_option := mk_option {
  po_id : Z;
  po_product_id : Z;
  po_payload : jsonb;
  po_content_hash : string;
  po_is_current : bool;
  po_valid_from_ts : Z;
  po_valid_to_ts : option Z;
  po_created_at : Z;
  po_updated_at : Z
}.

(** [core.product_special_condition]: the nine flags of [SpecialCondition]. *)
Record special_condition := mk_sc {
  is_non_face_to_face : bool;
  is_bank_app : bool;
  is_salary_linked : bool;
  is_pension_linked : bool;
  is_utility_linked : bool;
  is_card_usage : bool;
  is_first_transaction : bool;
  is_checking_account : bool;
  is_redeposit : bool
}.

(** [SpecialCondition()]: every field at its default [False]. *)
Definition default_sc : special_condition :=
  mk_sc false false false false false false false false false.

Record sc_row := mk_sc_row {
  sc_product_id : Z;
  sc_flags : special_condition;
  sc_created_at : Z;
  sc_updated_at : Z
}.

(** The CORE tables and the two [BIGSERIAL] sequences. *)
Record db := mk_db {
  products : list product;
  options : list product_option;
  special_conditions : list sc_row;
  seq_product : Z;
  seq_option : Z
}.

(** The two landing tables the reconciler reads. *)
Record landing := mk_landing {
  base_rows : list base_landing;
  option_rows : list option_landing
}.

(** *** Row updates made by the statements *)

(** [SET is_current = FALSE, valid_to_ts = now(), updated_at = now()]. *)
Definition p_close (now : Z) (p : product) : product :=
  mk_product (p_id p) (p_product_type p) (p_ext_source p) (p_ext_id p) (p_payload p)
    (p_content_hash p) false (p_valid_from_ts p) (Some now) (p_options_set_hash p)
    (p_options_count p) (p_created_at p) now.

(** [SET updated_at = now()]. *)
Definition p_touch (now : Z) (p : product) : product :=
  mk_product (p_id p) (p_product_type p) (p_ext_source p) (p_ext_id p) (p_payload p)
    (p_content_hash p) (p_is_current p) (p_valid_from_ts p) (p_valid_to_ts p)
    (p_options_set_hash p) (p_options_count p) (p_created_at p) now.

(** [SET options_set_hash = h, options_count = n, updated_at = now()]. *)
Definition p_set_agg (h : option string) (n : option Z) (now : Z) (p : product) : product :=
  mk_product (p_id p) (p_product_type p) (p_ext_source p) (p_ext_id p) (p_payload p)
    (p_content_hash p) (p_is_current p) (p_valid_from_ts p) (p_valid_to_ts p)
    h n (p_created_at p) now.

Definition po_close (now : Z) (o : product_option) : product_option :=
  mk_option (po_id o) (po_product_id o) (po_payload o) (po_content_hash o) false
    (po_valid_from_ts o) (Some now) (po_created_at o) now.

Definition po_touch (now : Z) (o : product_option) : product_option :=
  mk_option (po_id o) (po_product_id o) (po_payload o) (po_content_hash o)
    (po_is_current o) (po_valid_from_ts o) (po_valid_to_ts o) (po_created_at o) now.

(** *** [ROW_NUMBER() OVER (PARTITION BY ... ORDER BY ...) = 1] *)

(** The row numbered 1 in one partition: the sort is taken stable over the
    scan order, so among rows no other row strictly precedes ([before]) the
    first one scanned wins. *)
Fixpoint rank1 {A} (before : A -> A -> bool) (l : list A) : option A :=
  match l with
  | [] => None
  | x :: t =>
      match rank1 before t with
      | None => Some x
      | Some y => if before y x then Some y else Some x
      end
  end.

(** The partition keys in order of first appearance. *)
Fixpoint dedup_acc {K} (eqb : K -> K -> bool) (seen : list K) (l : list K) : list K :=
  match l with
  | [] => []
  | k :: t => if existsb (eqb k) seen then dedup_acc eqb seen t
              else k :: dedup_acc eqb (k :: seen) t
  end.

(** [SELECT * FROM (... ROW_NUMBER() ... AS rn) WHERE rn = 1]. *)
Definition window_rank1 {K A} (eqb : K -> K -> bool) (key : A -> K)
    (before : A -> A -> bool) (rows : list A) : list A :=
  flat_map (fun k => match rank1 before (filter (fun r => eqb (key r) k) rows) with
                     | Some r => [r]
                     | None => []
                     end)
           (dedup_acc eqb [] (map key rows)).

Definition key3 := (string * string * string)%type.

Definition key3_eqb (a b : key3) : bool :=
  let '(a1, a2, a3) := a in
  let '(b1, b2, b3) := b in
  String.eqb a1 b1 && String.eqb a2 b2 && String.eqb a3 b3.

(** [PARTITION BY b.product_type, b.ext_source, b.fin_prdt_cd]. *)
Definition base_key (b : base_landing) : key3 :=
  (bl_product_type b, bl_ext_source b, bl_fin_prdt_cd b).

(** The natural key of [core.product]. *)
Definition product_key (p : product) : key3 :=
  (p_product_type p, p_ext_source p, p_ext_id p).

Section Reconciler.
Variable B : pg_builtins.

(** *** Base statements: [BASE_CLOSE_SQL], [BASE_INSERT_SQL], [BASE_TOUCH_SQL] *)

(** [to_date(COALESCE(b.dcls_month, '190001'), 'YYYYMM')]. *)
Definition base_month (b : base_landing) : Z :=
  to_date_yyyymm B (coalesce (bl_dcls_month b) "190001").

(** [x] sorts strictly before [y] under
    [ORDER BY to_date(...) DESC, b.run_ts DESC]. *)
Definition base_before (x y : base_landing) : bool :=
  (base_month y <? base_month x) ||
  ((base_month x =? base_month y) && (bl_run_ts y <? bl_run_ts x)).

(** The CTE [candidates ... WHERE rn = 1] for [:product_type = pt]. *)
Definition base_candidates (pt : string) (L : list base_landing) : list base_landing :=
  window_rank1 key3_eqb base_key base_before
    (filter (fun b => String.eqb (bl_product_type b) pt) L).

(** The rank-1 candidate joined to a product row on the natural key. *)
Definition cand_for (cands : list base_landing) (p : product) : option base_landing :=
  find (fun c => key3_eqb (base_key c) (product_key p)) cands.

(** The [to_close] CTE: current rows whose candidate has another hash. *)
Definition close_target (cands : list base_landing) (p : product) : bool :=
  p_is_current p &&
  match cand_for cands p with
  | Some c => negb (String.eqb (p_content_hash p) (bl_content_hash c))
  | None => false
  end.

(** [BASE_CLOSE_SQL]. *)
Definition base_close (pt : string) (now : Z) (L : list base_landing) (ps : list product)
    : list product :=
  let cands := base_candidates pt L in
  map (fun p => if close_target cands p then p_close now p else p) ps.

(** The rows [need_insert] yields for candidate [c]: the [LEFT JOIN] gives one
    NULL-extended row when no current row matches, and otherwise one row per
    matching current row, kept when its hash differs. *)
Definition need_insert (ps : list product) (c : base_landing) : list base_landing :=
  match filter (fun p => p_is_current p && key3_eqb (product_key p) (base_key c)) ps with
  | [] => [c]
  | ms => map (fun _ => c)
              (filter (fun p => negb (String.eqb (p_content_hash p) (bl_content_hash c))) ms)
  end.

(** The row [INSERT INTO core.product (...) SELECT ..., TRUE, now(), now(), now()]
    creates, with [id] drawn from the sequence. *)
Definition new_product (id now : Z) (c : base_landing) : product :=
  mk_product id (bl_product_type c) (bl_ext_source c) (bl_fin_prdt_cd c) (bl_payload c)
    (bl_content_hash c) true now None None None now now.

Fixpoint insert_products (now seq : Z) (cs : list base_landing) : list product * Z :=
  match cs with
  | [] => ([], seq)
  | c :: t =>
      let '(rest, seq') := insert_products now (seq + 1) t in
      (new_product seq now c :: rest, seq')
  end.

(** [BASE_INSERT_SQL]: the new table, the sequence, and the returned ids. *)
Definition base_insert (pt : string) (now : Z) (L : list base_landing) (ps : list product)
    (seq : Z) : list product * Z * list Z :=
  let cands := base_candidates pt L in
  let '(news, seq') := insert_products now seq (flat_map (need_insert ps) cands) in
  ((ps ++ news)%list, seq', map p_id news).

(** [BASE_TOUCH_SQL]: current rows whose candidate has the same hash. *)
Definition touch_target (cands : list base_landing) (p : product) : bool :=
  p_is_current p &&
  match cand_for cands p with
  | Some c => String.eqb (p_content_hash p) (bl_content_hash c)
  | None => false
  end.

Definition base_touch (pt : string) (now : Z) (L : list base_landing) (ps : list product)
    : list product :=
  let cands := base_candidates pt L in
  map (fun p => if touch_target cands p then p_touch now p else p) ps.

(** *** [OPTION_UPSERT_SQL] *)

(** A row of the [opt_raw] CTE: the landing row, its product and derived keys. *)
Record opt_cand := mk_opt_cand {
  oc_row : option_landing;
  oc_product_id : Z;
  oc_k_save_trm : Z;
  oc_k_intr_rate_type : string;
  oc_k_rsrv_type : string;
  oc_eff_month : option string
}.

(** [base_now]: current products of the partition. *)
Definition base_now (pt : string) (ps : list product) : list product :=
  filter (fun p => p_is_current p && String.eqb (p_product_type p) pt) ps.

(** The join condition of [opt_raw]. *)
Definition opt_join (bn : product) (o : option_landing) : bool :=
  String.eqb (p_ext_source bn) (ol_ext_source o) &&
  String.eqb (p_ext_id bn) (ol_fin_prdt_cd o) &&
  match ol_dcls_month o with
  | None => true
  | Some m => sql_eq_text (p_dcls_month bn) m
  end.

(** [COALESCE(NULLIF(payload->>'save_trm','')::int, -1)] and the two text keys. *)
Definition k_save_trm (pl : jsonb) : Z :=
  coalesce (option_map (text_to_int B) (nullif_empty (jtext pl "save_trm"))) (-1).
Definition k_intr_rate_type (pl : jsonb) : string := coalesce (jtext pl "intr_rate_type") "".
Definition k_rsrv_type (pl : jsonb) : string := coalesce (jtext pl "rsrv_type") "".

Definition make_opt_cand (o : option_landing) (bn : product) : opt_cand :=
  mk_opt_cand o (p_id bn) (k_save_trm (ol_payload o)) (k_intr_rate_type (ol_payload o))
    (k_rsrv_type (ol_payload o))
    (match ol_dcls_month o with Some m => Some m | None => p_dcls_month bn end).

(** [opt_raw]: option landing rows of the partition joined to [base_now]. *)
Definition opt_raw (pt : string) (ps : list product) (OL : list option_landing)
    : list opt_cand :=
  flat_map (fun o =>
    if String.eqb (ol_product_type o) pt
    then map (make_opt_cand o) (filter (fun bn => opt_join bn o) (base_now pt ps))
    else []) OL.

Definition key4 := (Z * Z * string * string)%type.

Definition key4_eqb (a b : key4) : bool :=
  let '(a1, a2, a3, a4) := a in
  let '(b1, b2, b3, b4) := b in
  Z.eqb a1 b1 && Z.eqb a2 b2 && String.eqb a3 b3 && String.eqb a4 b4.

(** [PARTITION BY product_id, k_save_trm, k_intr_rate_type, k_rsrv_type]. *)
Definition oc_key (c : opt_cand) : key4 :=
  (oc_product_id c, oc_k_save_trm c, oc_k_intr_rate_type c, oc_k_rsrv_type c).

Definition oc_month (c : opt_cand) : Z :=
  to_date_yyyymm B (coalesce (oc_eff_month c) "190001").

(** [ORDER BY to_date(COALESCE(eff_month,'190001'),'YYYYMM') DESC, run_ts DESC,
    content_hash DESC]; text compared bytewise (C collation). *)
Definition opt_before (x y : opt_cand) : bool :=
  (oc_month y <? oc_month x) ||
  ((oc_month x =? oc_month y) &&
   ((ol_run_ts (oc_row y) <? ol_run_ts (oc_row x)) ||
    ((ol_run_ts (oc_row x) =? ol_run_ts (oc_row y)) &&
     String.ltb (ol_content_hash (oc_row y)) (ol_content_hash (oc_row x))))).

(** [opt_candidates]. *)
Definition opt_candidates (pt : string) (ps : list product) (OL : list option_landing)
    : list opt_cand :=
  window_rank1 key4_eqb oc_key opt_before (opt_raw pt ps OL).

(** The generated columns of [core.product_option] used as the option key. *)
Definition po_key (o : product_option) : key4 :=
  (po_product_id o, k_save_trm (po_payload o), k_intr_rate_type (po_payload o),
   k_rsrv_type (po_payload o)).

Definition oc_for (cands : list opt_cand) (o : product_option) : option opt_cand :=
  find (fun c => key4_eqb (oc_key c) (po_key o)) cands.

(** The [closed] CTE's [WHERE]. *)
Definition opt_close_target (cands : list opt_cand) (o : product_option) : bool :=
  po_is_current o &&
  match oc_for cands o with
  | Some c => negb (String.eqb (po_content_hash o) (ol_content_hash (oc_row c)))
  | None => false
  end.

(** The [touched] CTE's [WHERE]. *)
Definition opt_touch_target (cands : list opt_cand) (o : product_option) : bool :=
  po_is_current o &&
  match oc_for cands o with
  | Some c => String.eqb (po_content_hash o) (ol_content_hash (oc_row c))
  | None => false
  end.

(** The [inserted] CTE's [LEFT JOIN core.product_option cur]: every
    sub-statement of the [WITH] reads the table as it was before the statement. *)
Definition opt_need_insert (os : list product_option) (c : opt_cand) : list opt_cand :=
  match filter (fun o => po_is_current o && key4_eqb (po_key o) (oc_key c)) os with
  | [] => [c]
  | ms => map (fun _ => c)
              (filter (fun o => negb (String.eqb (po_content_hash o)
                                                 (ol_content_hash (oc_row c)))) ms)
  end.

Definition new_option (id now : Z) (c : opt_cand) : product_option :=
  mk_option id (oc_product_id c) (ol_payload (oc_row c)) (ol_content_hash (oc_row c))
    true now None now now.

Fixpoint insert_options (now seq : Z) (cs : list opt_cand) : list product_option * Z :=
  match cs with
  | [] => ([], seq)
  | c :: t =>
      let '(rest, seq') := insert_options now (seq + 1) t in
      (new_option seq now c :: rest, seq')
  end.

(** [OPTION_UPSERT_SQL]: the new table, the sequence and
    [(closed_cnt, inserted_cnt, touched_cnt)]. *)
Definition option_upsert (pt : string) (now : Z) (OL : list option_landing)
    (ps : list product) (os : list product_option) (seq : Z)
    : list product_option * Z * (Z * Z * Z) :=
  let cands := opt_candidates pt ps OL in
  let '(news, seq') := insert_options now seq (flat_map (opt_need_insert os) cands) in
  let upd := map (fun o => if opt_close_target cands o then po_close now o
                           else if opt_touch_target cands o then po_touch now o
                           else o) os in
  ((upd ++ news)%list, seq',
   (Z.of_nat (length (filter (opt_close_target cands) os)),
    Z.of_nat (length news),
    Z.of_nat (length (filter (opt_touch_target cands) os)))).

(** *** [RECOMPUTE_OPTION_SET_HASH_SQL] *)

Definition live_options (os : list product_option) (pid : Z) : list product_option :=
  filter (fun o => po_is_current o && Z.eqb (po_product_id o) pid) os.

(** Generated columns read by the aggregate. *)
Definition po_save_trm (o : product_option) : option Z :=
  option_map (text_to_int B) (nullif_empty (jtext (po_payload o) "save_trm")).
Definition po_intr_rate (o : product_option) : option Z :=
  option_map (text_to_numeric B) (nullif_empty (jtext (po_payload o) "intr_rate")).
Definition po_intr_rate2 (o : product_option) : option Z :=
  option_map (text_to_numeric B) (nullif_empty (jtext (po_payload o) "intr_rate2")).

(** [format('%s|%s|%s|%s|%s', ...)] of one option. *)
Definition option_line (o : product_option) : string :=
  String.concat "|"
    [int_to_text B (coalesce (po_save_trm o) (-1));
     coalesce (jtext (po_payload o) "intr_rate_type") "";
     coalesce (jtext (po_payload o) "rsrv_type") "";
     coalesce (option_map (to_char_rate B) (po_intr_rate o)) "";
     coalesce (option_map (to_char_rate B) (po_intr_rate2 o)) ""].

(** Ascending order with NULLs last (PostgreSQL's default). *)
Definition cmp_nulls_last {A} (cmp : A -> A -> comparison) (x y : option A) : comparison :=
  match x, y with
  | None, None => Eq
  | None, Some _ => Gt
  | Some _, None => Lt
  | Some a, Some b => cmp a b
  end.

Definition lex (c1 c2 : comparison) : comparison :=
  match c1 with Eq => c2 | _ => c1 end.

(** [ORDER BY po.save_trm, po.intr_rate_type, po.rsrv_type, po.intr_rate, po.intr_rate2]. *)
Definition option_order (x y : product_option) : comparison :=
  lex (cmp_nulls_last Z.compare (po_save_trm x) (po_save_trm y))
  (lex (cmp_nulls_last String.compare (jtext (po_payload x) "intr_rate_type")
                                      (jtext (po_payload y) "intr_rate_type"))
  (lex (cmp_nulls_last String.compare (jtext (po_payload x) "rsrv_type")
                                      (jtext (po_payload y) "rsrv_type"))
  (lex (cmp_nulls_last Z.compare (po_intr_rate x) (po_intr_rate y))
       (cmp_nulls_last Z.compare (po_intr_rate2 x) (po_intr_rate2 y))))).

Fixpoint insert_sorted (x : product_option) (l : list product_option) : list product_option :=
  match l with
  | [] => [x]
  | y :: t => match option_order y x with
              | Gt => x :: l
              | _ => y :: insert_sorted x t
              end
  end.

Fixpoint sort_options (l : list product_option) : list product_option :=
  match l with [] => [] | x :: t => insert_sorted x (sort_options t) end.

(** [encode(digest(string_agg(format(...), ';' ORDER BY ...), 'sha256'), 'hex')]. *)
Definition options_set_hash (live : list product_option) : string :=
  digest_hex B (String.concat ";" (map option_line (sort_options live))).

(** First statement: products of [base_now] having current options. *)
Definition recompute_agg (pt : string) (now : Z) (os : list product_option)
    (ps : list product) : list product :=
  map (fun p =>
    if p_is_current p && String.eqb (p_product_type p) pt then
      match live_options os (p_id p) with
      | [] => p
      | live => p_set_agg (Some (options_set_hash live)) (Some (Z.of_nat (length live))) now p
      end
    else p) ps.

(** Second statement: products of [base_now] with no current option. *)
Definition recompute_zero (pt : string) (now : Z) (os : list product_option)
    (ps : list product) : list product :=
  map (fun p =>
    if p_is_current p && String.eqb (p_product_type p) pt &&
       Landing.is_nil (live_options os (p_id p))
    then p_set_agg None (Some 0) now p else p) ps.

Definition recompute_option_set_hash (pt : string) (now : Z) (os : list product_option)
    (ps : list product) : list product :=
  recompute_zero pt now os (recompute_agg pt now os ps).

End Reconciler.

(** *** Special-condition classification ([analyze_special_condition] and callers) *)

(** The Gemini capability as the module sees it. *)
Record gemini := mk_gemini {
  (* GEMINI_AVAILABLE and GEMINI_API_KEY set and not the placeholder *)
  gemini_ready : bool;
  (* genai.GenerativeModel('gemini-2.5-flash-lite') returns; false when it raises *)
  model_init : bool;
  (* ANALYSIS_PROMPT.format(spcl_cnd=...) *)
  format_prompt : string -> string;
  (* model.generate_content(prompt).text; None when it raises *)
  generate_content : string -> option string;
  (* fence stripping, json.loads and the nine .get(...); None when it raises *)
  parse_response : string -> option special_condition
}.

(** [spcl_cnd] is PostgreSQL text, held as its UTF-8 bytes.  [str.strip()]
    removes the characters of [str.isspace()]: U+0009 to U+000D, U+001C to
    U+0020, U+0085, U+00A0, U+1680, U+2000 to U+200A, U+2028, U+2029,
    U+202F, U+205F and U+3000.  The one-byte ones: *)
Definition is_py_space (c : ascii) : bool :=
  let n := nat_of_ascii c in
  ((9 <=? n) && (n <=? 13))%nat || ((28 <=? n) && (n <=? 32))%nat.

(** The two-byte ones: [C2 85] (U+0085) and [C2 A0] (U+00A0). *)
Definition is_space2 (c1 c2 : ascii) : bool :=
  ((nat_of_ascii c1 =? 194) && ((nat_of_ascii c2 =? 133) || (nat_of_ascii c2 =? 160)))%nat.

(** The three-byte ones: [E1 9A 80] (U+1680), [E2 80 80] to [E2 80 8A]
    (U+2000 to U+200A), [E2 80 A8], [E2 80 A9], [E2 80 AF] (U+2028, U+2029,
    U+202F), [E2 81 9F] (U+205F) and [E3 80 80] (U+3000). *)
Definition is_space3 (c1 c2 c3 : ascii) : bool :=
  let a := nat_of_ascii c1 in
  let b := nat_of_ascii c2 in
  let c := nat_of_ascii c3 in
  ((a =? 225) && (b =? 154) && (c =? 128) ||
   (a =? 226) && (b =? 128) &&
     ((128 <=? c) && (c <=? 138) || (c =? 168) || (c =? 169) || (c =? 175)) ||
   (a =? 226) && (b =? 129) && (c =? 159) ||
   (a =? 227) && (b =? 128) && (c =? 128))%nat.

(** [s.strip() == ""]: every character of the UTF-8 text is whitespace. *)
Fixpoint all_space (s : string) : bool :=
  match s with
  | EmptyString => true
  | String c t =>
      if is_py_space c then all_space t
      else match t with
           | String c2 t2 =>
               if is_space2 c c2 then all_space t2
               else match t2 with
                    | String c3 t3 => is_space3 c c2 c3 && all_space t3
                    | EmptyString => false
                    end
           | EmptyString => false
           end
  end.

Section Classifier.
Variable G : gemini.

(** [analyze_special_condition(spcl_cnd)]: the result ([None] is a failure)
    and the number of calls made to the model. *)
Definition analyze_special_condition (spcl_cnd : string) : option special_condition * nat :=
  if negb (gemini_ready G) then (None, 0%nat)
  else if all_space spcl_cnd then (Some default_sc, 0%nat)  (* not s or s.strip() == "" *)
  else if negb (model_init G) then (None, 0%nat)   (* GenerativeModel(...) raised: no call *)
  else match generate_content G (format_prompt G spcl_cnd) with
       | None => (None, 1%nat)
       | Some txt => (parse_response G txt, 1%nat)
       end.

(** [save_special_condition]: [INSERT ... ON CONFLICT (product_id) DO UPDATE]
    of all nine flags and [updated_at]. *)
Definition save_special_condition (now : Z) (tbl : list sc_row) (pid : Z)
    (c : special_condition) : list sc_row :=
  if existsb (fun r => Z.eqb (sc_product_id r) pid) tbl
  then map (fun r => if Z.eqb (sc_product_id r) pid
                     then mk_sc_row pid c (sc_created_at r) now else r) tbl
  else (tbl ++ [mk_sc_row pid c now now])%list.

(** The [SELECT id, fin_prdt_nm, spcl_cnd FROM core.product WHERE ...] of
    [analyze_changed_products]. *)
Definition products_to_analyze (ids : list Z) (ps : list product) : list (Z * string) :=
  flat_map (fun p =>
    if existsb (Z.eqb (p_id p)) ids && p_is_current p then
      match p_spcl_cnd p with
      | Some s => if String.eqb s "" then [] else [(p_id p, s)]
      | None => []
      end
    else []) ps.

(** The [for product in products] loop: table, successes, failures, calls. *)
Fixpoint analyze_loop (now : Z) (todo : list (Z * string)) (tbl : list sc_row)
    : list sc_row * nat * nat * nat :=
  match todo with
  | [] => (tbl, 0%nat, 0%nat, 0%nat)
  | (pid, s) :: rest =>
      let '(res, n) := analyze_special_condition s in
      match res with
      | Some c =>
          let '(tbl', ok, ko, calls) := analyze_loop now rest (save_special_condition now tbl pid c) in
          (tbl', S ok, ko, (n + calls)%nat)
      | None =>
          let '(tbl', ok, ko, calls) := analyze_loop now rest tbl in
          (tbl', ok, S ko, (n + calls)%nat)
      end
  end.

(** [analyze_changed_products(conn, changed_product_ids, skip_gemini)]. *)
Definition analyze_changed_products (now : Z) (ids : list Z) (skip_gemini : bool)
    (ps : list product) (tbl : list sc_row) : list sc_row * nat * nat * nat :=
  if skip_gemini || Landing.is_nil ids then (tbl, 0%nat, 0%nat, 0%nat)
  else analyze_loop now (products_to_analyze ids ps) tbl.

End Classifier.

(** *** [upsert_for_type] *)

(** One call of [upsert_for_type(conn, product_type, skip_gemini)] inside the
    transaction of [run]: [now()] is the transaction timestamp [now]. *)
Definition upsert_for_type (B : pg_builtins) (G : gemini) (pt : string) (skip_gemini : bool)
    (now : Z) (L : landing) (s : db) : db * (Z * Z * Z * nat * nat) :=
  let ps1 := base_close B pt now (base_rows L) (products s) in
  let '(ps2, seqp, inserted_ids) := base_insert B pt now (base_rows L) ps1 (seq_product s) in
  let ps3 := base_touch B pt now (base_rows L) ps2 in
  let '(os1, seqo, counts) := option_upsert B pt now (option_rows L) ps3 (options s) (seq_option s) in
  let ps4 := recompute_option_set_hash B pt now os1 ps3 in
  let '(scs, gs, gf, _) := analyze_changed_products G now inserted_ids skip_gemini ps4
                              (special_conditions s) in
  let '(cc, ic, tc) := counts in
  (mk_db ps4 os1 scs seqp seqo, (cc, ic, tc, gs, gf)).




(** *** Vocabulary of the properties *)

(** The current rows of [core.product] carrying natural key [k]. *)
Definition current_with_key (k : key3) (ps : list product) : list product :=
  filter (fun p => p_is_current p && key3_eqb (product_key p) k) ps.

(** What [uq_product_current] ([UNIQUE (ext_source, ext_id) WHERE is_current],
    read per natural key) demands: at most one current row per key. *)
Definition at_most_one_current (ps : list product) : Prop :=
  forall k, (length (current_with_key k ps) <= 1)%nat.

(** Every current row carries the hash of its key's candidate (what
    [BASE_CLOSE_SQL] leaves behind). *)
Definition settled (cands : list base_landing) (ps : list product) : Prop :=
  forall p c, In p ps -> p_is_current p = true -> In c cands ->
    base_key c = product_key p -> p_content_hash p = bl_content_hash c.




(** A product row without its bookkeeping: [updated_at] and the two
    aggregates blanked. *)
Definition p_frame (p : product) : product :=
  mk_product (p_id p) (p_product_type p) (p_ext_source p) (p_ext_id p) (p_payload p)
    (p_content_hash p) (p_is_current p) (p_valid_from_ts p) (p_valid_to_ts p) None None
    (p_created_at p) 0.

(** A row with its [updated_at] blanked. *)
Definition p_erase (p : product) : product :=
  mk_product (p_id p) (p_product_type p) (p_ext_source p) (p_ext_id p) (p_payload p)
    (p_content_hash p) (p_is_current p) (p_valid_from_ts p) (p_valid_to_ts p)
    (p_options_set_hash p) (p_options_count p) (p_created_at p) 0.


(** The content of a version row: everything but [is_current],
    [valid_to_ts], [updated_at] and the aggregates. *)
Definition p_content (p : product) : product :=
  mk_product (p_id p) (p_product_type p) (p_ext_source p) (p_ext_id p) (p_payload p)
    (p_content_hash p) false (p_valid_from_ts p) None None None (p_created_at p) 0.

Definition po_content (o : product_option) : product_option :=
  mk_option (po_id o) (po_product_id o) (po_payload o) (po_content_hash o) false
    (po_valid_from_ts o) None (po_created_at o) 0.

(** A row whose [valid_to_ts] is set is not current. *)
Definition closed_consistent (s : db) : Prop :=
  (forall p, In p (products s) -> p_valid_to_ts p <> None -> p_is_current p = false) /\
  (forall o, In o (options s) -> po_valid_to_ts o <> None -> po_is_current o = false).

(** Sample PostgreSQL built-ins and model: months as [YYYYMM] numbers, the
    digest as the identity. *)
Definition sample_pg : pg_builtins :=
  mk_pg (fun s => if String.eqb s "202409" then 202409 else if String.eqb s "202408" then 202408 else 190001)
        (fun s => if String.eqb s "12" then 12 else 0)
        (fun _ => 0) (fun _ => "12") (fun _ => "3.00000") (fun s => s).

Definition sample_gemini : gemini :=
  mk_gemini true true (fun s => s) (fun p => Some p) (fun _ => Some default_sc).

(** Gemini not configured ([GEMINI_API_KEY] unset). *)
Definition sample_gemini_off : gemini :=
  mk_gemini false true (fun s => s) (fun p => Some p) (fun _ => Some default_sc).

(** A configured model whose call raises every time. *)
Definition sample_gemini_failing : gemini :=
  mk_gemini true true (fun s => s) (fun _ => None) (fun _ => Some default_sc).

(** A current product with a non-empty [spcl_cnd]. *)
Definition sample_product : product :=
  mk_product 1 "DEPOSIT" "FSS" "P1" [("dcls_month", "202409"); ("spcl_cnd", "급여이체 시 우대")]
    "h1" true 5 None None None 5 5.

(** Tables with history: a closed and a current version of [P1], a current
    [P2], and a closed and a current option of the current [P1]. *)
Definition sample_history_db : db :=
  mk_db
    [mk_product 1 "DEPOSIT" "FSS" "P1" [("dcls_month", "202408")] "h0" false 1 (Some 3) None None 1 3;
     mk_product 2 "DEPOSIT" "FSS" "P1" [("dcls_month", "202409")] "h1" true 3 None None None 3 3;
     mk_product 3 "DEPOSIT" "FSS" "P2" [("dcls_month", "202409")] "g1" true 3 None None None 3 3]
    [mk_option 1 2 [("save_trm", "12")] "o0" false 1 (Some 3) 1 3;
     mk_option 2 2 [("save_trm", "12")] "o1" true 3 None 3 3]
    [] 4 3.

(** A landing batch that keeps the base of [P1], changes its 12-month
    option, and changes the base of [P2]. *)
Definition sample_history_landing : landing :=
  mk_landing
    [mk_base_landing 100 "DEPOSIT" "FSS" "P1" [("dcls_month", "202409")] "h1";
     mk_base_landing 100 "DEPOSIT" "FSS" "P2" [("dcls_month", "202409")] "g2"]
    [mk_option_landing 100 "DEPOSIT" "FSS" "P1" [("dcls_month", "202409"); ("save_trm", "12")] "o2"].




End Finance.

(* ================================================================== *)
(** ** Policy core loader ([upsert_policy] in [policy/04_stg_to_core.py]) *)

Module PolicyCore.

(** The [core.policy] columns relevant here; [status] is written only by the
    status projector. *)
Record policy := mk_policy {
  pol_id : string;
  pol_title : string;
  pol_apply_type : string;
  pol_payload : string;
  pol_content_hash : string;
  pol_status : option string
}.

(** The [NormalizedPolicy] fields bound into the statement. *)
Record normalized := mk_normalized {
  n_id : string;
  n_title : string;
  n_apply_type : string;
  n_payload : string;
  n_content_hash : string
}.

(** [INSERT INTO core.policy (...) VALUES (...) ON CONFLICT (id) DO UPDATE SET
    title = EXCLUDED.title, ..., payload = EXCLUDED.payload,
    content_hash = EXCLUDED.content_hash, ...] for one parameter set. *)
Definition upsert_one (tbl : list policy) (it : normalized) : list policy :=
  if existsb (fun r => String.eqb (pol_id r) (n_id it)) tbl
  then map (fun r => if String.eqb (pol_id r) (n_id it)
                     then mk_policy (pol_id r) (n_title it) (n_apply_type it) (n_payload it)
                            (n_content_hash it) (pol_status r)
                     else r) tbl
  else (tbl ++ [mk_policy (n_id it) (n_title it) (n_apply_type it) (n_payload it)
                  (n_content_hash it) None])%list.

(** [upsert_policy(conn, items)]: [conn.execute(sql, params)] runs the
    statement once per item, in order. *)
Definition upsert_policy (tbl : list policy) (items : list normalized) : list policy :=
  fold_left upsert_one items tbl.

End PolicyCore.

(* ================================================================== *)
(** ** Batching helpers ([finproduct/02_stg_base.py], [policy/02_stg_landing.py],
    [policy/04_stg_to_core.py]) *)

Module Chunk.

(** The generator shared by [batched(iterable, size)] and
    [chunked(it, size)]: [buf] collects items and is yielded (and replaced
    by a fresh list) as soon as [len(buf) >= size]; a non-empty rest is
    yielded at the end. *)
Fixpoint batched_acc {A} (size : Z) (buf : list A) (xs : list A) : list (list A) :=
  match xs with
  | [] => match buf with [] => [] | _ => [buf] end
  | x :: t =>
      let buf' := (buf ++ [x])%list in
      if size <=? Z.of_nat (length buf') then buf' :: batched_acc size [] t
      else batched_acc size buf' t
  end.

(** [batched] of [02_stg_base.py]. *)
Definition batched {A} (size : Z) (xs : list A) : list (list A) := batched_acc size [] xs.

(** [chunked] of [02_stg_landing.py] (the same body). *)
Definition chunked {A} (size : Z) (xs : list A) : list (list A) := batched_acc size [] xs.

(** [range(i, stop, n)] for [n > 0]; [fuel] bounds the number of steps. *)
Fixpoint range_up (fuel : nat) (i stop n : Z) : list Z :=
  match fuel with
  | O => []
  | S f => if i <? stop then i :: range_up f (i + n) stop n else []
  end.

(** [seq[i : j]] for [0 <= i <= j]. *)
Definition slice {A} (xs : list A) (i j : Z) : list A :=
  firstn (Z.to_nat (j - i)) (skipn (Z.to_nat i) xs).

(** [_chunked(seq, n)] of [policy/04_stg_to_core.py]:
    [for i in range(0, len(seq), n): yield seq[i : i + n]]. [None] is the
    [ValueError] [range] raises for a zero step; a negative step gives an
    empty range. *)
Definition _chunked {A} (xs : list A) (n : Z) : option (list (list A)) :=
  if n =? 0 then None
  else if n <? 0 then Some []
  else Some (map (fun i => slice xs i (i + n))
                 (range_up (S (length xs)) 0 (Z.of_nat (length xs)) n)).

(** Consecutive pieces of [n] items, by fuel. *)
Fixpoint chunksf {A} (fuel n : nat) (l : list A) : list (list A) :=
  match fuel with
  | O => []
  | S f => match l with
           | [] => []
           | _ => firstn n l :: chunksf f n (skipn n l)
           end
  end.

End Chunk.

(* ================================================================== *)
(** ** Policy normalisation helpers ([policy/04_stg_to_core.py]) *)

Module PolicyNorm.
Import Landing.

(** [s.split(c)] for a one-character separator. The separators used
    (["," "~"]) are ASCII, and no byte of a multi-byte UTF-8 sequence is
    ASCII, so splitting the UTF-8 bytes splits the characters. *)
Fixpoint py_split (c : ascii) (s : string) : list string :=
  match s with
  | EmptyString => [EmptyString]
  | String x t =>
      let r := py_split c t in
      if Ascii.eqb x c then EmptyString :: r
      else match r with
           | h :: r' => String x h :: r'
           | [] => [String x EmptyString]
           end
  end.

Section Norm.
(** [str(v)] of a list or dict value (its [repr]). *)
Variable py_repr : jval -> string.

(** [extract_list_from_payload(payload, field)]. *)
Definition extract_list_from_payload (payload : list (string * jval)) (field : string)
    : list string :=
  match assoc_get payload field with
  | None => []
  | Some JNull => []                                   (* raw is None *)
  | Some (JList xs) => map (fun x => py_str py_repr (Some x)) (filter truthy xs)
  | Some v => filter (fun t => negb (String.eqb t "")) (py_split "," (py_str py_repr (Some v)))
  end.

(** [str.strip()] and [datetime.strptime(s, "%Y%m%d").date()] ([None] for
    the [ValueError]), external to the model. *)
Variable py_strip : string -> string.
Variable strptime_ymd : string -> option Z.

(** [parse_period_field(aplyYmd)]: any exception ([AttributeError] on a
    value that is not a [str], [ValueError] from [strptime]) is caught and
    gives [(None, None)]. *)
Definition parse_period_field (aplyYmd : jval) : option Z * option Z :=
  match aplyYmd with
  | JStr s =>
      match py_split "~" s with
      | [p0; p1] =>
          match strptime_ymd (py_strip p0) with
          | Some d0 =>
              match strptime_ymd (py_strip p1) with
              | Some d1 => (Some d0, Some d1)
              | None => (None, None)
              end
          | None => (None, None)
          end
      | _ => (None, None)
      end
  | _ => (None, None)
  end.

End Norm.

(** [set_apply_type(aplyPrdSeCd)]: [==] against a [str] is false for a
    value of another type. *)
Definition set_apply_type (aplyPrdSeCd : jval) : string :=
  match aplyPrdSeCd with
  | JStr s =>
      if String.eqb s "0057001" then "PERIODIC"
      else if String.eqb s "0057002" then "ALWAYS_OPEN"
      else if String.eqb s "0057003" then "CLOSED"
      else "UNKNOWN"
  | _ => "UNKNOWN"
  end.

(** [raw_json.get(k, "")]. *)
Definition get_default (raw_json : list (string * jval)) (k : string) : jval :=
  match assoc_get raw_json k with Some v => v | None => JStr "" end.

End PolicyNorm.

(* ================================================================== *)
(** ** Base landing loader ([finproduct/02_stg_base.py]) *)

Module BaseLanding.
Import Landing Chunk.

(** A record of [extract_base_records] once [process_one_type] has set its
    [product_type] and [ext_source] keys. *)
Record landing_rec := mk_landing_rec {
  lr_product_type : string;
  lr_ext_source : string;
  lr_record : base_record
}.

Definition BATCH_SIZE : Z := 1000.

Section Process.
Variable sha_norm : list (string * jval) -> string.
Variables product_type ext_source : string.

Definition tag (r : base_record) : landing_rec := mk_landing_rec product_type ext_source r.

(** The [for row in row_iter] loop of [process_one_type]: the state
    [(pages, attempted_rows, records)] and the batches given to
    [wconn.execute(INSERT_SQL, batch)] so far. The generator
    [batched(records, BATCH_SIZE)] reads the list bound when the loop
    starts, so [records = []] in its body does not shorten it; after the
    loop [records] is [[]] when a batch was yielded. *)
Fixpoint page_loop (rows : list (list (string * jval))) (pages attempted : Z)
    (records : list landing_rec) (sent : list (list landing_rec))
    : py_result (Z * Z * list landing_rec * list (list landing_rec)) :=
  match rows with
  | [] => Ok (pages, attempted, records, sent)
  | page_payload :: rest =>
      match extract_base_records sha_norm page_payload with
      | Raise e => Raise e
      | Ok recs =>
          let records1 := (records ++ map tag recs)%list in
          let bs := batched BATCH_SIZE records1 in
          let attempted1 := fold_left (fun a b => a + Z.of_nat (length b)) bs attempted in
          let records2 := match bs with [] => records1 | _ => [] end in
          page_loop rest (pages + 1) attempted1 records2 (sent ++ bs)
      end
  end.

(** [process_one_type(engine, key)] on the payloads [SELECT payload FROM
    raw_table WHERE product_type = :pt] returns: [(pages, attempted_rows)]
    and the executed batches. *)
Definition process_one_type (rows : list (list (string * jval)))
    : py_result (Z * Z * list (list landing_rec)) :=
  match page_loop rows 0 0 [] [] with
  | Raise e => Raise e
  | Ok (pages, attempted, records, sent) =>
      match records with
      | [] => Ok (pages, attempted, sent)
      | _ => Ok (pages, attempted + Z.of_nat (length records), (sent ++ [records])%list)
      end
  end.

(** The records of all pages in order, or the exception of the first page
    whose extraction raises. *)
Fixpoint extract_all (rows : list (list (string * jval))) : py_result (list landing_rec) :=
  match rows with
  | [] => Ok []
  | page_payload :: rest =>
      match extract_base_records sha_norm page_payload with
      | Raise e => Raise e
      | Ok recs =>
          match extract_all rest with
          | Raise e => Raise e
          | Ok more => Ok (map tag recs ++ more)%list
          end
      end
  end.

End Process.

End BaseLanding.

(* ================================================================== *)
(** ** Reading [core.policy] by id *)

Module PolicyCoreLookup.
Import PolicyCore.

(** [SELECT * FROM core.policy WHERE id = k] (first row in table order). *)
Definition find_policy (k : string) (tbl : list policy) : option policy :=
  find (fun r => String.eqb (pol_id r) k) tbl.

(** The [status] column of that row ([None] when there is no row). *)
Definition policy_status_of (o : option policy) : option string :=
  match o with Some r => pol_status r | None => None end.

(** The last item of a list with id [k], starting from [acc]. *)
Definition last_item_from (acc : option normalized) (k : string) (items : list normalized)
    : option normalized :=
  fold_left (fun a it => if String.eqb (n_id it) k then Some it else a) items acc.

Definition last_item (k : string) (items : list normalized) : option normalized :=
  last_item_from None k items.

End PolicyCoreLookup.

(* ================================================================== *)
(** ** Loading RAW pages ([load_raw_pages] and [main] of [policy/02_stg_landing.py]) *)

Module LandingLoad.
Import Landing.

(** A row of [raw.youthpolicy_pages]; [ingested_at] in seconds. *)
Record raw_page := mk_raw_page {
  rp_ingest_id : string;
  rp_page_no : Z;
  rp_payload : list (string * jval);
  rp_ingested_at : Z
}.

(** [p] sorts strictly before [q] under [ORDER BY ingested_at ASC, page_no ASC]. *)
Definition page_before (p q : raw_page) : bool :=
  (rp_ingested_at p <? rp_ingested_at q) ||
  ((rp_ingested_at p =? rp_ingested_at q) && (rp_page_no p <? rp_page_no q)).

Fixpoint insert_page (p : raw_page) (l : list raw_page) : list raw_page :=
  match l with
  | [] => [p]
  | q :: t => if page_before p q then p :: l else q :: insert_page p t
  end.

(** The [ORDER BY]: rows equal on both keys come out in some order. *)
Fixpoint sort_pages (l : list raw_page) : list raw_page :=
  match l with [] => [] | p :: t => insert_page p (sort_pages t) end.

(** The [WHERE] of the four queries: [ingested_at >= now() - interval
    'LOOKBACK_HOURS hours'] when [LOOKBACK_HOURS > 0], and [not exists]
    a landing row with [raw_ingest_id = ingest_id] when
    [PROCESS_ONLY_UNSEEN] is non-zero. *)
Definition page_selected (only_unseen lookback_hours now : Z) (tbl : list policy_landing_row)
    (p : raw_page) : bool :=
  (if 0 <? lookback_hours then now - lookback_hours * 3600 <=? rp_ingested_at p else true) &&
  (if only_unseen =? 0 then true
   else negb (existsb (fun l => String.eqb (pl_raw_ingest_id l) (rp_ingest_id p)) tbl)).

(** [load_raw_pages(conn)]: [(ingest_id, page_no, payload)] rows. *)
Definition load_raw_pages (only_unseen lookback_hours now : Z) (raw : list raw_page)
    (tbl : list policy_landing_row) : list (string * Z * list (string * jval)) :=
  map (fun p => (rp_ingest_id p, rp_page_no p, rp_payload p))
    (sort_pages (filter (page_selected only_unseen lookback_hours now tbl) raw)).

(** [main()]: [bootstrap] creates nothing that holds data; an empty page
    list returns early. *)
Definition landing_main (record_hash : list (string * jval) -> string) (py_repr : jval -> string)
    (only_unseen lookback_hours now : Z) (raw : list raw_page) (tbl : list policy_landing_row)
    : py_result (list policy_landing_row) :=
  match load_raw_pages only_unseen lookback_hours now raw tbl with
  | [] => Ok tbl
  | pages => upsert_landing record_hash py_repr tbl pages
  end.

End LandingLoad.

(* ================================================================== *)
(** ** Eligibility upsert ([sync_policy_eligibility] in [policy/04_stg_to_core.py]) *)

Module PolicyElig.

(** A Python value read by [to_int_or_none]: [None], an [int] (a [bool]
    included), a [str], or a value of another type, given with what
    [int(v)] returns for it ([None] when it raises [TypeError] or
    [ValueError]). *)
Inductive pyval :=
| PyNone
| PyInt (z : Z)
| PyStr (s : string)
| PyOther (conv : option Z).

(** The attributes [sync_policy_eligibility] reads with [getattr(it, ..., None)]. *)
Record elig_item := mk_elig_item {
  ei_id : pyval;
  ei_marital_status : option string;
  ei_age_min : pyval;
  ei_age_max : pyval;
  ei_income_type : option string;
  ei_income_min : pyval;
  ei_income_max : pyval;
  ei_income_text : option string;
  ei_eligibility_additional : option string;
  ei_eligibility_restrictive : option string;
  ei_restrict_education : option bool;
  ei_restrict_major : option bool;
  ei_restrict_job_status : option bool;
  ei_restrict_specialization : option bool
}.

(** A row of [core.policy_eligibility]. *)
Record elig_row := mk_elig_row {
  er_policy_id : Z;
  er_marital_status : option string;
  er_age_min : option Z;
  er_age_max : option Z;
  er_income_type : option string;
  er_income_min : option Z;
  er_income_max : option Z;
  er_income_text : option string;
  er_eligibility_additional : option string;
  er_eligibility_restrictive : option string;
  er_restrict_education : option bool;
  er_restrict_major : option bool;
  er_restrict_job_status : option bool;
  er_restrict_specialization : option bool
}.

Section Elig.
(** [str.strip()] and [int(s)] on a [str] ([None] for the [ValueError]). *)
Variable py_strip : string -> string.
Variable py_int : string -> option Z.

(** [to_int_or_none(v)]. *)
Definition to_int_or_none (v : pyval) : option Z :=
  match v with
  | PyNone => None
  | PyInt z => Some z
  | PyStr s =>
      let s' := py_strip s in
      if String.eqb s' "" then None else py_int s'
  | PyOther conv => conv
  end.

(** The parameter dict of one item. *)
Definition elig_params (pid : Z) (it : elig_item) : elig_row :=
  mk_elig_row pid (ei_marital_status it) (to_int_or_none (ei_age_min it))
    (to_int_or_none (ei_age_max it)) (ei_income_type it)
    (to_int_or_none (ei_income_min it)) (to_int_or_none (ei_income_max it))
    (ei_income_text it) (ei_eligibility_additional it) (ei_eligibility_restrictive it)
    (ei_restrict_education it) (ei_restrict_major it) (ei_restrict_job_status it)
    (ei_restrict_specialization it).

(** [INSERT ... ON CONFLICT (policy_id) DO UPDATE SET] every other column
    [RETURNING (xmax = 0) AS inserted]. *)
Definition upsert_elig (tbl : list elig_row) (r : elig_row) : list elig_row * bool :=
  if existsb (fun x => Z.eqb (er_policy_id x) (er_policy_id r)) tbl
  then (map (fun x => if Z.eqb (er_policy_id x) (er_policy_id r) then r else x) tbl, false)
  else ((tbl ++ [r])%list, true).

(** The [for it in items] loop: the table and [(inserted, updated, skipped)]. *)
Fixpoint elig_loop (tbl : list elig_row) (items : list elig_item)
    : list elig_row * (Z * Z * Z) :=
  match items with
  | [] => (tbl, (0, 0, 0))
  | it :: rest =>
      match to_int_or_none (ei_id it) with
      | None =>
          let '(tbl', (ins, upd, sk)) := elig_loop tbl rest in (tbl', (ins, upd, sk + 1))
      | Some pid =>
          let '(tbl1, was_inserted) := upsert_elig tbl (elig_params pid it) in
          let '(tbl', (ins, upd, sk)) := elig_loop tbl1 rest in
          if was_inserted then (tbl', (ins + 1, upd, sk)) else (tbl', (ins, upd + 1, sk))
      end
  end.

(** [sync_policy_eligibility(conn, items)]: the table and
    [{"inserted": X, "deleted": 0, "unknown": updated + skipped}]. *)
Definition sync_policy_eligibility (tbl : list elig_row) (items : list elig_item)
    : list elig_row * (Z * Z * Z) :=
  let '(tbl', (ins, upd, sk)) := elig_loop tbl items in (tbl', (ins, 0, upd + sk)).

End Elig.

End PolicyElig.

(* ================================================================== *)
(** ** Change detection ([fetch_changed_rows] and [run_etl] in [policy/04_stg_to_core.py]) *)

Module PolicyFetch.
Import Landing PolicyCore PolicyCoreLookup PolicyNorm.

(** A row of [stg.youthpolicy_current]. *)
Record current_row := mk_current_row {
  cr_policy_id : string;
  cr_record_hash : string
}.

(** The columns of [stg.youthpolicy_landing] the query reads. *)
Record landing_ts := mk_landing_ts {
  lt_policy_id : string;
  lt_raw_json : list (string * jval);
  lt_ingested_at : Z
}.

(** [SELECT DISTINCT ON (policy_id) policy_id, raw_json ... ORDER BY
    policy_id, ingested_at DESC] for one [policy_id]: the [raw_json] of a
    row with the latest [ingested_at] (among equal ones, the first
    scanned). *)
Definition latest_raw (landing : list landing_ts) (pid : string) : option (list (string * jval)) :=
  match filter (fun l => String.eqb (lt_policy_id l) pid) landing with
  | [] => None
  | x :: t => Some (lt_raw_json (fold_left (fun b y => if lt_ingested_at b <? lt_ingested_at y
                                                     then y else b) t x))
  end.

(** [fetch_changed_rows(conn)]: [(policy_id, record_hash, raw_json)] for
    each current row with a landing row whose policy is missing from
    [core.policy] or carries another [content_hash]. *)
Definition fetch_changed_rows (cur : list current_row) (landing : list landing_ts)
    (core : list policy) : list (string * string * list (string * jval)) :=
  flat_map (fun c =>
    match latest_raw landing (cr_policy_id c) with
    | None => []                                          (* inner JOIN *)
    | Some raw =>
        match find_policy (cr_policy_id c) core with
        | None => [(cr_policy_id c, cr_record_hash c, raw)]          (* core_p.id IS NULL *)
        | Some p => if String.eqb (cr_record_hash c) (pol_content_hash p) then []
                    else [(cr_policy_id c, cr_record_hash c, raw)]
        end
    end) cur.

Section Normalize.
(** [json.dumps(payload, ensure_ascii=False)] and the text the driver
    binds for a JSON value. *)
Variable json_dumps : list (string * jval) -> string.
Variable as_text : jval -> string.
(** [datetime.strptime] with the formats of [parse_modified_datetime] and
    [parse_date], and [int(s)] on a string: [None] for the [ValueError]. *)
Variables (strptime strptime_date : string -> option Z).
Variable py_int_str : string -> option Z.

(** [parse_modified_datetime(raw_json.get(k))] and
    [parse_modified_datetime(raw_json.get(k, ""))]: a falsy value leaves
    [last_external_modified] unbound; a truthy value that is not a string
    makes [strptime] raise [TypeError], which [except ValueError] lets
    through. *)
Definition parse_modified_datetime_j (v : option jval) : py_result (option Z) :=
  match v with
  | Some (JStr s) => Parse.parse_modified_datetime strptime (Some s)
  | Some x => if truthy x then Raise TypeError else Raise UnboundLocalError
  | None => Raise UnboundLocalError
  end.

(** [parse_date(raw_json.get(k, ""))]. *)
Definition parse_date_j (v : option jval) : py_result (option Z) :=
  match v with
  | Some (JStr s) => Parse.parse_date strptime_date (Some s)
  | Some x => if truthy x then Raise TypeError else Ok None
  | None => Ok None
  end.

(** [int(raw_json.get("inqCnt", 0))]. *)
Definition py_int (v : option jval) : py_result Z :=
  match v with
  | None => Ok 0
  | Some (JStr s) => match py_int_str s with Some n => Ok n | None => Raise ValueError end
  | Some (JBool b) => Ok (if b then 1 else 0)
  | Some _ => Raise TypeError   (* int(None), int([...]), int({...}) *)
  end.

(** [normalize_row(row)]: the statements that can raise, in source order
    ([lastMdfcnDt], [inqCnt], [bizPrdBgngYmd], [bizPrdEndYmd], [frstRegDt]; the
    other helpers return a value on every input), then the fields bound into
    [upsert_policy]'s columns [id], [title], [apply_type], [payload] and
    [content_hash]. *)
Definition normalize_row (row : string * string * list (string * jval)) : py_result normalized :=
  let '(pid, hash, raw_json) := row in
  match parse_modified_datetime_j (assoc_get raw_json "lastMdfcnDt") with
  | Raise e => Raise e
  | Ok _ =>
  match py_int (assoc_get raw_json "inqCnt") with
  | Raise e => Raise e
  | Ok _ =>
  match parse_date_j (assoc_get raw_json "bizPrdBgngYmd") with
  | Raise e => Raise e
  | Ok _ =>
  match parse_date_j (assoc_get raw_json "bizPrdEndYmd") with
  | Raise e => Raise e
  | Ok _ =>
  match parse_modified_datetime_j (assoc_get raw_json "frstRegDt") with
  | Raise e => Raise e
  | Ok _ =>
      Ok (mk_normalized pid (as_text (get_default raw_json "plcyNm"))
            (set_apply_type (get_default raw_json "aplyPrdSeCd")) (json_dumps raw_json) hash)
  end end end end end.

(** [[normalize_row(r) for r in raw_rows]]: the first exception propagates. *)
Fixpoint normalize_all (rows : list (string * string * list (string * jval)))
    : py_result (list normalized) :=
  match rows with
  | [] => Ok []
  | r :: t =>
      match normalize_row r with
      | Raise e => Raise e
      | Ok it => match normalize_all t with
                 | Raise e => Raise e
                 | Ok its => Ok (it :: its)
                 end
      end
  end.

(** Steps 2 to 4 of [run_etl()] on [core.policy]: fetch, normalise (an
    exception ends the run before any write), return early when there is
    nothing, upsert and commit. *)
Definition run_etl_policy (cur : list current_row) (landing : list landing_ts)
    (core : list policy) : py_result (list policy) :=
  match normalize_all (fetch_changed_rows cur landing core) with
  | Raise e => Raise e
  | Ok [] => Ok core
  | Ok items => Ok (upsert_policy core items)
  end.

End Normalize.

End PolicyFetch.

(* ================================================================== *)
(** * Properties *)

(* ================================================================== *)
(** ** List facts *)

Module ListFacts.

Lemma existsb_filter {A} (f : A -> bool) (l : list A) :
  existsb f l = match filter f l with [] => false | _ => true end.
Proof.
  induction l as [|x t IH]; simpl; [reflexivity|].
  destruct (f x); [reflexivity | exact IH].
Qed.

Lemma filter_none {A} (f : A -> bool) (l : list A) :
  (forall x, In x l -> f x = false) -> filter f l = [].
Proof.
  induction l as [|x t IH]; simpl; intros H; [reflexivity|].
  rewrite (H x (or_introl eq_refl)); apply IH; intros y Hy; apply H; right; exact Hy.
Qed.

Lemma length_filter_filter {A} (f g : A -> bool) (l : list A) :
  (length (filter f (filter g l)) <= length (filter f l))%nat.
Proof.
  induction l as [|x t IH]; simpl; [lia|].
  destruct (g x); simpl; destruct (f x); simpl; lia.
Qed.

Lemma nodup_key_count {K A} (eqb : K -> K -> bool) (key : A -> K)
    (eqb_iff : forall a b, eqb a b = true <-> a = b) (l : list A) (k : K) :
  NoDup (map key l) -> (length (filter (fun x => eqb (key x) k) l) <= 1)%nat.
Proof.
  induction l as [|x t IH]; simpl; intros Hnd; [lia|].
  inversion Hnd as [|? ? Hx Hnd']; subst.
  destruct (eqb (key x) k) eqn:E; simpl; [|apply IH; exact Hnd'].
  apply eqb_iff in E; subst k.
  rewrite filter_none; [simpl; lia|].
  intros y Hy; destruct (eqb (key y) (key x)) eqn:E'; [|reflexivity].
  apply eqb_iff in E'; exfalso; apply Hx; rewrite <- E'; apply in_map; exact Hy.
Qed.

Lemma filter_filter_keep {A} (f g : A -> bool) (l : list A) :
  (forall x, In x l -> f x = true -> g x = true) -> filter f (filter g l) = filter f l.
Proof.
  induction l as [|x t IH]; intros H; [reflexivity|]; cbn [filter].
  destruct (f x) eqn:Ef.
  - rewrite (H x (or_introl eq_refl) Ef); cbn [filter]; rewrite Ef, IH; [reflexivity|].
    intros y Hy; apply H; right; exact Hy.
  - destruct (g x); cbn [filter]; rewrite ?Ef; apply IH; intros y Hy; apply H; right; exact Hy.
Qed.



End ListFacts.

(* ================================================================== *)
(** ** Association resync *)

Module AssocProps.
Import Assoc.
Import ListFacts.

Lemma target_pairs_touched (tag_map : string -> option Z) (items : list policy_item) (e : edge) :
  In e (target_pairs tag_map items) -> In (fst e) (touched_ids items).
Proof.
  unfold target_pairs, touched_ids; intros H.
  apply in_flat_map in H as [it [Hit He]]; apply in_flat_map in He as [k [_ Hk]].
  destruct (tag_map k) as [kid|]; [|destruct Hk].
  destruct (Z.eqb kid 0); [destruct Hk|].
  destruct Hk as [<- | []]; cbn [fst]; apply in_map; exact Hit.
Qed.

(** The rows of a policy that is not in the touched set are unchanged. *)
Lemma sync_assoc_frame (tag_map : string -> option Z) (items : list policy_item)
    (tbl : list edge) (p : string) :
  ~ In p (touched_ids items) ->
  rows_of p (fst (fst (sync_assoc tag_map items tbl))) = rows_of p tbl.
Proof.
  intros Hp; destruct items as [|it rest]; [reflexivity|].
  unfold sync_assoc; cbv beta iota zeta; cbn [fst]; unfold rows_of.
  rewrite filter_filter_keep.
  - rewrite filter_app, (filter_none _ (insert_rows _ tbl)), app_nil_r; [reflexivity|].
    intros e He; apply filter_In in He as [He _]; apply target_pairs_touched in He.
    destruct (String.eqb (fst e) p) eqn:E; [|reflexivity].
    apply String.eqb_eq in E; rewrite E in He; contradiction.
  - intros e _ Hf; apply String.eqb_eq in Hf; unfold deleted_by.
    destruct (existsb (String.eqb (fst e)) (touched_ids (it :: rest))) eqn:E; [|reflexivity].
    apply existsb_exists in E as [q [Hq Eq]]; apply String.eqb_eq in Eq.
    exfalso; apply Hp; rewrite <- Hf, Eq; exact Hq.
Qed.

(** C6: the untouched-entity frame holds, and a change of tag list from
    [A,B] to [B,C] inserts [(p, C)] once and deletes [(p, A)] once; but the
    temp pairs are not deduplicated, so when the payload lists [C] twice
    (the tag set is still [{B, C}]) the [INSERT ... SELECT] inserts the pair
    [(p, C)] twice. *)
Theorem sync_assoc_duplicate_tag (tag_map : string -> option Z) (items : list policy_item)
    (tbl : list edge) (p : string) :
  (~ In p (touched_ids items) ->
   rows_of p (fst (fst (sync_assoc tag_map items tbl))) = rows_of p tbl) /\
  sync_assoc abc_map [mk_item "p" ["B"; "C"]] [("p", 1); ("p", 2); ("q", 1)]
    = ([("p", 2); ("q", 1); ("p", 3)], [("p", 3)], [("p", 1)]) /\
  sync_assoc abc_map [mk_item "p" ["B"; "C"; "C"]] [("p", 1); ("p", 2); ("q", 1)]
    = ([("p", 2); ("q", 1); ("p", 3); ("p", 3)], [("p", 3); ("p", 3)], [("p", 1)]).
Proof.
  split; [apply sync_assoc_frame | split; reflexivity].
Qed.

End AssocProps.

(* ================================================================== *)
(** ** The status projector *)

Module StatusProps.
Import Status.

Lemma status_case_ordered (atype : option string) (s e : option Z) (today : Z) :
  ordered_status atype s e today (status_case atype s e today).
Proof.
  unfold ordered_status; split; [|split; [|split]].
  - intros ->; reflexivity.
  - intros ->; reflexivity.
  - intros a b -> -> ->; cbn.
    destruct (Z.leb_spec a today), (Z.leb_spec today b), (Z.ltb_spec today a),
      (Z.ltb_spec b today); cbn; repeat split; intros; first [reflexivity | lia].
  - intros [[-> [-> | ->]] | [H1 [H2 H3]]].
    + reflexivity.
    + destruct s; reflexivity.
    + unfold status_case, sql_eq_text; destruct atype as [t|]; [|reflexivity].
      destruct (String.eqb t "ALWAYS_OPEN") eqn:E1;
        [apply String.eqb_eq in E1; subst; congruence|].
      destruct (String.eqb t "CLOSED") eqn:E2;
        [apply String.eqb_eq in E2; subst; congruence|].
      destruct (String.eqb t "PERIODIC") eqn:E3;
        [apply String.eqb_eq in E3; subst; congruence|].
      reflexivity.
Qed.

(** C5 (counterexample): with an inverted range ([apply_start > apply_end])
    and [today] between the two, both [today < apply_start] and
    [today > apply_end] hold; the projector answers ["UPCOMING"], so the
    clause "['CLOSED'] if [today > apply_end]" fails. *)
Lemma status_inverted_range_counterexample :
  ~ claimed_status (Some "PERIODIC") (Some 20240913) (Some 20240823) 20240901
      (status_case (Some "PERIODIC") (Some 20240913) (Some 20240823) 20240901).
Proof.
  intros [_ [_ [H _]]].
  destruct (H 20240913 20240823 eq_refl eq_refl eq_refl) as [_ [_ Hc]].
  specialize (Hc ltac:(lia)); vm_compute in Hc; discriminate Hc.
Qed.

(** C5 (amended): [update_policy_status] rewrites the [status] of every row,
    leaving its other columns, to the value of the [CASE] on
    [(apply_type, apply_start, apply_end, today)]: ['OPEN'] for
    [ALWAYS_OPEN], ['CLOSED'] for [CLOSED]; for [PERIODIC] with both bounds
    ['OPEN'] when [apply_start <= today <= apply_end], ['UPCOMING'] when
    [today < apply_start], ['CLOSED'] when [apply_start <= today] and
    [today > apply_end]; ['UNKNOWN'] for [PERIODIC] with a missing bound and
    for any other or NULL [apply_type]. *)
Theorem update_policy_status_spec (today : Z) (rows : list policy_row) :
  Forall2 (fun r r' =>
      pr_id r' = pr_id r /\ pr_apply_type r' = pr_apply_type r /\
      pr_apply_start r' = pr_apply_start r /\ pr_apply_end r' = pr_apply_end r /\
      exists st, pr_status r' = Some st /\
        st = status_case (pr_apply_type r) (pr_apply_start r) (pr_apply_end r) today /\
        ordered_status (pr_apply_type r) (pr_apply_start r) (pr_apply_end r) today st)
    rows (update_policy_status today rows).
Proof.
  induction rows as [|r t IH]; constructor; [|exact IH].
  cbn; repeat split; eexists; split; [reflexivity | split; [reflexivity | apply status_case_ordered]].
Qed.

End StatusProps.

(* ================================================================== *)
(** ** Timestamp parsing *)

Module ParseProps.
Import Parse.

(** C10: [parse_modified_datetime] is not total: on [None] (a payload without
    [lastMdfcnDt]) and on the empty string it raises [UnboundLocalError],
    whatever [strptime] does, where its sibling [parse_date] returns [None]. *)
Theorem parse_modified_datetime_falsy_raises (strptime strptime_date : string -> option Z) :
  parse_modified_datetime strptime None = Raise UnboundLocalError /\
  parse_modified_datetime strptime (Some "") = Raise UnboundLocalError /\
  parse_date strptime_date None = Ok None /\
  parse_date strptime_date (Some "") = Ok None.
Proof. repeat split. Qed.

End ParseProps.

(* ================================================================== *)
(** ** Landing normalizers *)

Module LandingProps.
Import Landing.

(** C9: a leaf item with no natural key is dropped by the finance extractor
    but kept by the policy landing transform, which stores it under the
    policy id ["None"] ([str(None)]). *)
Theorem keyless_item_finance_dropped_policy_kept
    (sha_norm record_hash : list (string * jval) -> string) (py_repr : jval -> string) :
  extract_base_records sha_norm
    [("result", JObj [("baseList", JList [JObj [("fin_prdt_nm", JStr "X")]])])] = Ok [] /\
  upsert_landing record_hash py_repr []
    [("ing1", 1, [("result", JObj [("youthPolicyList", JList [JObj [("plcyNm", JStr "X")]])])])]
  = Ok [mk_policy_landing_row "None" (record_hash [("plcyNm", JStr "X")])
          [("plcyNm", JStr "X")] "ing1" 1].
Proof. split; reflexivity. Qed.

End LandingProps.

(** ** The finance reconciler *)

Module FinanceProps.
Import Finance.
Import ListFacts.

(** *** Selection of the rank-1 row of a window *)

Section Window.
Context {K A : Type} (eqb : K -> K -> bool) (key : A -> K).
Hypothesis eqb_iff : forall a b, eqb a b = true <-> a = b.

Lemma rank1_in (before : A -> A -> bool) (l : list A) (x : A) :
  rank1 before l = Some x -> In x l.
Proof.
  revert x; induction l as [|y t IH]; simpl; intros x H; [discriminate|].
  destruct (rank1 before t) as [z|] eqn:E.
  - destruct (before z y); injection H as <-; [right; apply IH; reflexivity | left; reflexivity].
  - injection H as <-; left; reflexivity.
Qed.

Lemma dedup_acc_spec (seen l : list K) :
  NoDup (dedup_acc eqb seen l) /\
  (forall k, In k (dedup_acc eqb seen l) -> ~ In k seen /\ In k l).
Proof.
  revert seen; induction l as [|k t IH]; intros seen; simpl.
  - split; [constructor | tauto].
  - destruct (existsb (eqb k) seen) eqn:E.
    + destruct (IH seen) as [Hn Hi]; split; [exact Hn|].
      intros k' Hk'; destruct (Hi k' Hk'); split; [assumption | right; assumption].
    + destruct (IH (k :: seen)) as [Hn Hi]; split.
      * constructor; [|exact Hn].
        intros Hin; destruct (Hi k Hin) as [Hns _]; apply Hns; left; reflexivity.
      * intros k' [<- | Hk'].
        -- split; [|left; reflexivity].
           intros Hin; assert (existsb (eqb k) seen = true) as E'
             by (apply existsb_exists; exists k; split; [exact Hin | apply eqb_iff; reflexivity]).
           congruence.
        -- destruct (Hi k' Hk') as [Hns Hin]; split; [intros Hs; apply Hns; right; exact Hs
                                                     | right; exact Hin].
Qed.

Lemma window_rank1_in (before : A -> A -> bool) (rows : list A) (r : A) :
  In r (window_rank1 eqb key before rows) -> In r rows.
Proof.
  unfold window_rank1; intros H; apply in_flat_map in H as [k [_ Hk]].
  destruct (rank1 before _) as [x|] eqn:E; [|destruct Hk].
  destruct Hk as [<- | []]; apply rank1_in in E; apply filter_In in E; tauto.
Qed.

Lemma window_rank1_key_nodup (before : A -> A -> bool) (rows : list A) :
  NoDup (map key (window_rank1 eqb key before rows)).
Proof.
  unfold window_rank1.
  assert (Hks := proj1 (dedup_acc_spec [] (map key rows))).
  induction Hks as [|k ks Hk Hks IH]; simpl; [constructor|].
  destruct (rank1 before (filter (fun r => eqb (key r) k) rows)) as [x|] eqn:E; simpl; [|exact IH].
  assert (Hx : key x = k).
  { apply rank1_in, filter_In in E; apply eqb_iff; tauto. }
  constructor; [|exact IH].
  rewrite Hx; intros Hin; apply in_map_iff in Hin as [y [Hy Hin]].
  apply in_flat_map in Hin as [k' [Hk' Hy']].
  destruct (rank1 before (filter (fun r => eqb (key r) k') rows)) as [z|] eqn:E'; [|destruct Hy'].
  destruct Hy' as [<- | []].
  apply rank1_in, filter_In in E'; destruct E' as [_ E']; apply eqb_iff in E'.
  apply Hk; congruence.
Qed.


Lemma find_key_in (cs : list A) (c : A) :
  NoDup (map key cs) -> In c cs -> find (fun c' => eqb (key c') (key c)) cs = Some c.
Proof.
  induction cs as [|x t IH]; simpl; intros Hnd Hin; [destruct Hin|].
  inversion Hnd as [|? ? Hx Hnd']; subst.
  destruct Hin as [<- | Hin].
  - assert (eqb (key x) (key x) = true) as -> by (apply eqb_iff; reflexivity); reflexivity.
  - destruct (eqb (key x) (key c)) eqn:E.
    + apply eqb_iff in E; exfalso; apply Hx; rewrite E; apply in_map; exact Hin.
    + apply IH; assumption.
Qed.





End Window.

Lemma key3_eqb_iff (a b : key3) : key3_eqb a b = true <-> a = b.
Proof.
  destruct a as [[a1 a2] a3], b as [[b1 b2] b3]; simpl.
  rewrite !andb_true_iff, !String.eqb_eq; split.
  - intros [[-> ->] ->]; reflexivity.
  - intros H; injection H as -> -> ->; tauto.
Qed.


(** *** Counting lemmas *)

(** A row map that keeps the natural key and never turns a row current does
    not add current rows for any key. *)
Lemma current_with_key_map_le (f : product -> product) (ps : list product) (k : key3) :
  (forall p, product_key (f p) = product_key p) ->
  (forall p, p_is_current (f p) = true -> p_is_current p = true) ->
  (length (current_with_key k (map f ps)) <= length (current_with_key k ps))%nat.
Proof.
  intros Hk Hc; unfold current_with_key.
  induction ps as [|p t IH]; cbn [map filter length]; [lia|].
  rewrite Hk.
  destruct (p_is_current (f p)) eqn:E.
  - rewrite (Hc p E); cbn [andb]; destruct (key3_eqb (product_key p) k); cbn [length]; lia.
  - cbn [andb]; destruct (p_is_current p && key3_eqb (product_key p) k); cbn [length]; lia.
Qed.

Lemma at_most_one_current_map (f : product -> product) (ps : list product) :
  (forall p, product_key (f p) = product_key p) ->
  (forall p, p_is_current (f p) = true -> p_is_current p = true) ->
  at_most_one_current ps -> at_most_one_current (map f ps).
Proof.
  intros Hk Hc H k; specialize (H k).
  pose proof (current_with_key_map_le f ps k Hk Hc); lia.
Qed.

(** *** The base statements *)

Section BaseSteps.
Variable B : pg_builtins.
Variables (pt : string) (now : Z) (L : list base_landing).

Lemma base_candidates_nodup : NoDup (map base_key (base_candidates B pt L)).
Proof. apply window_rank1_key_nodup, key3_eqb_iff. Qed.

Lemma cand_for_in (c : base_landing) (p : product) :
  In c (base_candidates B pt L) -> base_key c = product_key p ->
  cand_for (base_candidates B pt L) p = Some c.
Proof.
  intros Hin Hk; unfold cand_for; rewrite <- Hk.
  apply (find_key_in key3_eqb base_key key3_eqb_iff); [apply base_candidates_nodup | exact Hin].
Qed.

Lemma base_close_settled (ps : list product) :
  settled (base_candidates B pt L) (base_close B pt now L ps).
Proof.
  intros p c Hp Hcur Hc Hk; unfold base_close in Hp.
  apply in_map_iff in Hp as [q [Hq Hin]].
  destruct (close_target (base_candidates B pt L) q) eqn:E.
  - subst p; discriminate Hcur.
  - subst q; unfold close_target in E; rewrite Hcur, (cand_for_in c p Hc Hk) in E.
    simpl in E; apply String.eqb_eq; destruct (String.eqb _ _); [reflexivity | discriminate].
Qed.

Lemma p_close_key (p : product) : product_key (p_close now p) = product_key p.
Proof. reflexivity. Qed.

Lemma base_close_amoc (ps : list product) :
  at_most_one_current ps -> at_most_one_current (base_close B pt now L ps).
Proof.
  apply at_most_one_current_map.
  - intros p; destruct (close_target _ p); reflexivity.
  - intros p; destruct (close_target _ p); simpl; [discriminate | tauto].
Qed.

Lemma need_insert_settled (ps : list product) (c : base_landing) :
  (forall p, In p ps -> p_is_current p = true -> base_key c = product_key p ->
             p_content_hash p = bl_content_hash c) ->
  need_insert ps c =
  if existsb (fun p => p_is_current p && key3_eqb (product_key p) (base_key c)) ps
  then [] else [c].
Proof.
  intros Hs; unfold need_insert; rewrite existsb_filter.
  destruct (filter _ ps) as [|q t] eqn:F; [reflexivity|].
  rewrite filter_none; [reflexivity|].
  intros x Hx; rewrite <- F in Hx; apply filter_In in Hx as [Hx Hm].
  apply andb_true_iff in Hm as [Hcur Hk]; apply key3_eqb_iff in Hk.
  rewrite (Hs x Hx Hcur (eq_sym Hk)), String.eqb_refl; reflexivity.
Qed.

Lemma flat_map_need_insert (ps : list product) (cs : list base_landing) :
  (forall p c, In p ps -> p_is_current p = true -> In c cs ->
     base_key c = product_key p -> p_content_hash p = bl_content_hash c) ->
  flat_map (need_insert ps) cs =
  filter (fun c => negb (existsb (fun p => p_is_current p && key3_eqb (product_key p) (base_key c)) ps)) cs.
Proof.
  induction cs as [|c t IH]; simpl; intros Hs; [reflexivity|].
  rewrite need_insert_settled by (intros p Hp Hc Hk; apply Hs; auto).
  rewrite IH by (intros p c' Hp Hc Hin Hk; apply Hs; auto).
  destruct (existsb _ ps); reflexivity.
Qed.

Lemma insert_products_count (seq : Z) (cs : list base_landing) (k : key3) :
  length (current_with_key k (fst (insert_products now seq cs))) =
  length (filter (fun c => key3_eqb (base_key c) k) cs).
Proof.
  revert seq; induction cs as [|c t IH]; intros seq; [reflexivity|].
  specialize (IH (seq + 1)); cbn [insert_products].
  destruct (insert_products now (seq + 1) t) as [rest seq'] eqn:E; cbn [fst] in *.
  unfold current_with_key in *; cbn [filter].
  change (p_is_current (new_product seq now c)) with true.
  change (product_key (new_product seq now c)) with (base_key c); cbn [andb].
  destruct (key3_eqb (base_key c) k); cbn [length]; rewrite IH; reflexivity.
Qed.

Lemma current_with_key_app (k : key3) (l1 l2 : list product) :
  length (current_with_key k (l1 ++ l2)) =
  (length (current_with_key k l1) + length (current_with_key k l2))%nat.
Proof. unfold current_with_key; rewrite filter_app, length_app; reflexivity. Qed.

(** [BASE_INSERT_SQL] run on a settled table keeps at most one current row per
    key, and leaves exactly one for every candidate's key. *)
Lemma base_insert_amoc (ps : list product) (seq : Z) :
  at_most_one_current ps -> settled (base_candidates B pt L) ps ->
  at_most_one_current (fst (fst (base_insert B pt now L ps seq))) /\
  (forall c, In c (base_candidates B pt L) ->
     length (current_with_key (base_key c) (fst (fst (base_insert B pt now L ps seq)))) = 1%nat).
Proof.
  intros H Hs; unfold base_insert.
  rewrite (flat_map_need_insert ps) by exact Hs.
  set (cands := base_candidates B pt L) in *.
  set (F := filter _ cands).
  pose proof (insert_products_count seq F) as Hcnt.
  destruct (insert_products now seq F) as [news seq'] eqn:E; cbn [fst] in *.
  assert (HA : forall k, (length (filter (fun c => key3_eqb (base_key c) k) F) <= 1)%nat).
  { intros k; eapply Nat.le_trans; [apply length_filter_filter|].
    apply (nodup_key_count key3_eqb base_key key3_eqb_iff), base_candidates_nodup. }
  assert (HB : forall k, current_with_key k ps <> [] ->
                 filter (fun c => key3_eqb (base_key c) k) F = []).
  { intros k Hne; apply filter_none; intros x Hx.
    destruct (key3_eqb (base_key x) k) eqn:Ek; [|reflexivity].
    apply key3_eqb_iff in Ek; subst k.
    unfold F in Hx; apply filter_In in Hx as [_ Hx].
    rewrite existsb_filter in Hx; fold (current_with_key (base_key x) ps) in Hx.
    destruct (current_with_key (base_key x) ps); [congruence | discriminate]. }
  split.
  - intros k; rewrite current_with_key_app, Hcnt.
    specialize (H k); destruct (current_with_key k ps) as [|q t] eqn:Ek.
    + specialize (HA k); cbn [length Nat.add]; exact HA.
    + rewrite HB by (rewrite Ek; discriminate); cbn [length] in *; lia.
  - intros c Hc; rewrite current_with_key_app, Hcnt.
    specialize (H (base_key c)); specialize (HA (base_key c)).
    destruct (current_with_key (base_key c) ps) as [|q t] eqn:Ek.
    + assert (Hin : In c (filter (fun c' => key3_eqb (base_key c') (base_key c)) F)).
      { apply filter_In; split; [|apply key3_eqb_iff; reflexivity].
        unfold F; apply filter_In; split; [exact Hc|].
        rewrite existsb_filter; fold (current_with_key (base_key c) ps); rewrite Ek; reflexivity. }
      destruct (filter _ F) as [|x [|y u]]; cbn [length Nat.add] in *; [destruct Hin | lia | lia].
    + rewrite HB by (rewrite Ek; discriminate); cbn [length] in *; lia.
Qed.

Lemma base_touch_amoc (ps : list product) :
  at_most_one_current ps -> at_most_one_current (base_touch B pt now L ps).
Proof.
  apply at_most_one_current_map.
  - intros p; destruct (touch_target _ p); reflexivity.
  - intros p; destruct (touch_target _ p); simpl; tauto.
Qed.

Lemma recompute_amoc (os : list product_option) (ps : list product) :
  at_most_one_current ps -> at_most_one_current (recompute_option_set_hash B pt now os ps).
Proof.
  intros H; unfold recompute_option_set_hash, recompute_zero, recompute_agg.
  apply at_most_one_current_map; [intros p; destruct (_ && _ && _); reflexivity
                                 | intros p; destruct (_ && _ && _); simpl; tauto |].
  apply at_most_one_current_map; [| |exact H].
  - intros p; destruct (_ && _); [destruct (live_options os (p_id p))|]; reflexivity.
  - intros p; destruct (_ && _); [destruct (live_options os (p_id p))|]; simpl; tauto.
Qed.

End BaseSteps.

(** C1: starting from a [core.product] with at most one current row per natural
    key, the table has at most one current row per key after [BASE_CLOSE_SQL],
    after [BASE_INSERT_SQL], after [BASE_TOUCH_SQL] and at the end of
    [upsert_for_type]; after the close every remaining current row of a
    candidate's key carries the candidate's hash, and after the insert every
    candidate's key has exactly one current row. *)
Theorem base_single_current (B : pg_builtins) (G : gemini) (pt : string) (skip : bool)
    (now : Z) (L : landing) (s : db) :
  at_most_one_current (products s) ->
  let cands := base_candidates B pt (base_rows L) in
  let ps1 := base_close B pt now (base_rows L) (products s) in
  let ps2 := fst (fst (base_insert B pt now (base_rows L) ps1 (seq_product s))) in
  let ps3 := base_touch B pt now (base_rows L) ps2 in
  at_most_one_current ps1 /\ settled cands ps1 /\
  at_most_one_current ps2 /\
  (forall c, In c cands -> length (current_with_key (base_key c) ps2) = 1%nat) /\
  at_most_one_current ps3 /\
  at_most_one_current (products (fst (upsert_for_type B G pt skip now L s))).
Proof.
  intros H cands ps1 ps2 ps3.
  assert (H1 : at_most_one_current ps1) by (apply base_close_amoc; exact H).
  assert (S1 : settled cands ps1) by apply base_close_settled.
  destruct (base_insert_amoc B pt now (base_rows L) ps1 (seq_product s) H1 S1) as [H2 C2].
  assert (H3 : at_most_one_current ps3) by (apply base_touch_amoc; exact H2).
  repeat split; try assumption.
  unfold upsert_for_type; cbv zeta.
  change (base_close B pt now (base_rows L) (products s)) with ps1.
  assert (E2 : fst (fst (base_insert B pt now (base_rows L) ps1 (seq_product s))) = ps2)
    by reflexivity.
  destruct (base_insert _ _ _ _ _ _) as [[ps2' seqp] ids]; cbn [fst] in E2.
  destruct (option_upsert B pt now (option_rows L) _ (options s) (seq_option s))
    as [[os1 seqo] [[cc ic] tc]].
  destruct (analyze_changed_products G now ids skip _ _) as [[[scs gs] gf] n].
  cbn [fst products]; rewrite E2; apply recompute_amoc; exact H3.
Qed.

Lemma base_single_current_witness :
  at_most_one_current (products sample_history_db) /\
  (let L := sample_history_landing in
   let s := sample_history_db in
   let cands := base_candidates sample_pg "DEPOSIT" (base_rows L) in
   let ps1 := base_close sample_pg "DEPOSIT" 10 (base_rows L) (products s) in
   let ps2 := fst (fst (base_insert sample_pg "DEPOSIT" 10 (base_rows L) ps1 (seq_product s))) in
   let ps3 := base_touch sample_pg "DEPOSIT" 10 (base_rows L) ps2 in
   at_most_one_current ps1 /\ settled cands ps1 /\
   at_most_one_current ps2 /\
   (forall c, In c cands -> length (current_with_key (base_key c) ps2) = 1%nat) /\
   at_most_one_current ps3 /\
   at_most_one_current
     (products (fst (upsert_for_type sample_pg sample_gemini "DEPOSIT" false 10 L s)))) /\
  (* the current [P2] is closed and its new version inserted; [P1] is kept *)
  map (fun p => (p_id p, p_content_hash p, p_is_current p, p_valid_to_ts p))
    (fst (fst (base_insert sample_pg "DEPOSIT" 10 (base_rows sample_history_landing)
                 (base_close sample_pg "DEPOSIT" 10 (base_rows sample_history_landing)
                    (products sample_history_db))
                 (seq_product sample_history_db))))
  = [(1, "h0", false, Some 3); (2, "h1", true, None);
     (3, "g1", false, Some 10); (4, "g2", true, None)].
Proof.
  assert (H : at_most_one_current (products sample_history_db)).
  { intros k; unfold current_with_key;
      cbn [products sample_history_db filter p_is_current andb product_key
           p_product_type p_ext_source p_ext_id].
    unfold product_key; cbn [p_product_type p_ext_source p_ext_id].
    destruct (key3_eqb ("DEPOSIT", "FSS", "P1") k) eqn:E1,
             (key3_eqb ("DEPOSIT", "FSS", "P2") k) eqn:E2; cbn [length]; try lia.
    rewrite key3_eqb_iff in E1, E2; rewrite <- E2 in E1; discriminate E1. }
  split; [exact H|split].
  - exact (base_single_current sample_pg sample_gemini "DEPOSIT" false 10
             sample_history_landing sample_history_db H).
  - vm_compute; reflexivity.
Defined.

(** *** Candidate selection *)

(** C3: [BASE_CLOSE_SQL]/[BASE_INSERT_SQL]/[BASE_TOUCH_SQL] order the window only
    by disclosure month and [run_ts]; two landing rows of one key that tie on
    both are not ordered by content hash, and the rank-1 row is the one
    scanned first, so the candidate depends on ingestion order and can be the
    smaller hash.  The option statement has the hash tie-break. *)
Theorem base_candidate_no_hash_tiebreak (B : pg_builtins) :
  let lo := mk_base_landing 100 "DEPOSIT" "FSS" "P1" [("dcls_month", "202409"); ("mtrt_int", "a")] "aaa" in
  let hi := mk_base_landing 100 "DEPOSIT" "FSS" "P1" [("dcls_month", "202409"); ("mtrt_int", "b")] "bbb" in
  base_candidates B "DEPOSIT" [lo; hi] = [lo] /\
  base_candidates B "DEPOSIT" [hi; lo] = [hi] /\
  (forall x y, oc_month B x = oc_month B y -> ol_run_ts (oc_row x) = ol_run_ts (oc_row y) ->
     opt_before B x y = String.ltb (ol_content_hash (oc_row y)) (ol_content_hash (oc_row x))).
Proof.
  intros lo hi.
  assert (E1 : base_before B hi lo = false)
    by (unfold base_before, base_month, lo, hi; cbn; rewrite Z.ltb_irrefl, Z.eqb_refl; reflexivity).
  assert (E2 : base_before B lo hi = false)
    by (unfold base_before, base_month, lo, hi; cbn; rewrite Z.ltb_irrefl, Z.eqb_refl; reflexivity).
  split; [|split].
  - cbn; rewrite E1; reflexivity.
  - cbn; rewrite E2; reflexivity.
  - intros x y Hm Hr; unfold opt_before; rewrite Hm, Hr, !Z.ltb_irrefl, !Z.eqb_refl.
    reflexivity.
Qed.

(** *** Special-condition classification *)

Lemma analyze_calls_le1 (G : gemini) (s : string) :
  (snd (analyze_special_condition G s) <= 1)%nat.
Proof.
  unfold analyze_special_condition.
  destruct (negb (gemini_ready G)); [cbn; lia|].
  destruct (all_space s); [cbn; lia|].
  destruct (negb (model_init G)); [cbn; lia|].
  destruct (generate_content G _); cbn; lia.
Qed.

Lemma analyze_loop_app (G : gemini) (now : Z) (l1 l2 : list (Z * string)) (tbl : list sc_row) :
  analyze_loop G now (l1 ++ l2) tbl =
  let '(t1, ok1, ko1, c1) := analyze_loop G now l1 tbl in
  let '(t2, ok2, ko2, c2) := analyze_loop G now l2 t1 in
  (t2, (ok1 + ok2)%nat, (ko1 + ko2)%nat, (c1 + c2)%nat).
Proof.
  revert tbl; induction l1 as [|[p0 s0] r IH]; intros tbl.
  - cbn [app analyze_loop].
    destruct (analyze_loop G now l2 tbl) as [[[t ok] ko] c]; reflexivity.
  - cbn [app analyze_loop].
    destruct (analyze_special_condition G s0) as [[c|] n].
    + rewrite IH.
      destruct (analyze_loop G now r _) as [[[t1 ok1] ko1] c1].
      destruct (analyze_loop G now l2 t1) as [[[t2 ok2] ko2] c2].
      rewrite Nat.add_assoc; reflexivity.
    + rewrite IH.
      destruct (analyze_loop G now r tbl) as [[[t1 ok1] ko1] c1].
      destruct (analyze_loop G now l2 t1) as [[[t2 ok2] ko2] c2].
      rewrite Nat.add_assoc; reflexivity.
Qed.

Lemma save_special_condition_other (now : Z) (tbl : list sc_row) (pid0 pid : Z)
    (c : special_condition) :
  pid0 <> pid ->
  filter (fun r => Z.eqb (sc_product_id r) pid) (save_special_condition now tbl pid0 c) =
  filter (fun r => Z.eqb (sc_product_id r) pid) tbl.
Proof.
  intros Hne; unfold save_special_condition.
  assert (Hp : Z.eqb pid0 pid = false) by (apply Z.eqb_neq; exact Hne).
  destruct (existsb _ tbl).
  - induction tbl as [|r t IH]; [reflexivity|]; cbn [map filter].
    destruct (Z.eqb (sc_product_id r) pid0) eqn:E; cbn [sc_product_id].
    + apply Z.eqb_eq in E; rewrite Hp, E, Hp; exact IH.
    + rewrite IH; reflexivity.
  - rewrite filter_app; cbn [filter sc_product_id]; rewrite Hp, app_nil_r; reflexivity.
Qed.


(** C7 (counterexample): with a configured model, the placeholders ["없음"]
    and ["-"] are sent to the model (one call each); with the model not
    configured, blank input is a failure ([None]), not an all-false success. *)
Lemma placeholder_calls_model_counterexample :
  analyze_special_condition sample_gemini "없음" = (Some default_sc, 1%nat) /\
  analyze_special_condition sample_gemini "-" = (Some default_sc, 1%nat) /\
  analyze_special_condition sample_gemini_off "" = (None, 0%nat).
Proof. vm_compute; repeat split. Qed.

(** C7 (amended): with Gemini configured, an input whose UTF-8 text is
    empty or only Python whitespace (the non-ASCII U+00A0 and U+3000
    included) gives the all-false flags with no call; any other input (the
    placeholders ["없음"] and ["-"] included) makes exactly one call once
    [GenerativeModel(...)] is built, and is a failure with no call when that
    constructor raises; with Gemini not configured every input is a failure
    with no call; products whose [spcl_cnd] is NULL or empty are never
    classified. *)
Theorem classifier_blank_short_circuit (G : gemini) (s : string) (ids : list Z)
    (ps : list product) :
  (gemini_ready G = true -> all_space s = true ->
   analyze_special_condition G s = (Some default_sc, 0%nat)) /\
  (gemini_ready G = true -> all_space s = false -> model_init G = true ->
   snd (analyze_special_condition G s) = 1%nat) /\
  (gemini_ready G = true -> all_space s = false -> model_init G = false ->
   analyze_special_condition G s = (None, 0%nat)) /\
  (gemini_ready G = false -> analyze_special_condition G s = (None, 0%nat)) /\
  all_space "없음" = false /\ all_space "-" = false /\
  (* U+3000 and U+00A0 followed by a space *)
  all_space (String "227" (String "128" (String "128" EmptyString))) = true /\
  all_space (String "194" (String "160" " ")) = true /\
  (forall pid t, In (pid, t) (products_to_analyze ids ps) -> t <> "").
Proof.
  unfold analyze_special_condition.
  split; [|split; [|split; [|split; [|split; [|split; [|split; [|split]]]]]]].
  - intros -> ->; reflexivity.
  - intros -> -> ->; cbn; destruct (generate_content G _); reflexivity.
  - intros -> -> ->; reflexivity.
  - intros ->; reflexivity.
  - reflexivity.
  - reflexivity.
  - reflexivity.
  - reflexivity.
  - intros pid t H; unfold products_to_analyze in H.
    apply in_flat_map in H as [p [_ Hp]].
    destruct (_ && _); [|destruct Hp].
    destruct (p_spcl_cnd p) as [u|]; [|destruct Hp].
    destruct (String.eqb u "") eqn:E; [destruct Hp|].
    destruct Hp as [Hp | []]; injection Hp as _ <-.
    intros ->; discriminate E.
Qed.

(** C8 (counterexample): a configured model whose call fails is called once
    (no retry) and nothing is written to [core.product_special_condition]:
    the run reports one failure and the table stays empty. *)
Lemma failed_classification_not_persisted_counterexample :
  analyze_changed_products sample_gemini_failing 7 [1] false [sample_product] []
  = ([], 0%nat, 1%nat, 1%nat).
Proof. vm_compute; reflexivity. Qed.

(** C8 (amended): the loop over the products runs entity by entity (a run
    over [l1 ++ l2] is the run over [l1] continued by the run over [l2] on
    its table, with the counts added).  A failed classification of one
    product ([None]: Gemini not configured, [GenerativeModel(...)] raising,
    the call raising or its answer not parsing) leaves the table as it was
    and only adds one to the failure count; it costs at most one call, with
    no retry, and exactly one when the model is configured and built.  A
    successful one is the single upsert [save_special_condition] keyed by
    [product_id]: it adds one success, every row of that product then carries
    the nine flags of the answer, a row of it exists, and the rows of the
    other products are unchanged. *)
Theorem failed_classification_frame (G : gemini) (now : Z) (l1 l2 : list (Z * string))
    (pid : Z) (s : string) (tbl : list sc_row) :
  analyze_loop G now (l1 ++ l2) tbl =
    (let '(t1, ok1, ko1, c1) := analyze_loop G now l1 tbl in
     let '(t2, ok2, ko2, c2) := analyze_loop G now l2 t1 in
     (t2, (ok1 + ok2)%nat, (ko1 + ko2)%nat, (c1 + c2)%nat)) /\
  (fst (analyze_special_condition G s) = None ->
     analyze_loop G now [(pid, s)] tbl = (tbl, 0%nat, 1%nat, snd (analyze_special_condition G s))) /\
  (snd (analyze_special_condition G s) <= 1)%nat /\
  (fst (analyze_special_condition G s) = None ->
     (snd (analyze_special_condition G s) = 1%nat <-> gemini_ready G = true /\ model_init G = true)) /\
  (forall c, fst (analyze_special_condition G s) = Some c ->
     analyze_loop G now [(pid, s)] tbl =
       (save_special_condition now tbl pid c, 1%nat, 0%nat, snd (analyze_special_condition G s)) /\
     (forall r, In r (save_special_condition now tbl pid c) -> sc_product_id r = pid ->
        sc_flags r = c) /\
     (exists r, In r (save_special_condition now tbl pid c) /\ sc_product_id r = pid) /\
     (forall q, q <> pid ->
        filter (fun r => Z.eqb (sc_product_id r) q) (save_special_condition now tbl pid c) =
        filter (fun r => Z.eqb (sc_product_id r) q) tbl)).
Proof.
  split; [apply analyze_loop_app|].
  split; [|split; [apply analyze_calls_le1|split]].
  - intros Hf; cbn [analyze_loop].
    destruct (analyze_special_condition G s) as [res n]; cbn [fst snd] in *; subst res.
    rewrite Nat.add_0_r; reflexivity.
  - unfold analyze_special_condition.
    destruct (gemini_ready G); cbn [negb].
    + destruct (all_space s); [cbn; discriminate|].
      destruct (model_init G); cbn [negb].
      * destruct (generate_content G _); cbn; intros _; split; auto.
      * cbn; intros _; split; [discriminate | intros [_ H]; discriminate H].
    + cbn; intros _; split; [discriminate | intros [H _]; discriminate H].
  - intros c Hc; split; [|split; [|split]].
    + cbn [analyze_loop].
      destruct (analyze_special_condition G s) as [res n]; cbn [fst snd] in *; subst res.
      rewrite Nat.add_0_r; reflexivity.
    + intros r Hr Hid; unfold save_special_condition in Hr.
      destruct (existsb (fun r => Z.eqb (sc_product_id r) pid) tbl) eqn:Ex.
      * apply in_map_iff in Hr as [q [Hq _]].
        destruct (Z.eqb (sc_product_id q) pid) eqn:E; [subst r; reflexivity|].
        subst r; rewrite Hid, Z.eqb_refl in E; discriminate E.
      * apply in_app_or in Hr as [Hr | [<- | []]]; [|reflexivity].
        assert (Ht : existsb (fun r => Z.eqb (sc_product_id r) pid) tbl = true).
        { apply existsb_exists; exists r; split; [exact Hr | apply Z.eqb_eq; exact Hid]. }
        rewrite Ht in Ex; discriminate Ex.
    + unfold save_special_condition.
      destruct (existsb (fun r => Z.eqb (sc_product_id r) pid) tbl) eqn:Ex.
      * apply existsb_exists in Ex as [q [Hq Hqe]].
        exists (mk_sc_row pid c (sc_created_at q) now); split; [|reflexivity].
        apply in_map_iff; exists q; split; [rewrite Hqe; reflexivity | exact Hq].
      * exists (mk_sc_row pid c now now); split; [|reflexivity].
        apply in_or_app; right; left; reflexivity.
    + intros q Hq; apply save_special_condition_other; congruence.
Qed.

(** *** Idempotence of [upsert_for_type] *)




Lemma p_touch_erase (now : Z) (p : product) : p_erase (p_touch now p) = p_erase p.
Proof. reflexivity. Qed.






Section BaseRuns.
Variable B : pg_builtins.
Variables (pt : string) (now : Z) (L : list base_landing).

Lemma need_insert_only (ps : list product) (c x : base_landing) :
  In x (need_insert ps c) -> x = c.
Proof.
  unfold need_insert; destruct (filter _ ps).
  - intros [<- | []]; reflexivity.
  - intros H; apply in_map_iff in H as [_ [<- _]]; reflexivity.
Qed.

Lemma insert_products_in (seq : Z) (cs : list base_landing) (p : product) :
  In p (fst (insert_products now seq cs)) ->
  exists c, In c cs /\ p_is_current p = true /\ product_key p = base_key c /\
            p_content_hash p = bl_content_hash c.
Proof.
  revert seq; induction cs as [|c t IH]; intros seq; cbn [insert_products]; [intros []|].
  destruct (insert_products now (seq + 1) t) as [rest seq'] eqn:E; cbn [fst]; intros [<- | H].
  - exists c; repeat split; left; reflexivity.
  - specialize (IH (seq + 1)); rewrite E in IH; destruct (IH H) as [c' [H1 H2]].
    exists c'; split; [right; exact H1 | exact H2].
Qed.





End BaseRuns.

Section OptRuns.
Variable B : pg_builtins.
Variables (pt : string) (now : Z) (OL : list option_landing).










End OptRuns.

Section Recompute.
Variable B : pg_builtins.
Variable pt : string.




(** [RECOMPUTE_OPTION_SET_HASH_SQL] row by row. *)
Lemma recompute_rows (now : Z) (os : list product_option) (ps : list product) :
  recompute_option_set_hash B pt now os ps =
  map (fun p =>
    if p_is_current p && String.eqb (p_product_type p) pt
    then p_set_agg (match live_options os (p_id p) with
                    | [] => None
                    | live => Some (options_set_hash B live)
                    end)
                   (Some (Z.of_nat (length (live_options os (p_id p))))) now p
    else p) ps.
Proof.
  unfold recompute_option_set_hash, recompute_zero, recompute_agg; rewrite map_map.
  apply map_ext; intros p.
  destruct (p_is_current p && String.eqb (p_product_type p) pt) eqn:E; [|rewrite E; reflexivity].
  destruct (live_options os (p_id p)) eqn:El.
  - rewrite E, El; reflexivity.
  - cbn [p_is_current p_product_type p_id p_set_agg]; rewrite E, El; reflexivity.
Qed.



End Recompute.

Lemma upsert_for_type_fst (B : pg_builtins) (G : gemini) (pt : string) (skip : bool) (now : Z)
    (L : landing) (s : db) :
  fst (upsert_for_type B G pt skip now L s) =
  let BI := base_insert B pt now (base_rows L) (base_close B pt now (base_rows L) (products s))
              (seq_product s) in
  let PS3 := base_touch B pt now (base_rows L) (fst (fst BI)) in
  let OU := option_upsert B pt now (option_rows L) PS3 (options s) (seq_option s) in
  let PS4 := recompute_option_set_hash B pt now (fst (fst OU)) PS3 in
  mk_db PS4 (fst (fst OU))
    (fst (fst (fst (analyze_changed_products G now (snd BI) skip PS4 (special_conditions s)))))
    (snd (fst BI)) (snd (fst OU)).
Proof.
  unfold upsert_for_type; cbv zeta.
  destruct (base_insert _ _ _ _ _ _) as [[a b] c]; cbn [fst snd].
  destruct (option_upsert _ _ _ _ _ _ _) as [[d e] [[x y] z]]; cbn [fst snd].
  destruct (analyze_changed_products _ _ _ _ _ _) as [[[g h] i] j]; reflexivity.
Qed.


(** *** Peers of [ROW_NUMBER()] under another scan order *)








Section Orders.
Variable B : pg_builtins.









End Orders.









(** *** Version rows are closed, never rewritten *)

Lemma p_content_frame (q p : product) : p_frame q = p_frame p -> p_content q = p_content p.
Proof. destruct q, p; cbn; intros H; injection H; intros; subst; reflexivity. Qed.

Lemma p_frame_valid (q p : product) :
  p_frame q = p_frame p -> p_valid_to_ts q = p_valid_to_ts p /\ p_is_current q = p_is_current p.
Proof. intros H; split; [exact (f_equal p_valid_to_ts H) | exact (f_equal p_is_current H)]. Qed.

Lemma base_touch_closed (B : pg_builtins) (pt : string) (now : Z) (L : list base_landing) :
  exists f, (forall p, p_frame (f p) = p_frame p) /\
    (forall p, p_is_current p = false -> f p = p) /\
    forall ps, base_touch B pt now L ps = map f ps.
Proof.
  eexists; split; [|split; [|intros ps; reflexivity]]; intros p; cbn beta.
  - destruct (touch_target _ p); reflexivity.
  - intros H; unfold touch_target; rewrite H; reflexivity.
Qed.

Lemma recompute_closed (B : pg_builtins) (pt : string) (now : Z) (os : list product_option) :
  exists f, (forall p, p_frame (f p) = p_frame p) /\
    (forall p, p_is_current p = false -> f p = p) /\
    forall ps, recompute_option_set_hash B pt now os ps = map f ps.
Proof.
  eexists; split; [|split; [|intros ps; apply recompute_rows]]; intros p; cbn beta.
  - destruct (p_is_current p && String.eqb (p_product_type p) pt); reflexivity.
  - intros H; rewrite H; reflexivity.
Qed.

Lemma insert_products_fresh (now seq : Z) (cs : list base_landing) (p : product) :
  In p (fst (insert_products now seq cs)) -> p_is_current p = true /\ p_valid_to_ts p = None.
Proof.
  revert seq; induction cs as [|c t IH]; intros seq; cbn [insert_products]; [intros []|].
  destruct (insert_products now (seq + 1) t) as [rest seq'] eqn:E; cbn [fst]; intros [<- | H].
  - split; reflexivity.
  - apply (IH (seq + 1)); rewrite E; exact H.
Qed.

Lemma insert_options_fresh (now seq : Z) (cs : list opt_cand) (o : product_option) :
  In o (fst (insert_options now seq cs)) -> po_is_current o = true /\ po_valid_to_ts o = None.
Proof.
  revert seq; induction cs as [|c t IH]; intros seq; cbn [insert_options]; [intros []|].
  destruct (insert_options now (seq + 1) t) as [rest seq'] eqn:E; cbn [fst]; intros [<- | H].
  - split; reflexivity.
  - apply (IH (seq + 1)); rewrite E; exact H.
Qed.

(** One run on [core.product]: every existing row goes through a map that
    keeps its content, leaves non-current rows alone and keeps a closed row
    non-current; the rows added after them are fresh current versions. *)
Lemma run_products_frame (B : pg_builtins) (G : gemini) (pt : string) (skip : bool) (now : Z)
    (L : landing) (s : db) :
  exists F N,
    products (fst (upsert_for_type B G pt skip now L s)) = (map F (products s) ++ N)%list /\
    (forall p, p_content (F p) = p_content p) /\
    (forall p, p_is_current p = false -> F p = p) /\
    (forall p, (p_valid_to_ts p <> None -> p_is_current p = false) ->
               p_valid_to_ts (F p) <> None -> p_is_current (F p) = false) /\
    (forall p, In p N -> p_is_current p = true /\ p_valid_to_ts p = None).
Proof.
  rewrite upsert_for_type_fst; cbv zeta; cbn [products].
  set (cands := base_candidates B pt (base_rows L)).
  set (C := fun p => if close_target cands p then p_close now p else p).
  assert (Ec : base_close B pt now (base_rows L) (products s) = map C (products s))
    by reflexivity.
  rewrite Ec.
  destruct (insert_products now (seq_product s) (flat_map (need_insert (map C (products s))) cands))
    as [news sq] eqn:Ei.
  assert (Eb : fst (fst (base_insert B pt now (base_rows L) (map C (products s)) (seq_product s)))
               = (map C (products s) ++ news)%list)
    by (unfold base_insert; fold cands; rewrite Ei; reflexivity).
  assert (Hn : forall p, In p news -> p_is_current p = true /\ p_valid_to_ts p = None)
    by (intros p Hp; apply (insert_products_fresh now (seq_product s)
                             (flat_map (need_insert (map C (products s))) cands)); rewrite Ei; exact Hp).
  rewrite Eb.
  destruct (base_touch_closed B pt now (base_rows L)) as [t [Ft [Kt Et]]].
  rewrite !Et.
  set (os1 := fst (fst (option_upsert _ _ _ _ _ _ _))).
  destruct (recompute_closed B pt now os1) as [r [Fr [Kr Er]]].
  rewrite Er, !map_app, !map_map.
  exists (fun p => r (t (C p))), (map (fun p => r (t p)) news).
  assert (Frt : forall p, p_frame (r (t p)) = p_frame p)
    by (intros p; rewrite Fr; apply Ft).
  split; [reflexivity|split; [|split; [|split]]].
  - intros p; rewrite (p_content_frame _ _ (Frt (C p))); unfold C.
    destruct (close_target cands p); reflexivity.
  - intros p H; unfold C, close_target; rewrite H; cbn [andb]; rewrite Kt, Kr; [reflexivity|exact H|exact H].
  - intros p Hinv; destruct (p_frame_valid _ _ (Frt (C p))) as [Hv Hc]; rewrite Hv, Hc; unfold C.
    destruct (close_target cands p); [intros _; reflexivity | exact Hinv].
  - intros q Hq; apply in_map_iff in Hq; destruct Hq as [p [<- Hp]].
    destruct (p_frame_valid _ _ (Frt p)) as [Hv Hc]; rewrite Hv, Hc; exact (Hn p Hp).
Qed.

(** The same on [core.product_option]. *)
Lemma run_options_frame (B : pg_builtins) (G : gemini) (pt : string) (skip : bool) (now : Z)
    (L : landing) (s : db) :
  exists F N,
    options (fst (upsert_for_type B G pt skip now L s)) = (map F (options s) ++ N)%list /\
    (forall o, po_content (F o) = po_content o) /\
    (forall o, po_is_current o = false -> F o = o) /\
    (forall o, (po_valid_to_ts o <> None -> po_is_current o = false) ->
               po_valid_to_ts (F o) <> None -> po_is_current (F o) = false) /\
    (forall o, In o N -> po_is_current o = true /\ po_valid_to_ts o = None).
Proof.
  rewrite upsert_for_type_fst; cbv zeta; cbn [options].
  set (ps3 := base_touch _ _ _ _ _).
  unfold option_upsert.
  set (oc := opt_candidates B pt ps3 (option_rows L)).
  destruct (insert_options now (seq_option s) (flat_map (opt_need_insert B (options s)) oc))
    as [news sq] eqn:Ei; cbn [fst].
  eexists; exists news; split; [reflexivity|split; [|split; [|split]]].
  - intros o; cbn beta; destruct (opt_close_target B oc o); [reflexivity|].
    destruct (opt_touch_target B oc o); reflexivity.
  - intros o H; cbn beta; unfold opt_close_target, opt_touch_target; rewrite H; reflexivity.
  - intros o Hinv; cbn beta; destruct (opt_close_target B oc o); [intros _; reflexivity|].
    destruct (opt_touch_target B oc o); exact Hinv.
  - intros o Ho; apply (insert_options_fresh now (seq_option s)
                          (flat_map (opt_need_insert B (options s)) oc)); rewrite Ei; exact Ho.
Qed.

Lemma upsert_one_overwrites (tbl : list PolicyCore.policy) (it : PolicyCore.normalized)
    (r : PolicyCore.policy) :
  In r tbl -> PolicyCore.pol_id r = PolicyCore.n_id it ->
  In (PolicyCore.mk_policy (PolicyCore.pol_id r) (PolicyCore.n_title it)
        (PolicyCore.n_apply_type it) (PolicyCore.n_payload it) (PolicyCore.n_content_hash it)
        (PolicyCore.pol_status r)) (PolicyCore.upsert_policy tbl [it]) /\
  length (PolicyCore.upsert_policy tbl [it]) = length tbl.
Proof.
  intros Hr Hid; cbn [PolicyCore.upsert_policy fold_left]; unfold PolicyCore.upsert_one.
  assert (Ex : existsb (fun r0 => String.eqb (PolicyCore.pol_id r0) (PolicyCore.n_id it)) tbl = true)
    by (apply existsb_exists; exists r; split; [exact Hr | apply String.eqb_eq; exact Hid]).
  rewrite Ex; split; [|apply length_map].
  apply in_map_iff; exists r; split; [|exact Hr].
  rewrite Hid, String.eqb_refl, <- Hid; reflexivity.
Qed.

(** C4 (corrected): in the finance reconciler, one run of [upsert_for_type]
    keeps every existing row of [core.product] and [core.product_option] at
    its place with its content (id, natural key, payload, content_hash,
    valid_from_ts, created_at) unchanged, leaves every row whose
    [valid_to_ts] is set exactly as it was, and adds new content only as
    fresh current rows after them; closed rows stay non-current. By
    contrast, [core.policy] is not versioned: [upsert_policy] overwrites the
    title, apply_type, payload and content_hash of the row with the same id
    in place, adding no row. *)
Theorem reconciler_history_immutable (B : pg_builtins) (G : gemini) (pt : string) (skip : bool)
    (now : Z) (L : landing) (s : db) :
  closed_consistent s ->
  let s1 := fst (upsert_for_type B G pt skip now L s) in
  closed_consistent s1 /\
  (exists F N, products s1 = (map F (products s) ++ N)%list /\
     (forall p, p_content (F p) = p_content p) /\
     (forall p, In p (products s) -> p_valid_to_ts p <> None -> F p = p) /\
     (forall p, In p N -> p_is_current p = true /\ p_valid_to_ts p = None)) /\
  (exists F N, options s1 = (map F (options s) ++ N)%list /\
     (forall o, po_content (F o) = po_content o) /\
     (forall o, In o (options s) -> po_valid_to_ts o <> None -> F o = o) /\
     (forall o, In o N -> po_is_current o = true /\ po_valid_to_ts o = None)) /\
  (forall tbl it r, In r tbl -> PolicyCore.pol_id r = PolicyCore.n_id it ->
     In (PolicyCore.mk_policy (PolicyCore.pol_id r) (PolicyCore.n_title it)
           (PolicyCore.n_apply_type it) (PolicyCore.n_payload it)
           (PolicyCore.n_content_hash it) (PolicyCore.pol_status r))
        (PolicyCore.upsert_policy tbl [it]) /\
     length (PolicyCore.upsert_policy tbl [it]) = length tbl).
Proof.
  intros [Hp Ho] s1.
  destruct (run_products_frame B G pt skip now L s) as [F [N [EF [Fc [Fk [Fi Fn]]]]]].
  destruct (run_options_frame B G pt skip now L s) as [F' [N' [EF' [Fc' [Fk' [Fi' Fn']]]]]].
  fold s1 in EF, EF'.
  split; [split|split; [|split; [|exact upsert_one_overwrites]]].
  - intros q; rewrite EF; intros Hq; apply in_app_or in Hq; destruct Hq as [Hq|Hq].
    + apply in_map_iff in Hq; destruct Hq as [p [<- Hin]]; apply Fi, Hp, Hin.
    + intros Hv; exfalso; apply Hv, (Fn q Hq).
  - intros q; rewrite EF'; intros Hq; apply in_app_or in Hq; destruct Hq as [Hq|Hq].
    + apply in_map_iff in Hq; destruct Hq as [o [<- Hin]]; apply Fi', Ho, Hin.
    + intros Hv; exfalso; apply Hv, (Fn' q Hq).
  - exists F, N; split; [exact EF|split; [exact Fc|split; [|exact Fn]]].
    intros p Hin Hv; apply Fk, Hp; assumption.
  - exists F', N'; split; [exact EF'|split; [exact Fc'|split; [|exact Fn']]].
    intros o Hin Hv; apply Fk', Ho; assumption.
Qed.

Lemma reconciler_history_immutable_witness :
  closed_consistent sample_history_db /\
  closed_consistent (fst (upsert_for_type sample_pg sample_gemini "DEPOSIT" false 10
                            sample_history_landing sample_history_db)) /\
  (* the closed rows are kept as they were; the current [P2] and the current
     12-month option of [P1] are closed and their new contents appended *)
  map (fun p => (p_id p, p_content_hash p, p_is_current p, p_valid_to_ts p))
    (products (fst (upsert_for_type sample_pg sample_gemini "DEPOSIT" false 10
                      sample_history_landing sample_history_db)))
  = [(1, "h0", false, Some 3); (2, "h1", true, None);
     (3, "g1", false, Some 10); (4, "g2", true, None)] /\
  map (fun o => (po_id o, po_product_id o, po_content_hash o, po_is_current o, po_valid_to_ts o))
    (options (fst (upsert_for_type sample_pg sample_gemini "DEPOSIT" false 10
                     sample_history_landing sample_history_db)))
  = [(1, 2, "o0", false, Some 3); (2, 2, "o1", false, Some 10); (3, 2, "o2", true, None)].
Proof.
  assert (H : closed_consistent sample_history_db).
  { split; cbn [products options sample_history_db]; intros x Hx.
    - destruct Hx as [<-|[<-|[<-|[]]]]; cbn; intros Hv;
        solve [reflexivity | exfalso; apply Hv; reflexivity].
    - destruct Hx as [<-|[<-|[]]]; cbn; intros Hv;
        solve [reflexivity | exfalso; apply Hv; reflexivity]. }
  split; [exact H|split; [|split]].
  - exact (proj1 (reconciler_history_immutable sample_pg sample_gemini "DEPOSIT" false 10
                    sample_history_landing sample_history_db H)).
  - vm_compute; reflexivity.
  - vm_compute; reflexivity.
Defined.

End FinanceProps.

Module PolicyCoreProps.
Import PolicyCore.

(** C4, counterexample: a second load of policy [P1] with a new payload and
    hash rewrites the existing [core.policy] row in place (its status kept)
    instead of closing it and inserting a new version. *)
Lemma policy_upsert_overwrites_counterexample :
  upsert_policy [mk_policy "P1" "t" "PERIODIC" "{a}" "h1" (Some "OPEN")]
                [mk_normalized "P1" "t" "PERIODIC" "{b}" "h2"] =
  [mk_policy "P1" "t" "PERIODIC" "{b}" "h2" (Some "OPEN")].
Proof. reflexivity. Qed.

End PolicyCoreProps.

(* ================================================================== *)
(** ** Batching helpers *)

Module ChunkProps.
Import Chunk.

Lemma chunksf_nil {A} (fuel n : nat) : @chunksf A fuel n [] = [].
Proof. destruct fuel; reflexivity. Qed.

Lemma chunksf_fuel {A} (n : nat) (l : list A) (f g : nat) :
  (1 <= n)%nat -> (length l <= f)%nat -> (length l <= g)%nat -> chunksf f n l = chunksf g n l.
Proof.
  intros Hn; revert l g; induction f as [|f IH]; intros l g Hf Hg.
  - destruct l; [rewrite (chunksf_nil g); reflexivity | cbn in Hf; lia].
  - destruct g as [|g]; [destruct l; [reflexivity | cbn in Hg; lia]|].
    destruct l as [|a t]; [reflexivity|]; cbn [chunksf]; f_equal.
    apply IH; rewrite length_skipn; cbn [length] in *; lia.
Qed.

Lemma chunksf_cons {A} (f n : nat) (l : list A) :
  l <> [] -> chunksf (S f) n l = firstn n l :: chunksf f n (skipn n l).
Proof. destruct l; [intros H; contradiction H; reflexivity | reflexivity]. Qed.

Lemma batched_acc_chunks {A} (n : nat) (buf xs : list A) :
  (1 <= n)%nat -> (length buf < n)%nat ->
  batched_acc (Z.of_nat n) buf xs = chunksf (length (buf ++ xs)) n (buf ++ xs).
Proof.
  intros Hn; revert buf; induction xs as [|x t IH]; intros buf Hb; cbn [batched_acc].
  - rewrite app_nil_r; destruct buf as [|b bs]; [reflexivity|].
    cbn [length chunksf]; rewrite firstn_all2, skipn_all2 by (cbn [length] in *; lia).
    rewrite chunksf_nil; reflexivity.
  - rewrite length_app; cbn [length].
    destruct (Z.of_nat n <=? Z.of_nat (length buf + 1)%nat) eqn:E.
    + apply Z.leb_le in E.
      assert (Hl : (length buf + 1 = n)%nat) by lia.
      rewrite (IH []) by (cbn; lia); cbn [app].
      replace (length (buf ++ x :: t)) with (S (length buf + length t))
        by (rewrite length_app; cbn [length]; lia).
      rewrite chunksf_cons by (destruct buf; discriminate).
      replace (x :: t) with ([x] ++ t)%list by reflexivity.
      rewrite app_assoc, firstn_app, skipn_app, length_app; cbn [length].
      rewrite firstn_all2 by (rewrite length_app; cbn; lia).
      replace (n - (length buf + 1))%nat with O by lia.
      rewrite skipn_all2 by (rewrite length_app; cbn; lia).
      cbn [firstn skipn]; rewrite !app_nil_r, app_nil_l; f_equal; apply chunksf_fuel; lia.
    + apply Z.leb_gt in E.
      rewrite IH by (rewrite length_app; cbn; lia).
      rewrite <- app_assoc; cbn [app]; f_equal; rewrite !length_app; cbn [length]; lia.
Qed.

Lemma range_up_chunks {A} (n : nat) (xs : list A) (fuel k : nat) :
  (1 <= n)%nat ->
  map (fun i => slice xs i (i + Z.of_nat n))
      (range_up fuel (Z.of_nat k) (Z.of_nat (length xs)) (Z.of_nat n)) =
  chunksf fuel n (skipn k xs).
Proof.
  intros Hn; revert k; induction fuel as [|f IH]; intros k; [reflexivity|]; cbn [range_up chunksf].
  destruct (Z.of_nat k <? Z.of_nat (length xs)) eqn:E.
  - apply Z.ltb_lt in E.
    destruct (skipn k xs) as [|a t] eqn:Es.
    + exfalso; assert (H := length_skipn k xs); rewrite Es in H; cbn in H; lia.
    + cbn [map]; rewrite <- Es; f_equal.
      * unfold slice; f_equal; [lia | rewrite Nat2Z.id; reflexivity].
      * rewrite skipn_skipn, <- Nat2Z.inj_add, IH; f_equal; f_equal; lia.
  - apply Z.ltb_ge in E; rewrite skipn_all2 by lia; reflexivity.
Qed.

Lemma chunksf_concat {A} (fuel n : nat) (l : list A) :
  (1 <= n)%nat -> (length l <= fuel)%nat -> concat (chunksf fuel n l) = l.
Proof.
  intros Hn; revert l; induction fuel as [|f IH]; intros l Hl.
  - destruct l; [reflexivity | cbn in Hl; lia].
  - destruct l as [|a t]; [reflexivity|]; cbn [chunksf concat].
    rewrite IH; [apply firstn_skipn | rewrite length_skipn; cbn [length] in *; lia].
Qed.

Lemma chunksf_sizes {A} (fuel n : nat) (l : list A) :
  (1 <= n)%nat ->
  Forall (fun b => b <> [] /\ (length b <= n)%nat) (chunksf fuel n l) /\
  Forall (fun b => length b = n) (removelast (chunksf fuel n l)).
Proof.
  intros Hn; revert l; induction fuel as [|f IH]; intros l; [split; constructor|].
  destruct l as [|a t]; [split; constructor|]; cbn [chunksf].
  destruct (IH (skipn n (a :: t))) as [H1 H2]; split.
  - constructor; [|exact H1]; split.
    + destruct n; [lia|]; discriminate.
    + rewrite length_firstn; lia.
  - destruct (chunksf f n (skipn n (a :: t))) as [|c cs] eqn:Ec; [constructor|].
    change (removelast (firstn n (a :: t) :: c :: cs)) with (firstn n (a :: t) :: removelast (c :: cs)).
    constructor; [|exact H2].
    rewrite length_firstn; apply Nat.min_l.
    destruct (Nat.le_gt_cases n (length (a :: t))) as [Hle|Hgt]; [exact Hle|].
    exfalso; rewrite skipn_all2 in Ec by lia; rewrite chunksf_nil in Ec; discriminate Ec.
Qed.

Lemma batched_spec {A} (size : Z) (xs : list A) :
  1 <= size ->
  concat (batched size xs) = xs /\
  Forall (fun b => b <> [] /\ Z.of_nat (length b) <= size) (batched size xs).
Proof.
  intros Hs.
  assert (Hz : Z.of_nat (Z.to_nat size) = size) by (apply Z2Nat.id; lia).
  assert (Hn : (1 <= Z.to_nat size)%nat) by lia.
  assert (Eb : batched size xs = chunksf (length xs) (Z.to_nat size) xs).
  { unfold batched; rewrite <- Hz at 1.
    apply (batched_acc_chunks (Z.to_nat size) [] xs Hn); cbn; lia. }
  destruct (chunksf_sizes (length xs) (Z.to_nat size) xs Hn) as [S1 _].
  rewrite Eb; split; [apply chunksf_concat; lia|].
  eapply Forall_impl; [|exact S1]; intros b Hb'; cbv beta in Hb'.
  destruct Hb' as [Hb Hl]; split; [exact Hb | lia].
Qed.

(** [batched] / [chunked] with [size >= 1] cut the input into consecutive
    non-empty pieces: their concatenation is the input, and every piece but
    the last holds exactly [size] items (the last at most [size]);
    [_chunked(seq, size)] yields the same pieces. With [size = 0]
    [_chunked] raises, and with a negative size it yields no piece at all. *)
Theorem batching_pieces {A} (size : Z) (xs : list A) :
  1 <= size ->
  concat (batched size xs) = xs /\
  Forall (fun b => b <> [] /\ Z.of_nat (length b) <= size) (batched size xs) /\
  Forall (fun b => Z.of_nat (length b) = size) (removelast (batched size xs)) /\
  chunked size xs = batched size xs /\
  _chunked xs size = Some (batched size xs) /\
  _chunked xs 0 = None /\
  _chunked xs (- size) = Some [].
Proof.
  intros Hs.
  set (n := Z.to_nat size).
  assert (Hz : Z.of_nat n = size) by (unfold n; apply Z2Nat.id; lia).
  assert (Hn : (1 <= n)%nat) by lia.
  assert (Eb : batched size xs = chunksf (length xs) n xs).
  { unfold batched; replace size with (Z.of_nat n) by lia.
    apply (batched_acc_chunks n [] xs Hn); cbn; lia. }
  destruct (chunksf_sizes (length xs) n xs Hn) as [S1 S2].
  rewrite Eb; split; [|split; [|split; [|split; [|split]]]].
  - apply chunksf_concat; lia.
  - eapply Forall_impl; [|exact S1]; intros b Hb'; cbv beta in Hb'; destruct Hb' as [Hb Hl]; split; [exact Hb | lia].
  - eapply Forall_impl; [|exact S2]; intros b Hb; cbv beta in Hb; lia.
  - rewrite <- Eb; reflexivity.
  - unfold _chunked.
    replace (size =? 0) with false by lia; replace (size <? 0) with false by lia.
    f_equal; replace size with (Z.of_nat n) by lia.
    pose proof (range_up_chunks n xs (S (length xs)) 0 Hn) as R; cbn [Z.of_nat skipn] in R.
    rewrite R.
    apply chunksf_fuel; lia.
  - split; [reflexivity|].
    unfold _chunked; replace (- size =? 0) with false by lia;
      replace (- size <? 0) with true by lia; reflexivity.
Qed.

Lemma batching_pieces_witness :
  1 <= 2 /\ concat (batched 2 [1; 2; 3]) = [1; 2; 3].
Proof. split; [lia | exact (proj1 (batching_pieces 2 [1; 2; 3] ltac:(lia)))]. Defined.

End ChunkProps.

(* ================================================================== *)
(** ** Base landing loader *)

Module BaseLandingProps.
Import Landing Chunk BaseLanding ChunkProps.

Lemma fold_lengths (bs : list (list landing_rec)) (a : Z) :
  fold_left (fun a b => a + Z.of_nat (length b)) bs a = a + Z.of_nat (length (concat bs)).
Proof.
  revert a; induction bs as [|b t IH]; intros a; cbn [fold_left concat length].
  - lia.
  - rewrite IH, length_app; lia.
Qed.

Lemma page_loop_spec (sha_norm : list (string * jval) -> string) (pt ext : string)
    (rows : list (list (string * jval))) (p a : Z) (sent : list (list landing_rec)) :
  match extract_all sha_norm pt ext rows with
  | Raise e => page_loop sha_norm pt ext rows p a [] sent = Raise e
  | Ok recs => exists bs,
      page_loop sha_norm pt ext rows p a [] sent =
        Ok (p + Z.of_nat (length rows), a + Z.of_nat (length recs), [], (sent ++ bs)%list) /\
      concat bs = recs /\ Forall (fun b => b <> [] /\ Z.of_nat (length b) <= BATCH_SIZE) bs
  end.
Proof.
  revert p a sent; induction rows as [|row rest IH]; intros p a sent; cbn [extract_all page_loop].
  - exists []; rewrite app_nil_r; split; [cbn [length Z.of_nat]; rewrite !Z.add_0_r; reflexivity | split; constructor].
  - destruct (extract_base_records sha_norm row) as [recs|e]; [|reflexivity].
    cbv zeta; rewrite app_nil_l.
    destruct (batched_spec BATCH_SIZE (map (tag pt ext) recs) ltac:(unfold BATCH_SIZE; lia))
      as [Bc Bf].
    set (bs := batched BATCH_SIZE (map (tag pt ext) recs)) in *.
    assert (R2 : match bs with [] => map (tag pt ext) recs | _ => [] end = []).
    { destruct bs; [exact (eq_sym Bc) | reflexivity]. }
    rewrite R2, fold_lengths.
    specialize (IH (p + 1) (a + Z.of_nat (length (concat bs))) (sent ++ bs)%list).
    destruct (extract_all sha_norm pt ext rest) as [more|e]; [|exact IH].
    destruct IH as [bs' [E1 [E2 E3]]].
    exists (bs ++ bs')%list; split; [|split].
    + rewrite E1, app_assoc, Bc, length_app, length_map; cbn [length].
      replace (p + 1 + Z.of_nat (length rest)) with (p + Z.of_nat (S (length rest))) by lia.
      replace (a + Z.of_nat (length recs) + Z.of_nat (length more))
        with (a + Z.of_nat (length recs + length more)) by lia.
      reflexivity.
    + rewrite concat_app, Bc, E2; reflexivity.
    + apply Forall_app; split; assumption.
Qed.

(** [process_one_type] hands every record extracted from the raw pages to
    [INSERT_SQL] exactly once and in order, in non-empty batches of at most
    [BATCH_SIZE] records; it returns the number of raw pages and, as
    [attempted_rows], the number of records; the final flush after the
    loop never has anything to send. When the extraction of a page raises,
    [process_one_type] raises the same exception. *)
Theorem process_one_type_submits_all (sha_norm : list (string * jval) -> string)
    (pt ext : string) (rows : list (list (string * jval))) :
  (forall recs, extract_all sha_norm pt ext rows = Ok recs ->
     exists sent,
       process_one_type sha_norm pt ext rows =
         Ok (Z.of_nat (length rows), Z.of_nat (length recs), sent) /\
       concat sent = recs /\
       Forall (fun b => b <> [] /\ Z.of_nat (length b) <= BATCH_SIZE) sent) /\
  (forall e, extract_all sha_norm pt ext rows = Raise e ->
     process_one_type sha_norm pt ext rows = Raise e).
Proof.
  pose proof (page_loop_spec sha_norm pt ext rows 0 0 []) as H.
  unfold process_one_type; split.
  - intros recs Er; rewrite Er in H; destruct H as [bs [E1 [E2 E3]]].
    exists bs; rewrite E1; split; [f_equal; f_equal; lia | split; assumption].
  - intros e Er; rewrite Er in H; rewrite H; reflexivity.
Qed.

End BaseLandingProps.

(* ================================================================== *)
(** ** Policy landing table *)

Module LandingTableProps.
Import Landing.

Definition pl_key (r : policy_landing_row) : string * string := (pl_policy_id r, pl_record_hash r).

Lemma landing_exists_key (tbl : list policy_landing_row) (r : policy_landing_row) :
  existsb (fun x => String.eqb (pl_policy_id x) (pl_policy_id r) &&
                    String.eqb (pl_record_hash x) (pl_record_hash r)) tbl = true <->
  In (pl_key r) (map pl_key tbl).
Proof.
  rewrite existsb_exists, in_map_iff; split.
  - intros [x [Hx E]]; apply andb_true_iff in E as [E1 E2].
    apply String.eqb_eq in E1, E2; exists x; split; [unfold pl_key; rewrite E1, E2; reflexivity | exact Hx].
  - intros [x [E Hx]]; exists x; split; [exact Hx|].
    unfold pl_key in E; injection E as E1 E2; rewrite E1, E2, !String.eqb_refl; reflexivity.
Qed.

Lemma insert_landing_spec (tbl : list policy_landing_row) (r : policy_landing_row) :
  (exists suf, insert_landing tbl r = (tbl ++ suf)%list) /\
  In (pl_key r) (map pl_key (insert_landing tbl r)) /\
  (NoDup (map pl_key tbl) -> NoDup (map pl_key (insert_landing tbl r))) /\
  (In (pl_key r) (map pl_key tbl) -> insert_landing tbl r = tbl).
Proof.
  unfold insert_landing.
  destruct (existsb _ tbl) eqn:E.
  - apply landing_exists_key in E.
    split; [exists []; rewrite app_nil_r; reflexivity | split; [exact E | split; auto]].
  - assert (Hn : ~ In (pl_key r) (map pl_key tbl))
      by (intros H; apply landing_exists_key in H; congruence).
    split; [eexists; reflexivity|split; [|split]].
    + rewrite map_app, in_app_iff; right; left; reflexivity.
    + intros Hnd; rewrite map_app; cbn [map].
      apply NoDup_app; [exact Hnd | constructor; [intros []|constructor] |].
      intros x Hx [<-|[]]; contradiction.
    + intros H; contradiction.
Qed.

Lemma fold_insert_spec (rows tbl : list policy_landing_row) :
  (exists suf, fold_left insert_landing rows tbl = (tbl ++ suf)%list) /\
  (forall r, In r rows -> In (pl_key r) (map pl_key (fold_left insert_landing rows tbl))) /\
  (NoDup (map pl_key tbl) -> NoDup (map pl_key (fold_left insert_landing rows tbl))) /\
  ((forall r, In r rows -> In (pl_key r) (map pl_key tbl)) ->
   fold_left insert_landing rows tbl = tbl).
Proof.
  revert tbl; induction rows as [|r t IH]; intros tbl; cbn [fold_left].
  - split; [exists []; rewrite app_nil_r; reflexivity | split; [intros _ []|split; auto]].
  - destruct (insert_landing_spec tbl r) as [[s1 E1] [K1 [N1 F1]]].
    destruct (IH (insert_landing tbl r)) as [[s2 E2] [K2 [N2 F2]]].
    split; [|split; [|split]].
    + exists (s1 ++ s2)%list; rewrite E2, E1, app_assoc; reflexivity.
    + intros x [<-|Hx]; [|apply K2, Hx].
      rewrite E2, map_app, in_app_iff; left; exact K1.
    + intros Hnd; apply N2, N1, Hnd.
    + intros Hall; rewrite F1 by (apply Hall; left; reflexivity).
      rewrite F1 in F2 by (apply Hall; left; reflexivity).
      apply F2; intros x Hx; apply Hall; right; exact Hx.
Qed.

Lemma upsert_landing_prefix (record_hash : list (string * jval) -> string)
    (py_repr : jval -> string) pages (tbl tbl' : list policy_landing_row) :
  upsert_landing record_hash py_repr tbl pages = Ok tbl' ->
  (exists suf, tbl' = (tbl ++ suf)%list) /\
  (NoDup (map pl_key tbl) -> NoDup (map pl_key tbl')) /\
  (forall T, (forall k, In k (map pl_key tbl') -> In k (map pl_key T)) ->
     upsert_landing record_hash py_repr T pages = Ok T).
Proof.
  revert tbl; induction pages as [|[[ing pno] pl] rest IH]; intros tbl; cbn [upsert_landing].
  - intros [= <-]; split; [exists []; rewrite app_nil_r; reflexivity | split; auto].
  - destruct (prepare_page record_hash py_repr ing pno pl) as [rows|e]; [|discriminate].
    intros H; destruct (IH _ H) as [[s2 E2] [N2 F2]].
    destruct (fold_insert_spec rows tbl) as [[s1 E1] [K1 [N1 _]]].
    split; [|split].
    + exists (s1 ++ s2)%list; rewrite E2, E1, app_assoc; reflexivity.
    + intros Hnd; apply N2, N1, Hnd.
    + intros T HT.
      destruct (fold_insert_spec rows T) as [_ [_ [_ FT]]].
      rewrite FT.
      * apply F2, HT.
      * intros r Hr; apply HT; rewrite E2, map_app, in_app_iff; left; apply K1, Hr.
Qed.

(** [upsert_landing] ([insert ... on conflict do nothing] on the primary
    key [(policy_id, record_hash)]) only appends: every row already in
    [stg.youthpolicy_landing] stays, unchanged and in place; it keeps the
    key unique; and running it again on the same RAW pages changes
    nothing. *)
Theorem upsert_landing_append_only_idempotent (record_hash : list (string * jval) -> string)
    (py_repr : jval -> string) pages (tbl tbl' : list policy_landing_row) :
  upsert_landing record_hash py_repr tbl pages = Ok tbl' ->
  (exists suf, tbl' = (tbl ++ suf)%list) /\
  (NoDup (map pl_key tbl) -> NoDup (map pl_key tbl')) /\
  upsert_landing record_hash py_repr tbl' pages = Ok tbl'.
Proof.
  intros H; destruct (upsert_landing_prefix record_hash py_repr pages tbl tbl' H) as [P [N F]].
  split; [exact P | split; [exact N | apply F; auto]].
Qed.

Lemma upsert_landing_append_only_idempotent_witness :
  let pages := [("ing1", 1, [("result", JObj [("youthPolicyList",
                  JList [JObj [("plcyNo", JStr "P1")]; JObj [("plcyNo", JStr "P1")]])])])] in
  upsert_landing (fun _ => "h") (fun _ => "r") [] pages =
    Ok [mk_policy_landing_row "P1" "h" [("plcyNo", JStr "P1")] "ing1" 1] /\
  upsert_landing (fun _ => "h") (fun _ => "r")
    [mk_policy_landing_row "P1" "h" [("plcyNo", JStr "P1")] "ing1" 1] pages =
    Ok [mk_policy_landing_row "P1" "h" [("plcyNo", JStr "P1")] "ing1" 1].
Proof.
  intros pages; assert (H : upsert_landing (fun _ => "h") (fun _ => "r") [] pages =
    Ok [mk_policy_landing_row "P1" "h" [("plcyNo", JStr "P1")] "ing1" 1]) by reflexivity.
  split; [exact H|].
  exact (proj2 (proj2 (upsert_landing_append_only_idempotent _ _ pages _ _ H))).
Defined.

End LandingTableProps.

(* ================================================================== *)
(** ** Policy normalisation helpers *)

Module PolicyNormProps.
Import Landing PolicyNorm.

Definition no_char (c : ascii) (s : string) : Prop := ~ In c (list_ascii_of_string s).

Lemma filter_all_true {A} (f : A -> bool) (l : list A) :
  Forall (fun x => f x = true) l -> filter f l = l.
Proof.
  induction 1 as [|x t Hx _ IH]; cbn [filter]; [reflexivity|].
  rewrite Hx, IH; reflexivity.
Qed.

Lemma py_split_no_char (c : ascii) (s : string) : no_char c s -> py_split c s = [s].
Proof.
  unfold no_char; induction s as [|x t IH]; intros H; [reflexivity|].
  cbn [py_split]; cbn [list_ascii_of_string In] in H.
  rewrite IH by tauto.
  destruct (Ascii.eqb x c) eqn:E; [apply Ascii.eqb_eq in E; tauto | reflexivity].
Qed.

Lemma py_split_app (c : ascii) (a b : string) :
  no_char c a -> py_split c (a ++ String c b) = a :: py_split c b.
Proof.
  unfold no_char; induction a as [|x t IH]; intros H; cbn [append py_split].
  - rewrite Ascii.eqb_refl; reflexivity.
  - cbn [list_ascii_of_string In] in H.
    rewrite IH by tauto.
    destruct (Ascii.eqb x c) eqn:E; [apply Ascii.eqb_eq in E; tauto | reflexivity].
Qed.

Lemma py_split_concat (c : ascii) (toks : list string) :
  Forall (no_char c) toks ->
  py_split c (String.concat (String c EmptyString) toks) =
    match toks with [] => [EmptyString] | _ => toks end.
Proof.
  induction toks as [|t rest IH]; intros H; [reflexivity|].
  inversion H as [|? ? Ht Hr]; subst.
  destruct rest as [|t' rest'].
  - cbn [String.concat]; apply py_split_no_char, Ht.
  - change (String.concat (String c EmptyString) (t :: t' :: rest'))
      with (t ++ String c (String.concat (String c EmptyString) (t' :: rest'))).
    rewrite py_split_app by exact Ht; rewrite IH by exact Hr; reflexivity.
Qed.

(** Round trip of [extract_list_from_payload] on a comma-separated string:
    a field holding [",".join(toks)], with every token non-empty and free
    of commas, is read back as exactly [toks] (in particular [""] gives
    [[]]). *)
Theorem extract_list_join_roundtrip (py_repr : jval -> string)
    (payload : list (string * jval)) (field : string) (toks : list string) :
  assoc_get payload field = Some (JStr (String.concat "," toks)) ->
  Forall (fun t => t <> "" /\ no_char "," t) toks ->
  extract_list_from_payload py_repr payload field = toks.
Proof.
  intros Hg Ht; unfold extract_list_from_payload; rewrite Hg; cbn [py_str].
  rewrite py_split_concat by (eapply Forall_impl; [|exact Ht]; cbv beta; tauto).
  destruct toks as [|t rest]; [reflexivity|].
  apply filter_all_true.
  eapply Forall_impl; [|exact Ht]; cbv beta.
  intros x [Hx _]; destruct (String.eqb x "") eqn:E; [apply String.eqb_eq in E; congruence | reflexivity].
Qed.

Lemma extract_list_join_roundtrip_witness :
  extract_list_from_payload (fun _ => "") [("zipCd", JStr "11110,11140")] "zipCd" =
    ["11110"; "11140"].
Proof.
  apply (extract_list_join_roundtrip (fun _ => "") [("zipCd", JStr "11110,11140")] "zipCd"
           ["11110"; "11140"]).
  - reflexivity.
  - repeat constructor; try discriminate; unfold no_char; cbn; intuition congruence.
Defined.

Lemma parse_period_field_shape (py_strip : string -> string) (strptime_ymd : string -> option Z)
    (v : jval) :
  (exists d0 d1, parse_period_field py_strip strptime_ymd v = (Some d0, Some d1)) \/
  parse_period_field py_strip strptime_ymd v = (None, None).
Proof.
  unfold parse_period_field.
  destruct v as [| |s| |]; try (right; reflexivity).
  destruct (py_split "~" s) as [|p0 [|p1 [|p2 r]]]; try (right; reflexivity).
  destruct (strptime_ymd (py_strip p0)) as [d0|]; [|right; reflexivity].
  destruct (strptime_ymd (py_strip p1)) as [d1|]; [left; eauto | right; reflexivity].
Qed.

Lemma set_apply_type_cases (v : jval) :
  set_apply_type v = "PERIODIC" \/ set_apply_type v = "ALWAYS_OPEN" \/
  set_apply_type v = "CLOSED" \/ set_apply_type v = "UNKNOWN".
Proof.
  unfold set_apply_type; destruct v as [| |s| |]; auto.
  destruct (String.eqb s "0057001"); [auto|].
  destruct (String.eqb s "0057002"); [auto|].
  destruct (String.eqb s "0057003"); auto.
Qed.

(** Round trip of [parse_period_field]: an [aplyYmd] written as
    [a + "~" + b], with no [~] in [a] or [b] and both sides accepted by
    [strptime(..., "%Y%m%d")] after [strip()], is parsed back to the two
    dates. *)
Theorem parse_period_field_roundtrip (py_strip : string -> string)
    (strptime_ymd : string -> option Z) (a b : string) (d0 d1 : Z) :
  no_char "~" a -> no_char "~" b ->
  strptime_ymd (py_strip a) = Some d0 -> strptime_ymd (py_strip b) = Some d1 ->
  parse_period_field py_strip strptime_ymd (JStr (a ++ "~" ++ b)) = (Some d0, Some d1).
Proof.
  intros Ha Hb H0 H1; unfold parse_period_field.
  change (a ++ "~" ++ b) with (a ++ String "~" b).
  rewrite py_split_app by exact Ha; rewrite py_split_no_char by exact Hb.
  rewrite H0, H1; reflexivity.
Qed.

Lemma parse_period_field_roundtrip_witness :
  parse_period_field (fun s => s)
    (fun s => if String.eqb s "20240823" then Some 20240823
              else if String.eqb s "20240913" then Some 20240913 else None)
    (JStr ("20240823" ++ "~" ++ "20240913")) = (Some 20240823, Some 20240913).
Proof.
  apply parse_period_field_roundtrip.
  - unfold no_char; cbn; intuition congruence.
  - unfold no_char; cbn; intuition congruence.
  - reflexivity.
  - reflexivity.
Defined.

(** [normalize_row] fills [apply_type] with [set_apply_type(aplyPrdSeCd)]
    and [(apply_start, apply_end)] with [parse_period_field(aplyYmd)];
    the two dates are both set or both [NULL]; and the status the
    [CASE] of [update_policy_status] then computes is ['UNKNOWN'] exactly
    when the type is ['UNKNOWN'], or ['PERIODIC'] with no parsed period: a
    periodic policy with both dates always gets ['OPEN'], ['UPCOMING'] or
    ['CLOSED']. *)
Theorem normalized_status_unknown_iff (py_strip : string -> string)
    (strptime_ymd : string -> option Z) (raw_json : list (string * jval)) (today : Z) :
  let apply_type := set_apply_type (get_default raw_json "aplyPrdSeCd") in
  let period := parse_period_field py_strip strptime_ymd (get_default raw_json "aplyYmd") in
  (fst period = None <-> snd period = None) /\
  (Status.status_case (Some apply_type) (fst period) (snd period) today = "UNKNOWN" <->
   apply_type = "UNKNOWN" \/ (apply_type = "PERIODIC" /\ fst period = None)).
Proof.
  cbv zeta.
  destruct (parse_period_field_shape py_strip strptime_ymd (get_default raw_json "aplyYmd"))
    as [[d0 [d1 E]]|E]; rewrite E; cbn [fst snd];
  (split; [split; congruence|]);
  destruct (set_apply_type_cases (get_default raw_json "aplyPrdSeCd")) as [A|[A|[A|A]]];
  rewrite A; cbn; try (split; [discriminate|intuition congruence]);
  try (split; [intros _; auto|intros _; reflexivity]).
  destruct (Z.leb_spec d0 today), (Z.leb_spec today d1); cbn;
  try (destruct (Z.ltb_spec today d0)); try (destruct (Z.ltb_spec d1 today)); cbn;
  try (split; [discriminate|intuition congruence]); lia.
Qed.

End PolicyNormProps.

(* ================================================================== *)
(** ** Association syncs: convergence *)

Module AssocSyncProps.
Import Assoc.

Lemma edge_eqb_in (e : edge) (l : list edge) : existsb (edge_eqb e) l = true <-> In e l.
Proof.
  rewrite existsb_exists; split.
  - intros [x [Hx E]]; unfold edge_eqb in E; apply andb_true_iff in E as [E1 E2].
    apply String.eqb_eq in E1; apply Z.eqb_eq in E2.
    destruct e, x; cbn in *; subst; exact Hx.
  - intros H; exists e; split; [exact H|].
    unfold edge_eqb; rewrite String.eqb_refl, Z.eqb_refl; reflexivity.
Qed.

Lemma target_touched (tag_map : string -> option Z) (items : list policy_item) (e : edge) :
  In e (target_pairs tag_map items) -> In (fst e) (touched_ids items).
Proof.
  unfold target_pairs, touched_ids; intros H.
  apply in_flat_map in H as [it [Hit He]]; apply in_flat_map in He as [k [_ Hk]].
  destruct (tag_map k) as [kid|]; [|destruct Hk].
  destruct (Z.eqb kid 0); [destruct Hk|].
  destruct Hk as [<- | []]; cbn [fst]; apply in_map; exact Hit.
Qed.

Lemma deleted_by_iff (ids : list string) (target : list edge) (e : edge) :
  deleted_by ids target e = true <-> In (fst e) ids /\ ~ In e target.
Proof.
  unfold deleted_by; rewrite andb_true_iff, negb_true_iff.
  assert (Hi : existsb (String.eqb (fst e)) ids = true <-> In (fst e) ids).
  { rewrite existsb_exists; split.
    - intros [x [Hx E]]; apply String.eqb_eq in E; subst; exact Hx.
    - intros H; exists (fst e); rewrite String.eqb_refl; auto. }
  rewrite Hi; split.
  - intros [H1 H2]; split; [exact H1|]; intros H; apply edge_eqb_in in H; congruence.
  - intros [H1 H2]; split; [exact H1|].
    destruct (existsb (edge_eqb e) target) eqn:E; [apply edge_eqb_in in E; contradiction|reflexivity].
Qed.

Lemma filter_keeps_all {A} (f : A -> bool) (l : list A) :
  (forall x, In x l -> f x = true) -> filter f l = l.
Proof.
  induction l as [|x t IH]; intros H; cbn [filter]; [reflexivity|].
  rewrite H by (left; reflexivity); rewrite IH by (intros y Hy; apply H; right; exact Hy).
  reflexivity.
Qed.

Lemma filter_drops_all {A} (f : A -> bool) (l : list A) :
  (forall x, In x l -> f x = false) -> filter f l = [].
Proof.
  induction l as [|x t IH]; intros H; cbn [filter]; [reflexivity|].
  rewrite H by (left; reflexivity); apply IH; intros y Hy; apply H; right; exact Hy.
Qed.

(** After one association sync ([sync_policy_keywords],
    [sync_policy_region] and the eligibility syncs): the rows of every
    touched policy are exactly the resolved pairs of the run (as a set),
    the rows of every other policy are those it had before, and a second
    sync with the same items inserts nothing, deletes nothing and leaves
    the table as it is. *)
Theorem sync_assoc_converges (tag_map : string -> option Z) (items : list policy_item)
    (tbl tbl' ins dels : list edge) :
  sync_assoc tag_map items tbl = (tbl', ins, dels) ->
  (forall e, In (fst e) (touched_ids items) ->
     (In e tbl' <-> In e (target_pairs tag_map items))) /\
  (forall e, ~ In (fst e) (touched_ids items) -> (In e tbl' <-> In e tbl)) /\
  sync_assoc tag_map items tbl' = (tbl', [], []).
Proof.
  destruct items as [|it rest].
  { cbn; intros [= <- <- <-]; split; [intros e []|split; [tauto|reflexivity]]. }
  set (items := it :: rest).
  set (target := target_pairs tag_map items).
  set (ids := touched_ids items).
  assert (Es : forall T, sync_assoc tag_map items T =
            (filter (fun pe => negb (deleted_by ids target pe)) (T ++ insert_rows target T)%list,
             insert_rows target T,
             filter (deleted_by ids target) (T ++ insert_rows target T)%list)) by reflexivity.
  rewrite Es; intros H.
  apply pair_equal_spec in H as [H E3]; apply pair_equal_spec in H as [E1 E2].
  assert (Hmem : forall e, In e tbl' <->
            In e (tbl ++ insert_rows target tbl)%list /\ deleted_by ids target e = false).
  { intros e; rewrite <- E1, filter_In, negb_true_iff; tauto. }
  assert (Hins : forall e, In e (insert_rows target tbl) <-> In e target /\ ~ In e tbl).
  { intros e; unfold insert_rows; rewrite filter_In, negb_true_iff; split.
    - intros [H1 H2]; split; [exact H1|]; intros H; apply edge_eqb_in in H; congruence.
    - intros [H1 H2]; split; [exact H1|].
      destruct (existsb (edge_eqb e) tbl) eqn:E; [apply edge_eqb_in in E; contradiction|reflexivity]. }
  assert (Hdel : forall e, deleted_by ids target e = false <-> (In (fst e) ids -> In e target)).
  { intros e; destruct (deleted_by ids target e) eqn:E.
    - apply deleted_by_iff in E; split; [discriminate|tauto].
    - split; [|reflexivity]; intros _ Hi.
      destruct (existsb (edge_eqb e) target) eqn:Ht; [apply edge_eqb_in, Ht|].
      assert (~ In e target) by (intros X; apply edge_eqb_in in X; congruence).
      assert (deleted_by ids target e = true) by (apply deleted_by_iff; tauto); congruence. }
  assert (Htouch : forall e, In (fst e) ids -> (In e tbl' <-> In e target)).
  { intros e Hi; rewrite Hmem, Hdel, in_app_iff, Hins; split; [tauto|].
    intros Ht; split; [|tauto].
    destruct (existsb (edge_eqb e) tbl) eqn:Hb; [left; apply edge_eqb_in, Hb|].
    right; split; [exact Ht|]; intros X; apply edge_eqb_in in X; congruence. }
  split; [exact Htouch|split].
  - intros e Hi; rewrite Hmem, Hdel, in_app_iff, Hins; split.
    + intros [[H|[H _]] _]; [exact H|]; apply (target_touched tag_map items) in H; contradiction.
    + intros H; split; [left; exact H | tauto].
  - assert (I2 : insert_rows target tbl' = []).
    { unfold insert_rows; apply filter_drops_all; intros e He.
      apply negb_false_iff, edge_eqb_in, Htouch; [apply (target_touched tag_map items), He | exact He]. }
    rewrite Es, I2, app_nil_r.
    assert (D2 : forall e, In e tbl' -> deleted_by ids target e = false).
    { intros e He; apply Hmem in He; tauto. }
    rewrite (filter_drops_all (deleted_by ids target) tbl') by exact D2.
    rewrite filter_keeps_all by (intros e He; rewrite D2 by exact He; reflexivity).
    reflexivity.
Qed.

Lemma sync_assoc_converges_witness :
  sync_assoc abc_map [mk_item "p" ["B"; "C"; "C"]] [("p", 1); ("p", 2); ("q", 1)]
    = ([("p", 2); ("q", 1); ("p", 3); ("p", 3)], [("p", 3); ("p", 3)], [("p", 1)]) /\
  sync_assoc abc_map [mk_item "p" ["B"; "C"; "C"]] [("p", 2); ("q", 1); ("p", 3); ("p", 3)]
    = ([("p", 2); ("q", 1); ("p", 3); ("p", 3)], [], []).
Proof.
  assert (H : sync_assoc abc_map [mk_item "p" ["B"; "C"; "C"]] [("p", 1); ("p", 2); ("q", 1)]
    = ([("p", 2); ("q", 1); ("p", 3); ("p", 3)], [("p", 3); ("p", 3)], [("p", 1)])) by reflexivity.
  split; [exact H|].
  exact (proj2 (proj2 (sync_assoc_converges _ _ _ _ _ _ H))).
Defined.

End AssocSyncProps.



(* ================================================================== *)
(** ** Policy upsert *)

Module PolicyUpsertProps.
Import PolicyCore PolicyCoreLookup.

Lemma pol_id_upd (it : normalized) (r : policy) :
  pol_id (if String.eqb (pol_id r) (n_id it)
          then mk_policy (pol_id r) (n_title it) (n_apply_type it) (n_payload it)
                 (n_content_hash it) (pol_status r)
          else r) = pol_id r.
Proof. destruct (String.eqb (pol_id r) (n_id it)); reflexivity. Qed.

Lemma find_policy_none (k : string) (tbl : list policy) :
  find_policy k tbl = None <-> ~ In k (map pol_id tbl).
Proof.
  unfold find_policy; induction tbl as [|r t IH]; cbn [find map In]; [tauto|].
  destruct (String.eqb (pol_id r) k) eqn:E.
  - apply String.eqb_eq in E; split; [discriminate|tauto].
  - apply String.eqb_neq in E; rewrite IH; tauto.
Qed.

Lemma find_policy_id (k : string) (tbl : list policy) (r : policy) :
  find_policy k tbl = Some r -> pol_id r = k.
Proof.
  unfold find_policy; intros H; apply find_some in H as [_ H]; apply String.eqb_eq, H.
Qed.

Lemma find_policy_map_upd (tbl : list policy) (it : normalized) (k : string) :
  find_policy k (map (fun r => if String.eqb (pol_id r) (n_id it)
                     then mk_policy (pol_id r) (n_title it) (n_apply_type it) (n_payload it)
                            (n_content_hash it) (pol_status r)
                     else r) tbl) =
  match find_policy k tbl with
  | Some r => Some (if String.eqb (pol_id r) (n_id it)
                    then mk_policy (pol_id r) (n_title it) (n_apply_type it) (n_payload it)
                           (n_content_hash it) (pol_status r)
                    else r)
  | None => None
  end.
Proof.
  unfold find_policy; induction tbl as [|r t IH]; cbn [map find]; [reflexivity|].
  rewrite pol_id_upd; destruct (String.eqb (pol_id r) k); [reflexivity|exact IH].
Qed.

Lemma find_policy_app (k : string) (l1 l2 : list policy) :
  find_policy k (l1 ++ l2)%list =
  match find_policy k l1 with Some r => Some r | None => find_policy k l2 end.
Proof.
  unfold find_policy; induction l1 as [|r t IH]; cbn [app find]; [reflexivity|].
  destruct (String.eqb (pol_id r) k); [reflexivity|exact IH].
Qed.

Lemma existsb_pol_id (tbl : list policy) (k : string) :
  existsb (fun r => String.eqb (pol_id r) k) tbl = true <-> In k (map pol_id tbl).
Proof.
  rewrite existsb_exists, in_map_iff; split.
  - intros [r [Hr E]]; apply String.eqb_eq in E; eauto.
  - intros [r [E Hr]]; exists r; rewrite E, String.eqb_refl; auto.
Qed.

Lemma upsert_one_find (tbl : list policy) (it : normalized) (k : string) :
  find_policy k (upsert_one tbl it) =
    if String.eqb (n_id it) k
    then Some (mk_policy k (n_title it) (n_apply_type it) (n_payload it) (n_content_hash it)
                 (policy_status_of (find_policy k tbl)))
    else find_policy k tbl.
Proof.
  unfold upsert_one.
  destruct (existsb (fun r => String.eqb (pol_id r) (n_id it)) tbl) eqn:Ex.
  - rewrite find_policy_map_upd.
    destruct (String.eqb (n_id it) k) eqn:Ek.
    + apply String.eqb_eq in Ek; subst k.
      apply existsb_pol_id in Ex.
      destruct (find_policy (n_id it) tbl) as [r|] eqn:Ef.
      * pose proof (find_policy_id _ _ _ Ef) as Hr; rewrite Hr, String.eqb_refl; cbn.
        reflexivity.
      * apply find_policy_none in Ef; contradiction.
    + destruct (find_policy k tbl) as [r|] eqn:Ef; [|reflexivity].
      pose proof (find_policy_id _ _ _ Ef) as Hr.
      assert (E : String.eqb (pol_id r) (n_id it) = false)
        by (rewrite Hr, String.eqb_sym; exact Ek).
      rewrite E; reflexivity.
  - rewrite find_policy_app.
    destruct (String.eqb (n_id it) k) eqn:Ek.
    + apply String.eqb_eq in Ek; subst k.
      assert (Ef : find_policy (n_id it) tbl = None).
      { apply find_policy_none; intros H; apply existsb_pol_id in H; congruence. }
      rewrite Ef; unfold find_policy; cbn; rewrite String.eqb_refl; reflexivity.
    + destruct (find_policy k tbl); [reflexivity|].
      unfold find_policy; cbn; rewrite Ek; reflexivity.
Qed.

Lemma upsert_one_ids (tbl : list policy) (it : normalized) :
  map pol_id (upsert_one tbl it) =
    if existsb (fun r => String.eqb (pol_id r) (n_id it)) tbl then map pol_id tbl
    else (map pol_id tbl ++ [n_id it])%list.
Proof.
  unfold upsert_one; destruct (existsb _ tbl).
  - rewrite map_map; apply map_ext; intros r; apply pol_id_upd.
  - rewrite map_app; reflexivity.
Qed.

Lemma last_item_from_shift (acc : option normalized) (k : string) (items : list normalized) :
  last_item_from acc k items =
  match last_item_from None k items with Some x => Some x | None => acc end.
Proof.
  unfold last_item_from; revert acc; induction items as [|it t IH]; intros acc; cbn [fold_left];
    [reflexivity|].
  rewrite (IH (if String.eqb (n_id it) k then Some it else acc)),
          (IH (if String.eqb (n_id it) k then Some it else None)).
  destruct (fold_left _ t None); [reflexivity|].
  destruct (String.eqb (n_id it) k); reflexivity.
Qed.

Lemma upsert_policy_spec (tbl : list policy) (items : list normalized) (k : string) :
  (exists suf, map pol_id (upsert_policy tbl items) = (map pol_id tbl ++ suf)%list) /\
  (NoDup (map pol_id tbl) -> NoDup (map pol_id (upsert_policy tbl items))) /\
  find_policy k (upsert_policy tbl items) =
    match last_item k items with
    | Some it => Some (mk_policy k (n_title it) (n_apply_type it) (n_payload it)
                        (n_content_hash it) (policy_status_of (find_policy k tbl)))
    | None => find_policy k tbl
    end.
Proof.
  unfold upsert_policy, last_item; revert tbl; induction items as [|it t IH]; intros tbl;
    cbn [fold_left].
  - split; [exists []; rewrite app_nil_r; reflexivity | split; [auto | reflexivity]].
  - destruct (IH (upsert_one tbl it)) as [[suf Hs] [Hn Hf]].
    split; [|split].
    + rewrite Hs, upsert_one_ids.
      destruct (existsb _ tbl); [exists suf; reflexivity|].
      exists (n_id it :: suf); rewrite <- app_assoc; reflexivity.
    + intros Hnd; apply Hn; rewrite upsert_one_ids.
      destruct (existsb _ tbl) eqn:Ex; [exact Hnd|].
      apply NoDup_app; [exact Hnd | repeat constructor; intros [] |].
      intros x Hx [<-|[]]; apply existsb_pol_id in Hx; congruence.
    + unfold last_item_from in *; cbn [fold_left].
      rewrite Hf, upsert_one_find.
      change (fold_left (fun a it0 => if String.eqb (n_id it0) k then Some it0 else a) t
                (if String.eqb (n_id it) k then Some it else None))
        with (last_item_from (if String.eqb (n_id it) k then Some it else None) k t).
      rewrite last_item_from_shift; unfold last_item_from.
      destruct (fold_left _ t None) as [x|].
      * destruct (String.eqb (n_id it) k); reflexivity.
      * destruct (String.eqb (n_id it) k); reflexivity.
Qed.

(** [upsert_policy] ([INSERT ... ON CONFLICT (id) DO UPDATE], once per
    item, in order) never removes a row nor changes the order of the ids
    already in [core.policy] (new ids are appended), keeps [id] unique,
    and afterwards the row of an id carries the fields of the last item
    with that id, with the [status] the row had before ([NULL] for a new
    row); an id that no item names keeps its row as it was. *)
Theorem upsert_policy_last_write_wins (tbl : list policy) (items : list normalized) (k : string) :
  (exists suf, map pol_id (upsert_policy tbl items) = (map pol_id tbl ++ suf)%list) /\
  (NoDup (map pol_id tbl) -> NoDup (map pol_id (upsert_policy tbl items))) /\
  find_policy k (upsert_policy tbl items) =
    match last_item k items with
    | Some it => Some (mk_policy k (n_title it) (n_apply_type it) (n_payload it)
                        (n_content_hash it) (policy_status_of (find_policy k tbl)))
    | None => find_policy k tbl
    end.
Proof. exact (upsert_policy_spec tbl items k). Qed.

End PolicyUpsertProps.

(* ================================================================== *)
(** ** Finance reconciler: partitions, sequences and aggregates *)

Module FinanceExtraProps.
Import Finance FinanceProps.

Lemma filter_map_fixed {A} (P : A -> bool) (f : A -> A) (l : list A) :
  (forall x, P x = true -> f x = x) -> (forall x, P (f x) = true -> P x = true) ->
  filter P (map f l) = filter P l.
Proof.
  intros Hfix Hback; induction l as [|x t IH]; cbn [map filter]; [reflexivity|].
  destruct (P x) eqn:E.
  - rewrite (Hfix x E), E, IH; reflexivity.
  - destruct (P (f x)) eqn:E'; [apply Hback in E'; congruence | exact IH].
Qed.

Lemma cand_for_type (B : pg_builtins) (pt : string) (L : list base_landing) (p : product)
    (c : base_landing) :
  cand_for (base_candidates B pt L) p = Some c -> p_product_type p = pt.
Proof.
  unfold cand_for; intros H; apply find_some in H as [Hin Hk].
  apply key3_eqb_iff in Hk.
  unfold base_candidates in Hin; apply window_rank1_in in Hin; apply filter_In in Hin as [_ E].
  apply String.eqb_eq in E; unfold base_key, product_key in Hk; injection Hk; congruence.
Qed.

Lemma close_target_type (B : pg_builtins) (pt : string) (L : list base_landing) (p : product) :
  close_target (base_candidates B pt L) p = true -> p_product_type p = pt.
Proof.
  unfold close_target; destruct (cand_for _ p) as [c|] eqn:E.
  - intros _; exact (cand_for_type B pt L p c E).
  - rewrite andb_false_r; discriminate.
Qed.

Lemma touch_target_type (B : pg_builtins) (pt : string) (L : list base_landing) (p : product) :
  touch_target (base_candidates B pt L) p = true -> p_product_type p = pt.
Proof.
  unfold touch_target; destruct (cand_for _ p) as [c|] eqn:E.
  - intros _; exact (cand_for_type B pt L p c E).
  - rewrite andb_false_r; discriminate.
Qed.

Lemma new_products_type (B : pg_builtins) (pt : string) (now sq : Z) (L : list base_landing)
    (ps : list product) (p : product) :
  In p (fst (insert_products now sq (flat_map (need_insert ps) (base_candidates B pt L)))) ->
  p_product_type p = pt.
Proof.
  intros H; apply insert_products_in in H as [c [Hc [_ [Hk _]]]].
  apply in_flat_map in Hc as [c0 [Hc0 Hx]]; apply need_insert_only in Hx; subst c0.
  unfold base_candidates in Hc0; apply window_rank1_in in Hc0; apply filter_In in Hc0 as [_ E].
  apply String.eqb_eq in E; unfold base_key, product_key in Hk; injection Hk; congruence.
Qed.

(** [upsert_for_type(conn, pt, ...)] works on one partition: the rows of
    [core.product] of every other [product_type] come out of the run
    exactly as they went in, in the same order, and no row of another
    type is added. *)
Theorem upsert_for_type_isolates_types (B : pg_builtins) (G : gemini) (pt : string)
    (skip : bool) (now : Z) (L : landing) (s : db) :
  filter (fun p => negb (String.eqb (p_product_type p) pt))
    (products (fst (upsert_for_type B G pt skip now L s))) =
  filter (fun p => negb (String.eqb (p_product_type p) pt)) (products s).
Proof.
  set (P := fun p => negb (String.eqb (p_product_type p) pt)).
  assert (HP : forall p, P p = true -> p_product_type p <> pt).
  { intros p H E; unfold P in H; rewrite E, String.eqb_refl in H; discriminate. }
  rewrite upsert_for_type_fst; cbv zeta; cbn [products].
  set (cands := base_candidates B pt (base_rows L)).
  set (C := fun p => if close_target cands p then p_close now p else p).
  assert (Ec : base_close B pt now (base_rows L) (products s) = map C (products s))
    by reflexivity.
  rewrite Ec.
  destruct (insert_products now (seq_product s) (flat_map (need_insert (map C (products s))) cands))
    as [news sq] eqn:Ei.
  assert (Eb : fst (fst (base_insert B pt now (base_rows L) (map C (products s)) (seq_product s)))
               = (map C (products s) ++ news)%list)
    by (unfold base_insert; fold cands; rewrite Ei; reflexivity).
  rewrite Eb.
  set (os1 := fst (fst (option_upsert _ _ _ _ _ _ _))).
  rewrite recompute_rows.
  set (T := fun p => if touch_target cands p then p_touch now p else p).
  change (base_touch B pt now (base_rows L) (map C (products s) ++ news)%list)
    with (map T (map C (products s) ++ news)%list).
  rewrite filter_map_fixed.
  - rewrite filter_map_fixed.
    + rewrite filter_app.
      rewrite (filter_map_fixed P C).
      * rewrite (ListFacts.filter_none P news); [apply app_nil_r|].
        intros p Hp; unfold P.
        assert (Ht : p_product_type p = pt).
        { apply (new_products_type B pt now (seq_product s) (base_rows L) (map C (products s))).
          fold cands; rewrite Ei; exact Hp. }
        rewrite Ht, String.eqb_refl; reflexivity.
      * intros p Hp; unfold C.
        destruct (close_target cands p) eqn:E; [|reflexivity].
        apply close_target_type in E; exfalso; exact (HP p Hp E).
      * intros p; unfold C; destruct (close_target cands p); [destruct p|]; exact (fun h => h).
    + intros p Hp; unfold T.
      destruct (touch_target cands p) eqn:E; [|reflexivity].
      apply touch_target_type in E; exfalso; exact (HP p Hp E).
    + intros p; unfold T; destruct (touch_target cands p); [destruct p|]; exact (fun h => h).
  - intros p Hp; apply HP in Hp.
    destruct (p_is_current p); cbn [andb]; [|reflexivity].
    apply String.eqb_neq in Hp; rewrite Hp; reflexivity.
  - intros p; destruct (p_is_current p && String.eqb (p_product_type p) pt); [destruct p|];
      exact (fun h => h).
Qed.

Lemma seq_ids_shift (sq : Z) (n : nat) :
  map (fun i => sq + Z.of_nat i) (seq 1 n) = map (fun i => (sq + 1) + Z.of_nat i) (seq 0 n).
Proof.
  rewrite <- seq_shift, map_map; apply map_ext; intros i; lia.
Qed.

Lemma insert_products_seq (now sq : Z) (cs : list base_landing) :
  length (fst (insert_products now sq cs)) = length cs /\
  snd (insert_products now sq cs) = sq + Z.of_nat (length cs) /\
  map p_id (fst (insert_products now sq cs)) = map (fun i => sq + Z.of_nat i) (seq 0 (length cs)) /\
  (forall p, In p (fst (insert_products now sq cs)) ->
     exists c id, In c cs /\ p = new_product id now c).
Proof.
  revert sq; induction cs as [|c t IH]; intros sq; cbn [insert_products].
  - split; [reflexivity|split; [cbn; lia|split; [reflexivity|intros p []]]].
  - destruct (IH (sq + 1)) as [H1 [H2 [H3 H4]]].
    destruct (insert_products now (sq + 1) t) as [rest sq']; cbn [fst snd] in *.
    split; [|split; [|split]].
    + cbn [length]; rewrite H1; reflexivity.
    + rewrite H2; cbn [length]; lia.
    + cbn [map length seq]; rewrite H3, seq_ids_shift; cbn [new_product p_id].
      f_equal; lia.
    + intros p [<-|Hp]; [exists c, sq; split; [left|]; reflexivity|].
      destruct (H4 p Hp) as [c' [id [Hc' E]]]; exists c', id; split; [right|]; assumption.
Qed.

Lemma insert_options_seq (now sq : Z) (cs : list opt_cand) :
  length (fst (insert_options now sq cs)) = length cs /\
  snd (insert_options now sq cs) = sq + Z.of_nat (length cs) /\
  map po_id (fst (insert_options now sq cs)) = map (fun i => sq + Z.of_nat i) (seq 0 (length cs)).
Proof.
  revert sq; induction cs as [|c t IH]; intros sq; cbn [insert_options].
  - split; [reflexivity|split; [cbn; lia|reflexivity]].
  - destruct (IH (sq + 1)) as [H1 [H2 H3]].
    destruct (insert_options now (sq + 1) t) as [rest sq']; cbn [fst snd] in *.
    split; [|split].
    + cbn [length]; rewrite H1; reflexivity.
    + rewrite H2; cbn [length]; lia.
    + cbn [map length seq]; rewrite H3, seq_ids_shift; cbn [new_option po_id].
      f_equal; lia.
Qed.

(** [BASE_INSERT_SQL] only appends: the rows already in [core.product]
    stay as they are; the new rows take consecutive ids from the sequence
    ([seq], [seq + 1], ...), which advances by their number, and the ids
    returned are theirs; each new row is a current version of the
    partition, opened at [now()] and not closed. *)
Theorem base_insert_sequence (B : pg_builtins) (pt : string) (now : Z) (L : list base_landing)
    (ps : list product) (sq : Z) :
  let r := base_insert B pt now L ps sq in
  exists news,
    fst (fst r) = (ps ++ news)%list /\
    snd r = map p_id news /\
    snd (fst r) = sq + Z.of_nat (length news) /\
    map p_id news = map (fun i => sq + Z.of_nat i) (seq 0 (length news)) /\
    Forall (fun p => p_is_current p = true /\ p_valid_from_ts p = now /\
                     p_valid_to_ts p = None /\ p_product_type p = pt) news.
Proof.
  cbv zeta; unfold base_insert.
  set (cs := flat_map (need_insert ps) (base_candidates B pt L)).
  destruct (insert_products_seq now sq cs) as [H1 [H2 [H3 H4]]].
  pose proof (new_products_type B pt now sq L ps) as Ht; fold cs in Ht.
  destruct (insert_products now sq cs) as [news sq'] eqn:E; cbn [fst snd] in *.
  exists news; split; [reflexivity|split; [reflexivity|split; [rewrite H2, H1; reflexivity|split]]].
  - rewrite H3, H1; reflexivity.
  - apply Forall_forall; intros p Hp.
    pose proof (Ht p Hp) as Hpt.
    destruct (H4 p Hp) as [c [id [_ ->]]].
    split; [reflexivity|split; [reflexivity|split; [reflexivity|exact Hpt]]].
Qed.

Lemma length_filter_disjoint {A} (f g : A -> bool) (l : list A) :
  (forall x, f x = true -> g x = false) ->
  (length (filter f l) + length (filter g l) <= length l)%nat.
Proof.
  intros Hd; induction l as [|x t IH]; cbn [filter length]; [lia|].
  destruct (f x) eqn:Ef; [rewrite (Hd x Ef)|destruct (g x)]; cbn [length]; lia.
Qed.

(** [OPTION_UPSERT_SQL] never deletes a row of [core.product_option] and
    never changes an existing row's [id]; the [inserted] count is the
    number of rows added after them, which take consecutive ids from the
    sequence while it advances by that count; a row is never both closed
    and touched, so [closed_cnt + touched_cnt] is at most the number of
    rows before the statement. *)
Theorem option_upsert_counts (B : pg_builtins) (pt : string) (now : Z)
    (OL : list option_landing) (ps : list product) (os : list product_option) (sq : Z) :
  let r := option_upsert B pt now OL ps os sq in
  let closed_cnt := fst (fst (snd r)) in
  let inserted_cnt := snd (fst (snd r)) in
  let touched_cnt := snd (snd r) in
  exists upd news,
    fst (fst r) = (upd ++ news)%list /\
    map po_id upd = map po_id os /\
    inserted_cnt = Z.of_nat (length news) /\
    snd (fst r) = sq + inserted_cnt /\
    map po_id news = map (fun i => sq + Z.of_nat i) (seq 0 (length news)) /\
    0 <= closed_cnt /\ 0 <= touched_cnt /\
    closed_cnt + touched_cnt <= Z.of_nat (length os).
Proof.
  cbv zeta; unfold option_upsert.
  set (cands := opt_candidates B pt ps OL).
  set (cs := flat_map (opt_need_insert B os) cands).
  destruct (insert_options_seq now sq cs) as [H1 [H2 H3]].
  destruct (insert_options now sq cs) as [news sq'] eqn:E; cbn [fst snd] in *.
  eexists; exists news; split; [reflexivity|split; [|split; [reflexivity|split; [|split; [|split; [lia|split; [lia|]]]]]]].
  - rewrite map_map; apply map_ext; intros o.
    destruct (opt_close_target B cands o); [destruct o; reflexivity|].
    destruct (opt_touch_target B cands o); [destruct o|]; reflexivity.
  - rewrite H2, H1; reflexivity.
  - rewrite H3, H1; reflexivity.
  - rewrite <- Nat2Z.inj_add; apply Nat2Z.inj_le, length_filter_disjoint.
    intros o; unfold opt_close_target, opt_touch_target.
    destruct (po_is_current o); cbn [andb]; [|discriminate].
    destruct (oc_for B cands o) as [c|]; [|discriminate].
    destruct (String.eqb _ _); cbn; congruence.
Qed.

(** After [RECOMPUTE_OPTION_SET_HASH_SQL] (its two [UPDATE]s in order),
    every current product of the partition has [options_count] set to the
    number of its current options and [options_set_hash] set to the hash
    of their lines, [NULL] exactly when there is none: the second
    statement never undoes the first. Every other row is left as it was,
    and no row is added or removed. *)
Theorem recompute_option_set_hash_sets_aggregates (B : pg_builtins) (pt : string) (now : Z)
    (os : list product_option) (ps : list product) :
  let ps' := recompute_option_set_hash B pt now os ps in
  length ps' = length ps /\
  (forall p, In p ps' -> p_is_current p = true -> p_product_type p = pt ->
     p_options_count p = Some (Z.of_nat (length (live_options os (p_id p)))) /\
     p_options_set_hash p = match live_options os (p_id p) with
                            | [] => None
                            | live => Some (options_set_hash B live)
                            end) /\
  filter (fun p => negb (p_is_current p && String.eqb (p_product_type p) pt)) ps' =
  filter (fun p => negb (p_is_current p && String.eqb (p_product_type p) pt)) ps.
Proof.
  cbv zeta; rewrite recompute_rows; split; [|split].
  - apply length_map.
  - intros q Hq Hc Ht; apply in_map_iff in Hq as [p [<- Hp]].
    destruct (p_is_current p && String.eqb (p_product_type p) pt) eqn:E.
    + split; reflexivity.
    + rewrite Hc, Ht, String.eqb_refl in E; discriminate.
  - apply filter_map_fixed.
    + intros p H; apply negb_true_iff in H; rewrite H; reflexivity.
    + intros p; destruct (p_is_current p && String.eqb (p_product_type p) pt) eqn:E;
        [|intros _; reflexivity].
      destruct p; cbn in *; rewrite E; discriminate.
Qed.




End FinanceExtraProps.

(* ================================================================== *)
(** ** Landing transform, run after run *)

Module LandingLoadProps.
Import Landing LandingLoad LandingTableProps.

Lemma insert_page_in (p x : raw_page) (l : list raw_page) :
  In x (insert_page p l) <-> x = p \/ In x l.
Proof.
  induction l as [|q t IH]; cbn [insert_page]; [cbn; intuition congruence|].
  destruct (page_before p q); cbn [In]; [intuition congruence|].
  rewrite IH; intuition congruence.
Qed.

Lemma sort_pages_in (x : raw_page) (l : list raw_page) : In x (sort_pages l) <-> In x l.
Proof.
  induction l as [|p t IH]; cbn [sort_pages]; [reflexivity|].
  rewrite insert_page_in, IH; cbn [In]; intuition congruence.
Qed.

Lemma upsert_landing_pages_done (record_hash : list (string * jval) -> string)
    (py_repr : jval -> string) pages (tbl tbl' : list policy_landing_row) :
  upsert_landing record_hash py_repr tbl pages = Ok tbl' ->
  forall i n pl, In (i, n, pl) pages ->
    exists rows, prepare_page record_hash py_repr i n pl = Ok rows /\
                 forall r, In r rows -> In (pl_key r) (map pl_key tbl').
Proof.
  revert tbl; induction pages as [|[[ing pno] pload] rest IH]; intros tbl H i n pl Hin;
    [destruct Hin|].
  cbn [upsert_landing] in H.
  destruct (prepare_page record_hash py_repr ing pno pload) as [rows|e] eqn:Ep; [|discriminate].
  destruct Hin as [Heq|Hin]; [|exact (IH _ H i n pl Hin)].
  injection Heq as <- <- <-.
  exists rows; split; [exact Ep|].
  destruct (upsert_landing_prefix record_hash py_repr rest _ _ H) as [[suf ->] _].
  destruct (fold_insert_spec rows tbl) as [_ [K _]].
  intros r Hr; rewrite map_app, in_app_iff; left; apply K, Hr.
Qed.

Lemma upsert_landing_noop (record_hash : list (string * jval) -> string)
    (py_repr : jval -> string) pages (T : list policy_landing_row) :
  (forall i n pl, In (i, n, pl) pages ->
     exists rows, prepare_page record_hash py_repr i n pl = Ok rows /\
                  forall r, In r rows -> In (pl_key r) (map pl_key T)) ->
  upsert_landing record_hash py_repr T pages = Ok T.
Proof.
  induction pages as [|[[ing pno] pload] rest IH]; intros H; [reflexivity|].
  cbn [upsert_landing].
  destruct (H ing pno pload (or_introl eq_refl)) as [rows [Ep Hk]]; rewrite Ep.
  destruct (fold_insert_spec rows T) as [_ [_ [_ F]]]; rewrite (F Hk).
  apply IH; intros i n pl Hin; apply H; right; exact Hin.
Qed.

Lemma page_selected_mono (only_unseen lookback_hours now now' : Z)
    (tbl suf : list policy_landing_row) (p : raw_page) :
  now <= now' ->
  page_selected only_unseen lookback_hours now' (tbl ++ suf)%list p = true ->
  page_selected only_unseen lookback_hours now tbl p = true.
Proof.
  unfold page_selected; intros Hn H; apply andb_true_iff in H as [H1 H2].
  apply andb_true_iff; split.
  - destruct (0 <? lookback_hours); [|reflexivity].
    apply Z.leb_le in H1; apply Z.leb_le; lia.
  - destruct (only_unseen =? 0); [reflexivity|].
    rewrite existsb_app in H2; apply negb_true_iff, orb_false_iff in H2 as [H2 _].
    rewrite H2; reflexivity.
Qed.

(** The landing transform ([main]: [load_raw_pages] then [upsert_landing])
    only appends to [stg.youthpolicy_landing], and running it again later
    (same [LOOKBACK_HOURS] and [PROCESS_ONLY_UNSEEN], no new RAW page)
    changes nothing: the pages it loads the second time were all loaded
    the first time, and their rows are already there. *)
Theorem landing_main_rerun_noop (record_hash : list (string * jval) -> string)
    (py_repr : jval -> string) (only_unseen lookback_hours now now' : Z)
    (raw : list raw_page) (tbl tbl' : list policy_landing_row) :
  now <= now' ->
  landing_main record_hash py_repr only_unseen lookback_hours now raw tbl = Ok tbl' ->
  (exists suf, tbl' = (tbl ++ suf)%list) /\
  landing_main record_hash py_repr only_unseen lookback_hours now' raw tbl' = Ok tbl'.
Proof.
  intros Hn H.
  assert (F : (exists suf, tbl' = (tbl ++ suf)%list) /\
              forall i n pl, In (i, n, pl) (load_raw_pages only_unseen lookback_hours now raw tbl) ->
                exists rows, prepare_page record_hash py_repr i n pl = Ok rows /\
                             forall r, In r rows -> In (pl_key r) (map pl_key tbl')).
  { unfold landing_main in H.
    destruct (load_raw_pages only_unseen lookback_hours now raw tbl) as [|pg pgs] eqn:E.
    - injection H as <-; split; [exists []; rewrite app_nil_r; reflexivity | intros i n pl []].
    - split; [exact (proj1 (upsert_landing_prefix record_hash py_repr _ _ _ H))|].
      exact (upsert_landing_pages_done record_hash py_repr _ _ _ H). }
  destruct F as [[suf Hs] Hdone]; split; [exists suf; exact Hs|].
  assert (Hsub : forall x, In x (load_raw_pages only_unseen lookback_hours now' raw tbl') ->
                           In x (load_raw_pages only_unseen lookback_hours now raw tbl)).
  { unfold load_raw_pages; intros x Hx; apply in_map_iff in Hx as [p [<- Hp]].
    apply (in_map (fun p => (rp_ingest_id p, rp_page_no p, rp_payload p))).
    rewrite sort_pages_in in Hp; rewrite sort_pages_in.
    apply filter_In in Hp as [Hp Hsel]; apply filter_In; split; [exact Hp|].
    rewrite Hs in Hsel; exact (page_selected_mono _ _ _ _ _ _ _ Hn Hsel). }
  unfold landing_main.
  destruct (load_raw_pages only_unseen lookback_hours now' raw tbl') as [|pg pgs] eqn:E2;
    [reflexivity|].
  apply upsert_landing_noop; intros i n pl Hin; apply Hdone, Hsub; exact Hin.
Qed.

Lemma landing_main_rerun_noop_witness :
  let raw := [mk_raw_page "ing1" 1 [("result", JObj [("youthPolicyList",
                 JList [JObj [("plcyNo", JStr "P1")]])])] 100] in
  landing_main (fun _ => "h") (fun _ => "r") 1 0 200 raw [] =
    Ok [mk_policy_landing_row "P1" "h" [("plcyNo", JStr "P1")] "ing1" 1] /\
  landing_main (fun _ => "h") (fun _ => "r") 1 0 300 raw
    [mk_policy_landing_row "P1" "h" [("plcyNo", JStr "P1")] "ing1" 1] =
    Ok [mk_policy_landing_row "P1" "h" [("plcyNo", JStr "P1")] "ing1" 1].
Proof.
  intros raw.
  assert (H : landing_main (fun _ => "h") (fun _ => "r") 1 0 200 raw [] =
    Ok [mk_policy_landing_row "P1" "h" [("plcyNo", JStr "P1")] "ing1" 1]) by reflexivity.
  split; [exact H|].
  exact (proj2 (landing_main_rerun_noop _ _ 1 0 200 300 raw _ _ ltac:(lia) H)).
Defined.

End LandingLoadProps.

(* ================================================================== *)
(** ** Eligibility upsert *)

Module PolicyEligProps.
Import PolicyElig.

Lemma upsert_elig_spec (tbl : list elig_row) (r : elig_row) :
  let u := upsert_elig tbl r in
  (if snd u then map er_policy_id (fst u) = (map er_policy_id tbl ++ [er_policy_id r])%list
   else map er_policy_id (fst u) = map er_policy_id tbl) /\
  (NoDup (map er_policy_id tbl) -> NoDup (map er_policy_id (fst u))).
Proof.
  cbv zeta; unfold upsert_elig.
  destruct (existsb (fun x => Z.eqb (er_policy_id x) (er_policy_id r)) tbl) eqn:Ex; cbn [fst snd].
  - assert (E : map er_policy_id (map (fun x => if Z.eqb (er_policy_id x) (er_policy_id r) then r else x) tbl)
                = map er_policy_id tbl).
    { rewrite map_map; apply map_ext; intros x.
      destruct (Z.eqb (er_policy_id x) (er_policy_id r)) eqn:E; [apply Z.eqb_eq in E; auto|reflexivity]. }
    rewrite E; split; [reflexivity|auto].
  - rewrite map_app; split; [reflexivity|].
    intros Hnd; apply NoDup_app; [exact Hnd | repeat constructor; intros [] |].
    intros x Hx [<-|[]]; apply in_map_iff in Hx as [y [Ey Hy]].
    assert (existsb (fun x => Z.eqb (er_policy_id x) (er_policy_id r)) tbl = true)
      by (apply existsb_exists; exists y; rewrite Ey, Z.eqb_refl; auto).
    congruence.
Qed.

Lemma elig_loop_spec (py_strip : string -> string) (py_int : string -> option Z)
    (tbl : list elig_row) (items : list elig_item) :
  let r := elig_loop py_strip py_int tbl items in
  let ins := fst (fst (snd r)) in
  let upd := snd (fst (snd r)) in
  let sk := snd (snd r) in
  0 <= ins /\ 0 <= upd /\ 0 <= sk /\
  ins + upd + sk = Z.of_nat (length items) /\
  (exists suf, map er_policy_id (fst r) = (map er_policy_id tbl ++ suf)%list /\
               Z.of_nat (length suf) = ins) /\
  (NoDup (map er_policy_id tbl) -> NoDup (map er_policy_id (fst r))).
Proof.
  cbv zeta; revert tbl; induction items as [|it rest IH]; intros tbl; cbn [elig_loop].
  - cbn [fst snd length]; split; [lia|split; [lia|split; [lia|split; [lia|split]]]];
      [exists []; rewrite app_nil_r; split; reflexivity | auto].
  - destruct (to_int_or_none py_strip py_int (ei_id it)) as [pid|].
    + pose proof (upsert_elig_spec tbl (elig_params py_strip py_int pid it)) as U; cbv zeta in U.
      destruct (upsert_elig tbl (elig_params py_strip py_int pid it)) as [tbl1 b].
      cbn [fst snd] in U; destruct U as [Uids Und].
      destruct (IH tbl1) as [P1 [P2 [P3 [P4 [[suf [Hs Hl]] Hn]]]]].
      destruct (elig_loop py_strip py_int tbl1 rest) as [tbl' [[ins upd] sk]].
      cbn [fst snd length] in *.
      destruct b; cbn [fst snd].
      * split; [lia|split; [lia|split; [lia|split; [lia|split]]]].
        -- exists (er_policy_id (elig_params py_strip py_int pid it) :: suf).
           rewrite Hs, Uids, <- app_assoc; cbn [app length]; split; [reflexivity|lia].
        -- intros Hnd; apply Hn, Und, Hnd.
      * split; [lia|split; [lia|split; [lia|split; [lia|split]]]].
        -- exists suf; rewrite Hs, Uids; split; [reflexivity|exact Hl].
        -- intros Hnd; apply Hn, Und, Hnd.
    + destruct (IH tbl) as [P1 [P2 [P3 [P4 [[suf [Hs Hl]] Hn]]]]].
      destruct (elig_loop py_strip py_int tbl rest) as [tbl' [[ins upd] sk]].
      cbn [fst snd length] in *.
      split; [lia|split; [lia|split; [lia|split; [lia|split]]]];
        [exists suf; split; assumption | exact Hn].
Qed.

(** [sync_policy_eligibility] never deletes ([deleted] is always 0) and
    accounts for every item: [inserted + unknown] is the number of items.
    Existing rows keep their place, [inserted] is exactly the number of
    rows added, and [policy_id] stays unique. *)
Theorem sync_policy_eligibility_accounting (py_strip : string -> string)
    (py_int : string -> option Z) (tbl : list elig_row) (items : list elig_item) :
  let r := sync_policy_eligibility py_strip py_int tbl items in
  let inserted := fst (fst (snd r)) in
  let deleted := snd (fst (snd r)) in
  let unknown := snd (snd r) in
  deleted = 0 /\
  inserted + unknown = Z.of_nat (length items) /\
  (exists suf, map er_policy_id (fst r) = (map er_policy_id tbl ++ suf)%list /\
               Z.of_nat (length suf) = inserted) /\
  (NoDup (map er_policy_id tbl) -> NoDup (map er_policy_id (fst r))).
Proof.
  cbv zeta; unfold sync_policy_eligibility.
  pose proof (elig_loop_spec py_strip py_int tbl items) as S; cbv zeta in S.
  destruct (elig_loop py_strip py_int tbl items) as [tbl' [[ins upd] sk]].
  cbn [fst snd] in *.
  destruct S as [P1 [P2 [P3 [P4 [Hs Hn]]]]].
  split; [reflexivity|split; [lia|split; [exact Hs|exact Hn]]].
Qed.

End PolicyEligProps.

(* ================================================================== *)
(** ** Change detection after one ETL run *)

Module PolicyFetchProps.
Import Landing PolicyCore PolicyCoreLookup PolicyFetch PolicyUpsertProps.

Lemma flat_map_all_nil {A B} (f : A -> list B) (l : list A) :
  (forall x, In x l -> f x = []) -> flat_map f l = [].
Proof.
  induction l as [|x t IH]; intros H; cbn [flat_map]; [reflexivity|].
  rewrite (H x (or_introl eq_refl)), IH; [reflexivity|intros y Hy; apply H; right; exact Hy].
Qed.

Lemma nodup_map_inj {A K} (f : A -> K) (l : list A) (x y : A) :
  NoDup (map f l) -> In x l -> In y l -> f x = f y -> x = y.
Proof.
  induction l as [|a t IH]; intros Hnd Hx Hy E; [destruct Hx|].
  cbn [map] in Hnd; inversion Hnd as [|? ? Hn Hnd']; subst.
  destruct Hx as [<-|Hx], Hy as [<-|Hy]; [reflexivity| | |exact (IH Hnd' Hx Hy E)].
  - exfalso; apply Hn; rewrite E; apply in_map, Hy.
  - exfalso; apply Hn; rewrite <- E; apply in_map, Hx.
Qed.

Lemma fetch_changed_rows_from (cur : list current_row) (landing : list landing_ts)
    (core : list policy) (row : string * string * list (string * jval)) :
  In row (fetch_changed_rows cur landing core) ->
  exists c, In c cur /\ fst (fst row) = cr_policy_id c /\ snd (fst row) = cr_record_hash c.
Proof.
  unfold fetch_changed_rows; intros H; apply in_flat_map in H as [c [Hc Hr]].
  exists c; split; [exact Hc|].
  destruct (latest_raw landing (cr_policy_id c)) as [raw|]; [|destruct Hr].
  destruct (find_policy (cr_policy_id c) core) as [p|];
    [destruct (String.eqb (cr_record_hash c) (pol_content_hash p)); [destruct Hr|]|];
    destruct Hr as [<-|[]]; split; reflexivity.
Qed.

Lemma fetch_changed_rows_to (cur : list current_row) (landing : list landing_ts)
    (core : list policy) (c : current_row) (raw : list (string * jval)) :
  In c cur -> latest_raw landing (cr_policy_id c) = Some raw ->
  match find_policy (cr_policy_id c) core with
  | None => True
  | Some p => String.eqb (cr_record_hash c) (pol_content_hash p) = false
  end ->
  In (cr_policy_id c, cr_record_hash c, raw) (fetch_changed_rows cur landing core).
Proof.
  intros Hc Hl Hf; unfold fetch_changed_rows; apply in_flat_map; exists c; split; [exact Hc|].
  rewrite Hl; destruct (find_policy (cr_policy_id c) core) as [p|]; [rewrite Hf|]; left; reflexivity.
Qed.

Lemma last_item_from_in (acc : option normalized) (k : string) (items : list normalized)
    (it : normalized) :
  last_item_from acc k items = Some it ->
  acc = Some it \/ (In it items /\ n_id it = k).
Proof.
  unfold last_item_from; revert acc; induction items as [|x t IH]; intros acc H; cbn [fold_left] in H;
    [left; exact H|].
  destruct (IH _ H) as [E|[Hin Hk]]; [|right; split; [right; exact Hin|exact Hk]].
  destruct (String.eqb (n_id x) k) eqn:Ek; [|left; exact E].
  injection E as ->; right; split; [left; reflexivity|apply String.eqb_eq, Ek].
Qed.

Lemma last_item_from_some (acc : option normalized) (k : string) (items : list normalized)
    (it : normalized) :
  In it items -> n_id it = k -> last_item_from acc k items <> None.
Proof.
  unfold last_item_from; revert acc; induction items as [|x t IH]; intros acc Hin Hk; [destruct Hin|].
  cbn [fold_left].
  destruct Hin as [<-|Hin]; [|apply IH; assumption].
  rewrite Hk, String.eqb_refl.
  assert (G : forall l a, a <> None ->
            fold_left (fun a it0 => if String.eqb (n_id it0) k then Some it0 else a) l a <> None).
  { induction l as [|y l IHl]; intros a Ha; cbn [fold_left]; [exact Ha|].
    apply IHl; destruct (String.eqb (n_id y) k); [discriminate|exact Ha]. }
  apply G; discriminate.
Qed.

Section NormalizeOk.
Variable json_dumps : list (string * jval) -> string.
Variable as_text : jval -> string.
Variables (strptime strptime_date : string -> option Z).
Variable py_int_str : string -> option Z.

Lemma normalize_row_ok (row : string * string * list (string * jval)) (it : normalized) :
  normalize_row json_dumps as_text strptime strptime_date py_int_str row = Ok it ->
  n_id it = fst (fst row) /\ n_content_hash it = snd (fst row).
Proof.
  destruct row as [[pid h] raw]; unfold normalize_row.
  repeat match goal with
         | |- match ?m with Ok _ => _ | Raise _ => _ end = Ok _ -> _ =>
             destruct m; [|intros Hr; discriminate Hr]
         end.
  intros E; injection E as <-; split; reflexivity.
Qed.

Lemma normalize_all_ok (rows : list (string * string * list (string * jval)))
    (items : list normalized) :
  normalize_all json_dumps as_text strptime strptime_date py_int_str rows = Ok items ->
  (forall it, In it items -> exists r, In r rows /\
     normalize_row json_dumps as_text strptime strptime_date py_int_str r = Ok it) /\
  (forall r, In r rows -> exists it, In it items /\
     normalize_row json_dumps as_text strptime strptime_date py_int_str r = Ok it) /\
  (items = [] -> rows = []).
Proof.
  revert items; induction rows as [|r t IH]; intros items H; cbn [normalize_all] in H.
  - injection H as <-; split; [intros it []|split; [intros r []|reflexivity]].
  - destruct (normalize_row json_dumps as_text strptime strptime_date py_int_str r)
      as [it|e] eqn:Er; [|discriminate H].
    destruct (normalize_all json_dumps as_text strptime strptime_date py_int_str t)
      as [its|e] eqn:Et; [|discriminate H].
    injection H as <-.
    destruct (IH its eq_refl) as [Hf [Ht _]].
    split; [|split; [|discriminate]].
    + intros x [<-|Hx]; [exists r; split; [left; reflexivity|exact Er]|].
      destruct (Hf x Hx) as [r' [Hr' E']]; exists r'; split; [right; exact Hr'|exact E'].
    + intros x [<-|Hx]; [exists it; split; [left; reflexivity|exact Er]|].
      destruct (Ht x Hx) as [i' [Hi' E']]; exists i'; split; [right; exact Hi'|exact E'].
Qed.

End NormalizeOk.

(** [fetch_changed_rows] and [upsert_policy] agree on what counts as a
    change: when [stg.youthpolicy_current] has one row per policy and
    [run_etl()] completes (no [normalize_row] raised) after fetching the
    changed policies and upserting them (with [content_hash = record_hash]),
    fetching again returns nothing. *)
Theorem run_etl_change_detection_fixpoint (json_dumps : list (string * jval) -> string)
    (as_text : jval -> string) (strptime strptime_date py_int_str : string -> option Z)
    (cur : list current_row) (landing : list landing_ts) (core core' : list policy) :
  NoDup (map cr_policy_id cur) ->
  run_etl_policy json_dumps as_text strptime strptime_date py_int_str cur landing core = Ok core' ->
  fetch_changed_rows cur landing core' = [].
Proof.
  intros Hnd Hrun; unfold run_etl_policy in Hrun.
  set (rows := fetch_changed_rows cur landing core) in *.
  destruct (normalize_all json_dumps as_text strptime strptime_date py_int_str rows)
    as [items|e] eqn:En; [|discriminate Hrun].
  destruct (normalize_all_ok _ _ _ _ _ rows items En) as [Hfrom [Hto Hnil]].
  assert (Hcore : (core' = core /\ rows = []) \/ core' = upsert_policy core items).
  { destruct items as [|it0 its]; injection Hrun as <-;
      [left; split; [reflexivity|apply Hnil; reflexivity]|right; reflexivity]. }
  destruct Hcore as [[-> Hr] | ->]; [exact Hr|].
  assert (Hitem : forall c it, In c cur -> In it items -> n_id it = cr_policy_id c ->
                    n_content_hash it = cr_record_hash c).
  { intros c it Hc Hit Hid; destruct (Hfrom it Hit) as [r [Hr Er]].
    apply normalize_row_ok in Er as [Ek Eh].
    destruct (fetch_changed_rows_from cur landing core r Hr) as [c' [Hc' [Ek' Eh']]].
    assert (c' = c) by (apply (nodup_map_inj cr_policy_id cur); auto; congruence).
    subst c'; congruence. }
  apply flat_map_all_nil; intros c Hc.
  destruct (latest_raw landing (cr_policy_id c)) as [raw|] eqn:Hl; [|reflexivity].
  destruct (upsert_policy_spec core items (cr_policy_id c)) as [_ [_ Hf]]; rewrite Hf.
  unfold last_item in *.
  destruct (last_item_from None (cr_policy_id c) items) as [it|] eqn:El.
  - apply last_item_from_in in El as [E|[Hin Hk]]; [discriminate|].
    cbn [pol_content_hash]; rewrite (Hitem c it Hc Hin Hk), String.eqb_refl; reflexivity.
  - assert (Hnot : ~ In (cr_policy_id c, cr_record_hash c, raw) rows).
    { intros Hr; destruct (Hto _ Hr) as [it [Hit Er]].
      apply normalize_row_ok in Er as [Ek _].
      exact (last_item_from_some None (cr_policy_id c) items it Hit Ek El). }
    destruct (find_policy (cr_policy_id c) core) as [p|] eqn:Ef.
    + destruct (String.eqb (cr_record_hash c) (pol_content_hash p)) eqn:Eh; [reflexivity|].
      exfalso; apply Hnot; apply fetch_changed_rows_to; [exact Hc|exact Hl|rewrite Ef; exact Eh].
    + exfalso; apply Hnot; apply fetch_changed_rows_to; [exact Hc|exact Hl|rewrite Ef; exact I].
Qed.

Lemma run_etl_change_detection_fixpoint_witness :
  let raw_b := [("plcyNm", JStr "B"); ("aplyPrdSeCd", JStr "0057001");
                ("lastMdfcnDt", JStr "2025-01-02 11:22:33"); ("inqCnt", JStr "15");
                ("bizPrdBgngYmd", JStr "20250101"); ("bizPrdEndYmd", JStr "20251231");
                ("frstRegDt", JStr "2024-12-01 09:00:00")] in
  let raw_c := [("plcyNm", JStr "C"); ("lastMdfcnDt", JStr "2025-01-03 08:00:00");
                ("frstRegDt", JStr "2024-12-01 09:00:00")] in
  let cur := [mk_current_row "P1" "h2"; mk_current_row "P2" "h9"] in
  let landing := [mk_landing_ts "P1" [("plcyNm", JStr "A")] 1;
                  mk_landing_ts "P1" raw_b 2;
                  mk_landing_ts "P2" raw_c 1] in
  let core := [mk_policy "P1" "A" "UNKNOWN" "{}" "h1" (Some "OPEN");
               mk_policy "P2" "C" "UNKNOWN" "{}" "h9" None] in
  let strptime := fun s : string => if String.eqb s "" then None else Some 0 in
  let py_int_str := fun s : string => if String.eqb s "15" then Some 15 else None in
  let core' := [mk_policy "P1" "B" "PERIODIC" "{}" "h2" (Some "OPEN");
                mk_policy "P2" "C" "UNKNOWN" "{}" "h9" None] in
  NoDup (map cr_policy_id cur) /\
  fetch_changed_rows cur landing core = [("P1", "h2", raw_b)] /\
  run_etl_policy (fun _ => "{}") (fun _ => "B") strptime strptime py_int_str cur landing core
    = Ok core' /\
  fetch_changed_rows cur landing core' = [] /\
  run_etl_policy (fun _ => "{}") (fun _ => "B") strptime strptime py_int_str cur
    [mk_landing_ts "P1" [("plcyNm", JStr "B")] 2] core = Raise UnboundLocalError.
Proof.
  intros raw_b raw_c cur landing core strptime py_int_str core'.
  assert (Hnd : NoDup (map cr_policy_id cur)) by (repeat constructor; cbn; intuition discriminate).
  assert (Hr : run_etl_policy (fun _ => "{}") (fun _ => "B") strptime strptime py_int_str
                 cur landing core = Ok core') by (vm_compute; reflexivity).
  split; [exact Hnd|split; [reflexivity|split; [exact Hr|split; [|vm_compute; reflexivity]]]].
  exact (run_etl_change_detection_fixpoint _ _ _ _ _ cur landing core core' Hnd Hr).
Defined.

End PolicyFetchProps.
